(** * BATHRON DEX: HTLC atomic-swap settlement core

    A shallow embedding of the Python sources under [contrib/dex] that
    decide the settlement properties of the swap core:

    - [sdk/server.py]       timelock policy, swap status, registration,
                            taker lookup, swap update, secret masking
    - [sdk/htlc_wrapper.py] secrets, preimage verification, claimable /
                            refundable, blocks until expiry
    - [lp_bot.py]           preimage extraction from a scriptSig, byte
                            order, the Polygon claim, one bot iteration
    - [swap_watcher.py]     swap state derivation, taker registry
    - [lp_watcher.py]       LP watcher: lock detection, KPIV HTLC, USDC
                            claim, auto-refund
    - [sdk/lot_sizes.py]    standard lot sizes: split, grouping, validation
    - [sdk/dex_types.py]    the LOT dataclass and its dict form
    - [sdk/lot_manager.py]  LOT status updates and expiry clean-up

    Python [int] is [Z]; [str] is [string] (code points below 256);
    [bytes] is [list byte]; [float] is the binary64 [float] of the kernel;
    a [dict] keyed by strings is a [gmap string _] where only lookups and
    stores are observed and an insertion-ordered association list where
    the code iterates over it.  Calls that leave the process (RPC to the
    daemon, HTTP, web3) are answered by an explicit record of oracles, and
    every submitted transaction is appended to an explicit trace. *)

From Stdlib Require Import ZArith List String Ascii Bool Lia PrimFloat.
From Stdlib.Strings Require Import Byte.
From stdpp Require Import base option gmap strings list pretty.

Import ListNotations.
Local Open Scope string_scope.
Local Open Scope Z_scope.

(* ===================================================================== *)
(** ** Python primitives used by the sources *)
(* ===================================================================== *)

Module Py.

(** Code point of a character, and back (total: reduced modulo 256). *)
Definition ord (c : ascii) : Z := Z.of_N (N_of_ascii c).
Definition chr (z : Z) : ascii := ascii_of_N (Z.to_N z).

Definition byte_val (b : byte) : Z := Z.of_N (Byte.to_N b).
Definition byte_of_Z (z : Z) : byte := byte_of_ascii (chr (z mod 256)).

(** [str.lower()] on code points below 256: [A-Z] and the Latin-1
    capitals (0xC0-0xDE, the multiplication sign 0xD7 apart) move up
    by 32, everything else stays. *)
Definition lower_char (c : ascii) : ascii :=
  let n := ord c in
  if ((65 <=? n) && (n <=? 90)) ||
     ((192 <=? n) && (n <=? 222) && negb (n =? 215))
  then chr (n + 32) else c.

Fixpoint lower (s : string) : string :=
  match s with
  | EmptyString => EmptyString
  | String c r => String (lower_char c) (lower r)
  end.

(** [s.startswith(p)] *)
Definition startswith (s p : string) : bool := String.prefix p s.

(** [s[n:]] and [s[:n]] for a non-negative literal [n]. *)
Fixpoint drop_str (n : nat) (s : string) : string :=
  match n, s with
  | O, _ => s
  | S k, EmptyString => EmptyString
  | S k, String _ r => drop_str k r
  end.

Fixpoint take_str (n : nat) (s : string) : string :=
  match n, s with
  | O, _ => EmptyString
  | S k, EmptyString => EmptyString
  | S k, String c r => String c (take_str k r)
  end.

(** ["0" * n] *)
Fixpoint repeat_str (c : ascii) (n : nat) : string :=
  match n with
  | O => EmptyString
  | S k => String c (repeat_str c k)
  end.

(** Truthiness of a [str]: non-empty. *)
Definition truthy_str (s : string) : bool :=
  match s with EmptyString => false | _ => true end.

(** Truthiness of an [Optional[str]]. *)
Definition truthy_opt (o : option string) : bool :=
  match o with Some s => truthy_str s | None => false end.

(** Value of a hexadecimal digit, as [bytes.fromhex] reads it. *)
Definition hex_digit (c : ascii) : option Z :=
  let n := ord c in
  if (48 <=? n) && (n <=? 57) then Some (n - 48)
  else if (97 <=? n) && (n <=? 102) then Some (n - 87)
  else if (65 <=? n) && (n <=? 70) then Some (n - 55)
  else None.

(** ASCII whitespace, skipped by [bytes.fromhex] between two bytes:
    space, tab, line feed, vertical tab, form feed, carriage return. *)
Definition is_space (c : ascii) : bool :=
  let n := ord c in (n =? 32) || ((9 <=? n) && (n <=? 13)).

(** [bytes.fromhex(s)]: pairs of hex digits, whitespace allowed before a
    pair but not inside one; [None] stands for the [ValueError]. *)
Fixpoint fromhex (s : string) : option (list byte) :=
  match s with
  | EmptyString => Some []
  | String c r =>
      if is_space c then fromhex r
      else
        match hex_digit c, r with
        | Some hi, String d r' =>
            match hex_digit d, fromhex r' with
            | Some lo, Some bs => Some (byte_of_Z (16 * hi + lo) :: bs)
            | _, _ => None
            end
        | _, _ => None
        end
  end.

Definition hex_char (n : Z) : ascii :=
  if n <? 10 then chr (48 + n) else chr (87 + n).

(** [b.hex()]: two lower-case digits per byte. *)
Fixpoint hex (bs : list byte) : string :=
  match bs with
  | [] => EmptyString
  | b :: r =>
      String (hex_char (byte_val b / 16))
        (String (hex_char (byte_val b mod 16)) (hex r))
  end.

(** [int.from_bytes(bs, 'little')] *)
Fixpoint int_from_bytes_little (bs : list byte) : Z :=
  match bs with
  | [] => 0
  | b :: r => byte_val b + 256 * int_from_bytes_little r
  end.

(** [data[a:a+n]] on [bytes]: shorter when the data ends early. *)
Definition slice (data : list byte) (a n : nat) : list byte :=
  firstn n (skipn a data).

(** [s.replace('0x', '')]: every occurrence, left to right. *)
Fixpoint replace_0x (s : string) : string :=
  match s with
  | EmptyString => EmptyString
  | String c r =>
      match r with
      | String d r' =>
          if Ascii.eqb c "0" && Ascii.eqb d "x" then replace_0x r'
          else String c (replace_0x r)
      | EmptyString => s
      end
  end.

(** [s[:n]] and [s[-n:]] for any [int] n. *)
Definition slice_to (n : Z) (s : string) : string :=
  if n >=? 0 then take_str (Z.to_nat n) s
  else take_str (String.length s - Z.to_nat (- n)) s.

Definition slice_last (n : Z) (s : string) : string :=
  if n >? 0 then drop_str (String.length s - Z.to_nat n) s
  else drop_str (Z.to_nat (- n)) s.

End Py.

(* ===================================================================== *)
(** ** hashlib.sha256 (FIPS 180-4) *)
(* ===================================================================== *)

Module Hashlib.

Definition wrap32 (x : Z) : Z := x mod 4294967296.
Definition add32 (x y : Z) : Z := wrap32 (x + y).
Definition rotr (n x : Z) : Z :=
  Z.lor (Z.shiftr x n) (wrap32 (Z.shiftl x (32 - n))).

Definition Ch (x y z : Z) : Z :=
  Z.lxor (Z.land x y) (Z.land (Z.lxor x 4294967295) z).
Definition Maj (x y z : Z) : Z :=
  Z.lxor (Z.lxor (Z.land x y) (Z.land x z)) (Z.land y z).
Definition bsig0 (x : Z) : Z := Z.lxor (Z.lxor (rotr 2 x) (rotr 13 x)) (rotr 22 x).
Definition bsig1 (x : Z) : Z := Z.lxor (Z.lxor (rotr 6 x) (rotr 11 x)) (rotr 25 x).
Definition ssig0 (x : Z) : Z := Z.lxor (Z.lxor (rotr 7 x) (rotr 18 x)) (Z.shiftr x 3).
Definition ssig1 (x : Z) : Z := Z.lxor (Z.lxor (rotr 17 x) (rotr 19 x)) (Z.shiftr x 10).

(** The round constants and the initial hash value are the first 32 bits
    of the fractional parts of the cube roots of the first 64 primes and
    of the square roots of the first 8 (FIPS 180-4, sections 4.2.2 and
    5.3.3); they are computed here rather than listed. *)
Definition first_primes : list Z :=
  [ 2; 3; 5; 7; 11; 13; 17; 19; 23; 29; 31; 37; 41; 43; 47; 53;
    59; 61; 67; 71; 73; 79; 83; 89; 97; 101; 103; 107; 109; 113; 127; 131;
    137; 139; 149; 151; 157; 163; 167; 173; 179; 181; 191; 193; 197; 199;
    211; 223; 227; 229; 233; 239; 241; 251; 257; 263; 269; 271; 277; 281;
    283; 293; 307; 311 ].

(** The integer cube root of [n], bit by bit from bit [k - 1] down. *)
Fixpoint cube_root (k : nat) (n r : Z) : Z :=
  match k with
  | O => r
  | S k' =>
      let c := r + 2 ^ Z.of_nat k' in
      if c * c * c <=? n then cube_root k' n c else cube_root k' n r
  end.

Definition K256 : list Z :=
  map (fun p => wrap32 (cube_root 36 (p * 2 ^ 96) 0)) first_primes.

Definition H_init : list Z :=
  map (fun p => wrap32 (Z.sqrt (p * 2 ^ 64))) (firstn 8 first_primes).

(** Big-endian words of a byte string whose length is a multiple of 4. *)
Fixpoint words_of_bytes (bs : list byte) : list Z :=
  match bs with
  | a :: b :: c :: d :: r =>
      (((Py.byte_val a * 256 + Py.byte_val b) * 256 + Py.byte_val c) * 256
       + Py.byte_val d) :: words_of_bytes r
  | _ => []
  end.

Definition bytes_of_word (x : Z) : list byte :=
  [ Py.byte_of_Z (Z.shiftr x 24); Py.byte_of_Z (Z.shiftr x 16);
    Py.byte_of_Z (Z.shiftr x 8); Py.byte_of_Z x ].

Definition bytes_of_len64 (n : Z) : list byte :=
  bytes_of_word (Z.shiftr n 32) ++ bytes_of_word (wrap32 n).

(** Padding: 0x80, zeros up to 56 modulo 64, the bit length on 8 bytes. *)
Definition pad (msg : list byte) : list byte :=
  let len := Z.of_nat (length msg) in
  let zeros := Z.to_nat ((55 - len) mod 64) in
  msg ++ [x80] ++ repeat x00 zeros ++ bytes_of_len64 (8 * len).

(** Message schedule: [n] more words after the ones in [w]. *)
Fixpoint schedule (n : nat) (w : list Z) : list Z :=
  match n with
  | O => w
  | S k =>
      let t := length w in
      let x := add32 (add32 (ssig1 (nth (t - 2) w 0)) (nth (t - 7) w 0))
                     (add32 (ssig0 (nth (t - 15) w 0)) (nth (t - 16) w 0)) in
      schedule k (w ++ [x])
  end.

Record regs := Regs { ra : Z; rb : Z; rc : Z; rd : Z; re : Z; rf : Z; rg : Z; rh : Z }.

Definition round (s : regs) (kw : Z * Z) : regs :=
  let t1 := add32 (add32 (add32 (rh s) (bsig1 (re s)))
                         (add32 (Ch (re s) (rf s) (rg s)) (fst kw))) (snd kw) in
  let t2 := add32 (bsig0 (ra s)) (Maj (ra s) (rb s) (rc s)) in
  Regs (add32 t1 t2) (ra s) (rb s) (rc s) (add32 (rd s) t1) (re s) (rf s) (rg s).

Definition regs_of_list (h : list Z) : regs :=
  Regs (nth 0 h 0) (nth 1 h 0) (nth 2 h 0) (nth 3 h 0)
       (nth 4 h 0) (nth 5 h 0) (nth 6 h 0) (nth 7 h 0).

Definition list_of_regs (s : regs) : list Z :=
  [ra s; rb s; rc s; rd s; re s; rf s; rg s; rh s].

Definition compress (h : list Z) (block : list byte) : list Z :=
  let w := schedule 48 (words_of_bytes block) in
  let s := fold_left round (combine K256 w) (regs_of_list h) in
  map (fun p => add32 (fst p) (snd p)) (combine h (list_of_regs s)).

(** One step per 64-byte block; [n] is the number of blocks. *)
Fixpoint blocks (n : nat) (h : list Z) (bs : list byte) : list Z :=
  match n with
  | O => h
  | S k => blocks k (compress h (firstn 64 bs)) (skipn 64 bs)
  end.

(** [hashlib.sha256(msg).digest()] *)
Definition sha256 (msg : list byte) : list byte :=
  let p := pad msg in
  flat_map bytes_of_word (blocks (length p / 64) H_init p).

(** [hashlib.sha256(msg).hexdigest()] *)
Definition sha256_hexdigest (msg : list byte) : string := Py.hex (sha256 msg).

End Hashlib.

(* ===================================================================== *)
(** ** sdk/server.py *)
(* ===================================================================== *)

Module Server.

(** The module-level timelock constants (server.py, lines 53-59). *)
Record TimelockConfig := {
  T_KPIV_SECONDS : Z;
  T_USDC_SECONDS : Z;
  T_BUFFER_SECONDS : Z;
  T_KPIV_BLOCKS : Z;
  T_USDC_BLOCKS : Z
}.

Definition shipped : TimelockConfig := {|
  T_KPIV_SECONDS := 2 * 60 * 60;
  T_USDC_SECONDS := 4 * 60 * 60;
  T_BUFFER_SECONDS := 30 * 60;
  T_KPIV_BLOCKS := 120;
  T_USDC_BLOCKS := 240
|}.

(** Importing the module either goes on or dies on the uncaught
    [AssertionError] of line 62, which carries the formatted message
    (the interpreter runs without [-O], which would drop the [assert]). *)
Inductive load_result :=
| Loaded
| AssertionError (msg : string).

Definition timelock_message (c : TimelockConfig) : string :=
  "TIMELOCK ERROR: T_USDC (" +:+ pretty (T_USDC_SECONDS c) +:+
  "s) must be >= T_KPIV (" +:+ pretty (T_KPIV_SECONDS c) +:+
  "s) + BUFFER (" +:+ pretty (T_BUFFER_SECONDS c) +:+ "s)".

Definition module_load (c : TimelockConfig) : load_result :=
  if T_USDC_SECONDS c >=? T_KPIV_SECONDS c + T_BUFFER_SECONDS c
  then Loaded
  else AssertionError (timelock_message c).

(** An entry of [pending_swaps]: the dict stored by [api_register_swap],
    with the [swap_id] that [api_update_swap] may add. *)
Record SwapInfo := {
  si_hashlock : string;
  si_taker_kpiv_addr : string;
  si_lot_id : string;
  si_registered_at : Z;
  si_kpiv_sent : bool;
  si_swap_id : option string
}.

(** What [get_htlc_swap] reads from the contract. *)
Record HtlcSwap := {
  hs_timelock : Z;
  hs_withdrawn : bool;
  hs_refunded : bool
}.

Record SwapStatus := {
  st_state : string;
  st_next_action : option string;
  st_next_action_by : option string
}.

(** [swap_info.get('swap_id', hashlock)] with [swap_info] the entry of
    [hashlock], or the empty dict. *)
Definition polygon_key (pending_swaps : gmap string SwapInfo)
    (hashlock : string) : string :=
  match pending_swaps !! hashlock with
  | Some i => default hashlock (si_swap_id i)
  | None => hashlock
  end.

(** [swap_info.get('kpiv_sent')], falsy when the key or the entry is
    missing. *)
Definition kpiv_sent (pending_swaps : gmap string SwapInfo)
    (hashlock : string) : bool :=
  match pending_swaps !! hashlock with
  | Some i => si_kpiv_sent i
  | None => false
  end.

(** [api_swap_status]: [get_htlc_swap] is the contract query ([None]
    when it fails), [now] is [int(time.time())]. *)
Definition api_swap_status (pending_swaps : gmap string SwapInfo)
    (get_htlc_swap : string -> option HtlcSwap) (now : Z)
    (hashlock : string) : SwapStatus :=
  match get_htlc_swap (polygon_key pending_swaps hashlock) with
  | None => Build_SwapStatus "UNKNOWN" None None
  | Some htlc_state =>
      if hs_refunded htlc_state then Build_SwapStatus "REFUNDED" None None
      else if hs_withdrawn htlc_state then Build_SwapStatus "COMPLETED" None None
      else if hs_timelock htlc_state <? now
      then Build_SwapStatus "REFUNDABLE" (Some "REFUND") (Some "TAKER")
      else if kpiv_sent pending_swaps hashlock
      then Build_SwapStatus "CLAIMABLE" (Some "REVEAL_SECRET") (Some "TAKER")
      else Build_SwapStatus "LOCKED" (Some "WAIT_KPIV") (Some "LP")
  end.

(** The JSON body of [POST /api/register]; a missing key is [None]. *)
Record RegisterRequest := {
  rq_hashlock : option string;
  rq_taker_kpiv_addr : option string;
  rq_lot_id : option string
}.

Inductive reply :=
| Error (code : Z) (error : string)
| Success (swap_id : string) (message : string).

(** [api_register_swap]: the new [pending_swaps] and the HTTP answer.
    [data] is the value of [request.json] for a request that has a JSON
    body; [None] is the body [null] or an empty object, both falsy (for
    a request without a JSON body [request.json] itself raises, and
    Flask answers before the test is reached).  The values of the three
    keys are strings. *)
Definition api_register_swap (pending_swaps : gmap string SwapInfo)
    (now : Z) (data : option RegisterRequest)
    : gmap string SwapInfo * reply :=
  match data with
  | None => (pending_swaps, Error 400 "No data provided")
  | Some d =>
      match rq_hashlock d, rq_taker_kpiv_addr d, rq_lot_id d with
      | Some hashlock, Some taker_kpiv_addr, Some lot_id =>
          if negb (Py.truthy_str hashlock && Py.truthy_str taker_kpiv_addr
                   && Py.truthy_str lot_id)
          then (pending_swaps, Error 400 "Missing required fields")
          else if negb (Py.startswith taker_kpiv_addr "x"
                        || Py.startswith taker_kpiv_addr "y")
          then (pending_swaps, Error 400 "Invalid BATHRON address format")
          else
            (<[hashlock := {| si_hashlock := hashlock;
                              si_taker_kpiv_addr := taker_kpiv_addr;
                              si_lot_id := lot_id;
                              si_registered_at := now;
                              si_kpiv_sent := false;
                              si_swap_id := None |}]> pending_swaps,
             Success (Py.take_str 16 hashlock)
               "Swap registered. LP will send KPIV after detecting your USDC lock.")
      | _, _, _ => (pending_swaps, Error 400 "Missing required fields")
      end
  end.

(** [mask_secret] (lines 75-79). *)
Definition mask_secret (secret : string) (visible_prefix visible_suffix : Z)
    : string :=
  if negb (Py.truthy_str secret)
     || (Z.of_nat (String.length secret) <=? visible_prefix + visible_suffix)
  then "***"
  else Py.slice_to visible_prefix secret +:+ "..." +:+
       Py.slice_last visible_suffix secret.

(** The answers of [GET /api/taker_address]. *)
Inductive taker_reply :=
| TakerError (code : Z) (error : string)
| TakerFound (kpiv_address lot_id : string) (registered_at : Z)
| TakerNotFound.

(** [api_taker_address]: [hashlock] is the query parameter, the empty
    string when it is missing. *)
Definition api_taker_address (pending_swaps : gmap string SwapInfo)
    (hashlock : string) : taker_reply :=
  if negb (Py.truthy_str hashlock)
  then TakerError 400 "Missing hashlock parameter"
  else
    let hashlock_clean := Py.replace_0x (Py.lower hashlock) in
    let hashlock_with_prefix := "0x" +:+ hashlock_clean in
    let swap :=
      match pending_swaps !! hashlock_clean with
      | Some i => Some i
      | None => pending_swaps !! hashlock_with_prefix
      end in
    match swap with
    | Some i =>
        if Py.truthy_str (si_taker_kpiv_addr i)
        then TakerFound (si_taker_kpiv_addr i) (si_lot_id i) (si_registered_at i)
        else TakerNotFound
    | None => TakerNotFound
    end.

(** The JSON body of [POST /api/update_swap]: the keys that the server
    reads back from an entry, each of the stored type when present
    (other keys, such as [tx_hash], are stored and never read). *)
Record UpdateRequest := {
  uq_hashlock : option string;
  uq_swap_id : option string;
  uq_taker_kpiv_addr : option string;
  uq_lot_id : option string;
  uq_registered_at : option Z;
  uq_kpiv_sent : option bool
}.

(** [pending_swaps[hashlock].update(data)] *)
Definition update_info (i : SwapInfo) (data : UpdateRequest) : SwapInfo := {|
  si_hashlock := default (si_hashlock i) (uq_hashlock data);
  si_taker_kpiv_addr := default (si_taker_kpiv_addr i) (uq_taker_kpiv_addr data);
  si_lot_id := default (si_lot_id i) (uq_lot_id data);
  si_registered_at := default (si_registered_at i) (uq_registered_at data);
  si_kpiv_sent := default (si_kpiv_sent i) (uq_kpiv_sent data);
  si_swap_id :=
    match uq_swap_id data with
    | Some s => Some s
    | None => si_swap_id i
    end
|}.

Inductive update_reply :=
| UpdateError (code : Z) (error : string)
| Updated.

(** [api_update_swap], for a request that has a JSON object as body. *)
Definition api_update_swap (pending_swaps : gmap string SwapInfo)
    (data : UpdateRequest) : gmap string SwapInfo * update_reply :=
  match uq_hashlock data with
  | None => (pending_swaps, UpdateError 400 "Missing hashlock")
  | Some hashlock =>
      if negb (Py.truthy_str hashlock)
      then (pending_swaps, UpdateError 400 "Missing hashlock")
      else
        match pending_swaps !! hashlock with
        | Some i =>
            (<[hashlock := update_info i data]> pending_swaps, Updated)
        | None => (pending_swaps, UpdateError 404 "Swap not found")
        end
  end.

End Server.

(* ===================================================================== *)
(** ** sdk/htlc_wrapper.py *)
(* ===================================================================== *)

Module HtlcWrapper.

(** JSON values found in the daemon's answers (null, booleans, integers
    and strings: the fields read here hold no floats). *)
Inductive pyval :=
| PyNone
| PyBool (b : bool)
| PyInt (z : Z)
| PyStr (s : string).

Inductive exn := RPCError | TypeError.

Inductive outcome (A : Type) :=
| Return (a : A)
| Raise (e : exn).
Arguments Return {A} a.
Arguments Raise {A} e.

(** [x == s] for a string literal [s]. *)
Definition eq_str (x : pyval) (s : string) : bool :=
  match x with PyStr t => String.eqb t s | _ => false end.

(** [x in [s1, s2, ...]] *)
Definition in_strs (x : pyval) (l : list string) : bool :=
  existsb (eq_str x) l.

(** [n < x] and [n >= x] for an [int] n: [bool] counts as 0 or 1, the
    other types raise [TypeError]. *)
Definition int_lt (n : Z) (x : pyval) : outcome bool :=
  match x with
  | PyInt z => Return (n <? z)
  | PyBool b => Return (n <? (if b then 1 else 0))
  | _ => Raise TypeError
  end.

Definition int_ge (n : Z) (x : pyval) : outcome bool :=
  match x with
  | PyInt z => Return (n >=? z)
  | PyBool b => Return (n >=? (if b then 1 else 0))
  | _ => Raise TypeError
  end.

(** What a call of [rpc.htlc_get] ends in: the [result] of the daemon's
    reply, or the [RPCError] that [RPCClient._call] raises for a failed
    connection and for an error reply. *)
Inductive rpc_answer (A : Type) :=
| Answer (a : A)
| Failed.
Arguments Answer {A} a.
Arguments Failed {A}.

(** The daemon behind [self.rpc]: [htlc_get] answers with a dict or with
    null, or fails with an [RPCError]; [getblockcount] answers with a
    height or raises. *)
Record Rpc := {
  htlc_get : string -> rpc_answer (option (gmap string pyval));
  getblockcount : outcome Z
}.

(** [verify_preimage]: any exception of the body gives [False]. *)
Definition verify_preimage (hashlock preimage : string) : bool :=
  match Py.fromhex preimage with
  | Some bs =>
      String.eqb (Py.lower (Hashlib.sha256_hexdigest bs)) (Py.lower hashlock)
  | None => false
  end.

(** [compute_hashlock]: [None] stands for the [ValueError]. *)
Definition compute_hashlock (secret : string) : option string :=
  match Py.fromhex secret with
  | Some bs => Some (Hashlib.sha256_hexdigest bs)
  | None => None
  end.

(** [get]: the [RPCError] becomes [None]. *)
Definition get (rpc : Rpc) (identifier : string) : option (gmap string pyval) :=
  match htlc_get rpc identifier with
  | Answer r => r
  | Failed => None
  end.

(** [not htlc]: [None] and the empty dict are falsy. *)
Definition falsy (htlc : option (gmap string pyval)) : bool :=
  match htlc with
  | None => true
  | Some d => bool_decide (d = ∅)
  end.

Definition dict_get (d : gmap string pyval) (k : string) (dflt : pyval) : pyval :=
  default dflt (d !! k).

Definition is_claimable (rpc : Rpc) (outpoint : string) : outcome bool :=
  match get rpc outpoint with
  | None => Return false
  | Some htlc =>
      if falsy (Some htlc) then Return false
      else if negb (in_strs (dict_get htlc "status" PyNone) ["pending"; "locked"])
      then Return false
      else
        match getblockcount rpc with
        | Raise e => Raise e
        | Return current_height =>
            match int_ge current_height (dict_get htlc "expiry_height" (PyInt 0)) with
            | Raise e => Raise e
            | Return true => Return false
            | Return false => Return true
            end
        end
  end.

Definition is_refundable (rpc : Rpc) (outpoint : string) : outcome bool :=
  match get rpc outpoint with
  | None => Return false
  | Some htlc =>
      if falsy (Some htlc) then Return false
      else if in_strs (dict_get htlc "status" PyNone) ["claimed"; "refunded"]
      then Return false
      else
        match getblockcount rpc with
        | Raise e => Raise e
        | Return current_height =>
            match int_lt current_height (dict_get htlc "expiry_height" (PyInt 0)) with
            | Raise e => Raise e
            | Return true => Return false
            | Return false => Return true
            end
        end
  end.

(** [generate_secret], given the 32 bytes that [secrets.token_bytes]
    returned: [(secret, hashlock)]. *)
Definition generate_secret (secret_bytes : list byte) : string * string :=
  let secret := Py.hex secret_bytes in
  let hashlock := Hashlib.sha256_hexdigest secret_bytes in
  (secret, hashlock).

(** [x - n] for an [int] n. *)
Definition sub_int (x : pyval) (n : Z) : outcome Z :=
  match x with
  | PyInt z => Return (z - n)
  | PyBool b => Return ((if b then 1 else 0) - n)
  | _ => Raise TypeError
  end.

Definition blocks_until_expiry (rpc : Rpc) (outpoint : string) : outcome Z :=
  match get rpc outpoint with
  | None => Return 0
  | Some htlc =>
      if falsy (Some htlc) then Return 0
      else
        match getblockcount rpc with
        | Raise e => Raise e
        | Return current_height =>
            let expiry_height := dict_get htlc "expiry_height" (PyInt 0) in
            sub_int expiry_height current_height
        end
  end.

End HtlcWrapper.

(* ===================================================================== *)
(** ** lp_bot.py *)
(* ===================================================================== *)

Module LpBot.

Definition byte_nat (b : byte) : nat := Z.to_nat (Py.byte_val b).

(** The test of line 360 on the hex form of a 32-byte push. *)
Definition likely_preimage (preimage : string) : bool :=
  negb (String.eqb preimage (Py.repeat_str "0"%char 64))
  && negb (Py.startswith preimage "02")
  && negb (Py.startswith preimage "03").

(** The [while pos < len(data)] loop of [extract_preimage_from_scriptsig],
    with a bound [fuel] on the number of times the loop condition is
    evaluated: [Returned r] when the function returns [r] within the
    bound ([None] is the final [return None], reached when the loop ends
    or when [data[pos]] raises [IndexError], PUSHDATA1 without its
    length byte), [OutOfTurns] when the bound is used up first. *)
Inductive scan_result :=
| OutOfTurns
| Returned (r : option string).

Fixpoint scan (fuel : nat) (data : list byte) (pos : nat) : scan_result :=
  match fuel with
  | O => OutOfTurns
  | S fuel' =>
      match nth_error data pos with
      | None => Returned None
      | Some op =>
          let push_len := byte_nat op in
          let pos := S pos in
          if (push_len =? 0)%nat then scan fuel' data pos
          else if (push_len <=? 75)%nat then
            if (push_len =? 32)%nat then
              let preimage := Py.hex (Py.slice data pos 32) in
              let pos := (pos + push_len)%nat in
              if likely_preimage preimage then Returned (Some preimage)
              else scan fuel' data pos
            else scan fuel' data (pos + push_len)%nat
          else if (push_len =? 76)%nat then
            match nth_error data pos with
            | None => Returned None
            | Some n => scan fuel' data (pos + (1 + byte_nat n))%nat
            end
          else if (push_len =? 77)%nat then
            let actual_len :=
              Z.to_nat (Py.int_from_bytes_little (Py.slice data pos 2)) in
            scan fuel' data (pos + (2 + actual_len))%nat
          else scan fuel' data pos
      end
  end.

(** [extract_preimage_from_scriptsig]: every turn of the loop moves
    [pos] forward, so the condition is evaluated at most
    [len(data) + 1] times. *)
Definition extract_preimage_from_scriptsig (scriptsig_hex : string)
    : option string :=
  match Py.fromhex scriptsig_hex with
  | None => None
  | Some data =>
      match scan (S (length data)) data 0 with
      | Returned r => r
      | OutOfTurns => None
      end
  end.

(** [reverse_bytes32]: [None] stands for the [ValueError] of
    [bytes.fromhex]; a string of the wrong length comes back as it
    is. *)
Definition reverse_bytes32 (hex_str : string) : option string :=
  let clean := Py.replace_0x hex_str in
  if negb (String.length clean =? 64)%nat then Some hex_str
  else
    match Py.fromhex clean with
    | Some bs => Some (Py.hex (rev bs))
    | None => None
    end.

(** The entry of the contract's [swaps] mapping, as [get_swap] returns
    it (the two flags that [claim] reads). *)
Record Swap := {
  claimed : bool;
  refunded : bool
}.

(** The EVM chain behind [PolygonClaimer].
    - [get_swap]: the answer of [get_swap], [None] when the call fails;
    - [send_claim]: lines 211-232 of [claim] (build, sign and send the
      claim, wait for the receipt): the receipt's status and the hex
      form of the transaction hash, or [None] on any exception. *)
Record Chain := {
  get_swap : list byte -> option Swap;
  send_claim : list byte -> list byte -> option (Z * string)
}.

(** What the bot sends out or writes, in order. *)
Inductive action :=
| ClaimTx (swap_id preimage : list byte)
| SaveState (claimed_swaps : list string).

(** [PolygonClaimer.claim]: every exception of the body gives [None]. *)
Definition claim (c : Chain) (swap_id preimage : string)
    : option string * list action :=
  match reverse_bytes32 swap_id, reverse_bytes32 preimage with
  | Some swap_id_evm, Some preimage_evm =>
      match Py.fromhex swap_id_evm, Py.fromhex preimage_evm with
      | Some swap_id_bytes, Some preimage_bytes =>
          match get_swap c swap_id_bytes with
          | None => (None, [])
          | Some swap =>
              if claimed swap then (Some "already_claimed", [])
              else if refunded swap then (None, [])
              else
                let sent := [ClaimTx swap_id_bytes preimage_bytes] in
                match send_claim c swap_id_bytes preimage_bytes with
                | Some (status, tx_hash) =>
                    if status =? 1 then (Some tx_hash, sent) else (None, sent)
                | None => (None, sent)
                end
          end
      | _, _ => (None, [])
      end
  | _, _ => (None, [])
  end.

(** An entry of the daemon's [htlc_list] (the keys the bot reads, each
    a string when present). *)
Record Lot := {
  status : option string;
  preimage : option string;
  hashlock : option string
}.

Definition in_list (x : string) (l : list string) : bool :=
  existsb (String.eqb x) l.

(** The loop of [check_htlc_list]: a lot without its [hashlock] key
    raises [KeyError], which ends the loop with what was found so far. *)
Fixpoint check_lots (claimed_swaps : list string) (lots : list Lot)
    (revealed : list (string * string)) : list (string * string) :=
  match lots with
  | [] => revealed
  | lot :: rest =>
      if bool_decide (status lot = Some "claimed")
         && Py.truthy_opt (preimage lot) then
        match hashlock lot with
        | None => revealed
        | Some hashlock =>
            if in_list hashlock claimed_swaps
            then check_lots claimed_swaps rest revealed
            else check_lots claimed_swaps rest
                   (revealed ++ [(hashlock, default "" (preimage lot))])%list
        end
      else check_lots claimed_swaps rest revealed
  end.

(** [check_htlc_list]: [htlc_list] is the daemon's answer, [None] when
    the call fails; the items are [(hashlock, preimage)]. *)
Definition check_htlc_list (htlc_list : option (list Lot))
    (claimed_swaps : list string) : list (string * string) :=
  match htlc_list with
  | Some lots => check_lots claimed_swaps lots []
  | None => []
  end.

(** [process_revealed_preimage], on [self.state["claimed_swaps"]]. *)
Definition process_revealed_preimage (claimer : option Chain)
    (claimed_swaps : list string) (hashlock preimage : string)
    : list string * bool * list action :=
  let swap_id := hashlock in
  match claimer with
  | None =>
      let claimed_swaps := (claimed_swaps ++ [hashlock])%list in
      (claimed_swaps, false, [SaveState claimed_swaps])
  | Some c =>
      let '(result, acts) := claim c swap_id preimage in
      if Py.truthy_opt result then
        let claimed_swaps := (claimed_swaps ++ [hashlock])%list in
        (claimed_swaps, true, (acts ++ [SaveState claimed_swaps])%list)
      else (claimed_swaps, false, acts)
  end.

(** [run_once] *)
Definition run_once (claimer : option Chain) (htlc_list : option (list Lot))
    (claimed_swaps : list string) : list string * list action :=
  let revealed := check_htlc_list htlc_list claimed_swaps in
  fold_left
    (fun st item =>
       let '(claimed_swaps, _, acts) :=
         process_revealed_preimage claimer (fst st) (fst item) (snd item) in
       (claimed_swaps, (snd st ++ acts)%list))
    revealed (claimed_swaps, []).

End LpBot.

(* ===================================================================== *)
(** ** swap_watcher.py *)
(* ===================================================================== *)

Module SwapWatcher.

(** The dataclass [SwapState], field by field, with its defaults.  The
    values that come out of the daemon's JSON take the types that the
    dataclass declares. *)
Record SwapState := {
  swap_id : string;
  hashlock : string;
  piv_lot_outpoint : option string;
  piv_amount : float;
  piv_lot_status : string;
  piv_expiry_blocks : Z;
  evm_locked : bool;
  evm_amount : float;
  evm_claimed : bool;
  evm_refunded : bool;
  evm_timelock : Z;
  evm_time_left : Z;
  taker_state : string;
  taker_action : string;
  lp_state : string;
  lp_action : string;
  secret_revealed : bool;
  secret : option string
}.

Definition new_state (swap_id hashlock : string) : SwapState := {|
  swap_id := swap_id;
  hashlock := hashlock;
  piv_lot_outpoint := None;
  piv_amount := 0%float;
  piv_lot_status := "unknown";
  piv_expiry_blocks := 0;
  evm_locked := false;
  evm_amount := 0%float;
  evm_claimed := false;
  evm_refunded := false;
  evm_timelock := 0;
  evm_time_left := 0;
  taker_state := "browse";
  taker_action := "Select a LOT";
  lp_state := "inventory";
  lp_action := "Wait for taker";
  secret_revealed := false;
  secret := None
|}.

(** The two assignments [state.lp_state = ...; state.lp_action = ...]. *)
Definition set_lp (s : SwapState) (st act : string) : SwapState := {|
  swap_id := swap_id s;
  hashlock := hashlock s;
  piv_lot_outpoint := piv_lot_outpoint s;
  piv_amount := piv_amount s;
  piv_lot_status := piv_lot_status s;
  piv_expiry_blocks := piv_expiry_blocks s;
  evm_locked := evm_locked s;
  evm_amount := evm_amount s;
  evm_claimed := evm_claimed s;
  evm_refunded := evm_refunded s;
  evm_timelock := evm_timelock s;
  evm_time_left := evm_time_left s;
  taker_state := taker_state s;
  taker_action := taker_action s;
  lp_state := st;
  lp_action := act;
  secret_revealed := secret_revealed s;
  secret := secret s
|}.

(** The two assignments [state.taker_state = ...; state.taker_action = ...]. *)
Definition set_taker (s : SwapState) (st act : string) : SwapState := {|
  swap_id := swap_id s;
  hashlock := hashlock s;
  piv_lot_outpoint := piv_lot_outpoint s;
  piv_amount := piv_amount s;
  piv_lot_status := piv_lot_status s;
  piv_expiry_blocks := piv_expiry_blocks s;
  evm_locked := evm_locked s;
  evm_amount := evm_amount s;
  evm_claimed := evm_claimed s;
  evm_refunded := evm_refunded s;
  evm_timelock := evm_timelock s;
  evm_time_left := evm_time_left s;
  taker_state := st;
  taker_action := act;
  lp_state := lp_state s;
  lp_action := lp_action s;
  secret_revealed := secret_revealed s;
  secret := secret s
|}.

(** The first [if] chain of [derive_states] (LP state machine). *)
Definition derive_lp (state : SwapState) : SwapState :=
  if String.eqb (piv_lot_status state) "expired"
  then set_lp state "expired" "Refund your KPIV"
  else if evm_claimed state
  then set_lp state "claimed" "Done! USDC claimed"
  else if evm_locked state && Py.truthy_opt (secret state)
  then set_lp state "taken" "Claim USDC now!"
  else if evm_locked state
  then set_lp state "taken" "Taker locked funds - claim when ready"
  else if Py.truthy_opt (piv_lot_outpoint state)
  then set_lp state "inventory" "Waiting for taker"
  else state.

(** The second [if] chain of [derive_states] (taker state machine). *)
Definition derive_taker (state : SwapState) : SwapState :=
  if String.eqb (piv_lot_status state) "claimed"
  then set_taker state "completed" "Done! KPIV received"
  else if secret_revealed state && evm_locked state
  then set_taker state "claimable" "Claim KPIV now!"
  else if evm_locked state && (evm_time_left state <=? 0)
  then set_taker state "refundable" "Timeout - refund your USDC"
  else if evm_locked state
  then set_taker state "locked"
         ("Waiting for LP (" +:+ pretty (evm_time_left state / 3600) +:+ "h left)")
  else if Py.truthy_opt (piv_lot_outpoint state)
  then set_taker state "browse" "Lock USDC to start swap"
  else state.

Definition derive_states (state : SwapState) : SwapState :=
  derive_taker (derive_lp state).

(** *** Observations of the two chains

    What the helper functions of [compute_swap_state] return: the LOT
    found by [get_lot_by_hashlock] (a missing key of the dict is
    [None]), the saved secret, the EVM lock found by
    [get_htlc_by_hashlock], the secret of a [Claimed] event, and the
    clock [int(time.time())]. *)
Record Lot := {
  lot_outpoint : option string;
  lot_amount : option float;
  lot_status : option string;
  lot_blocks_until_expiry : option Z;
  lot_preimage : option string
}.

Record EvmHtlc := {
  h_swap_id : string;
  h_amount : float;
  h_timelock : Z
}.

Record Chains := {
  get_lot_by_hashlock : string -> option Lot;
  get_lot_secret : string -> option string;
  get_htlc_by_hashlock : string -> string -> option EvmHtlc;
  check_htlc_claimed : string -> option string;
  time_now : Z
}.

(** Step 1 of [compute_swap_state]: the BATHRON LOT. *)
Definition with_lot (state : SwapState) (lot : Lot) : SwapState :=
  let claimed := bool_decide (lot_status lot = Some "claimed") in {|
  swap_id := swap_id state;
  hashlock := hashlock state;
  piv_lot_outpoint := lot_outpoint lot;
  piv_amount := default 0%float (lot_amount lot);
  piv_lot_status := default "unknown" (lot_status lot);
  piv_expiry_blocks := default 0 (lot_blocks_until_expiry lot);
  evm_locked := evm_locked state;
  evm_amount := evm_amount state;
  evm_claimed := evm_claimed state;
  evm_refunded := evm_refunded state;
  evm_timelock := evm_timelock state;
  evm_time_left := evm_time_left state;
  taker_state := taker_state state;
  taker_action := taker_action state;
  lp_state := lp_state state;
  lp_action := lp_action state;
  secret_revealed := if claimed then true else secret_revealed state;
  secret := if claimed then lot_preimage lot else secret state
|}.

(** [state.secret_revealed = r; state.secret = x] *)
Definition set_secret (state : SwapState) (r : bool) (x : option string)
    : SwapState := {|
  swap_id := swap_id state;
  hashlock := hashlock state;
  piv_lot_outpoint := piv_lot_outpoint state;
  piv_amount := piv_amount state;
  piv_lot_status := piv_lot_status state;
  piv_expiry_blocks := piv_expiry_blocks state;
  evm_locked := evm_locked state;
  evm_amount := evm_amount state;
  evm_claimed := evm_claimed state;
  evm_refunded := evm_refunded state;
  evm_timelock := evm_timelock state;
  evm_time_left := evm_time_left state;
  taker_state := taker_state state;
  taker_action := taker_action state;
  lp_state := lp_state state;
  lp_action := lp_action state;
  secret_revealed := r;
  secret := x
|}.

(** Step 3 of [compute_swap_state]: the Polygon HTLC. *)
Definition with_htlc (state : SwapState) (htlc : EvmHtlc) (now : Z)
    (claimed_secret : option string) : SwapState :=
  let claimed := Py.truthy_opt claimed_secret in {|
  swap_id := h_swap_id htlc;
  hashlock := hashlock state;
  piv_lot_outpoint := piv_lot_outpoint state;
  piv_amount := piv_amount state;
  piv_lot_status := piv_lot_status state;
  piv_expiry_blocks := piv_expiry_blocks state;
  evm_locked := true;
  evm_amount := h_amount htlc;
  evm_claimed := if claimed then true else evm_claimed state;
  evm_refunded := evm_refunded state;
  evm_timelock := h_timelock htlc;
  evm_time_left := Z.max 0 (h_timelock htlc - now);
  taker_state := taker_state state;
  taker_action := taker_action state;
  lp_state := lp_state state;
  lp_action := lp_action state;
  secret_revealed := if claimed then true else secret_revealed state;
  secret := if claimed then claimed_secret else secret state
|}.

Definition compute_swap_state (w : Chains) (hashlock : string)
    (lp_address : option string) : SwapState :=
  let state := new_state "" hashlock in
  let state :=
    match get_lot_by_hashlock w hashlock with
    | Some lot => with_lot state lot
    | None => state
    end in
  let saved_secret := get_lot_secret w hashlock in
  let state :=
    if Py.truthy_opt saved_secret
    then set_secret state (secret_revealed state) saved_secret
    else state in
  let state :=
    match lp_address with
    | Some lp =>
        if Py.truthy_str lp then
          match get_htlc_by_hashlock w hashlock lp with
          | Some htlc =>
              with_htlc state htlc (time_now w)
                (check_htlc_claimed w (h_swap_id htlc))
          | None => state
          end
        else state
    | None => state
    end in
  derive_states state.

(** *** Taker registration: [POST /api/register_taker]

    [taker_registry] is the module-level dict; the two arguments are
    [data.get("hashlock")] and [data.get("kpiv_address")], strings when
    present. *)
Inductive reply :=
| Error (code : Z) (error : string)
| Registered (hashlock kpiv_address : string).

Definition register_taker (taker_registry : gmap string string)
    (hashlock kpiv_address : option string)
    : gmap string string * reply :=
  match hashlock, kpiv_address with
  | Some hashlock, Some kpiv_address =>
      if negb (Py.truthy_str hashlock) || negb (Py.truthy_str kpiv_address)
      then (taker_registry, Error 400 "Missing hashlock or kpiv_address")
      else
        let hashlock := Py.lower hashlock in
        let hashlock :=
          if Py.startswith hashlock "0x" then Py.drop_str 2 hashlock
          else hashlock in
        if negb (String.length hashlock =? 64)%nat
        then (taker_registry,
              Error 400 "Invalid hashlock length (must be 64 hex chars)")
        else (<[hashlock := kpiv_address]> taker_registry,
              Registered hashlock kpiv_address)
  | _, _ => (taker_registry, Error 400 "Missing hashlock or kpiv_address")
  end.

(** [GET /api/taker_address?hashlock=...]: the lookup the LP watcher uses. *)
Definition taker_address (taker_registry : gmap string string)
    (hashlock : string) : option string :=
  let hashlock := Py.lower hashlock in
  let hashlock :=
    if Py.startswith hashlock "0x" then Py.drop_str 2 hashlock else hashlock in
  match taker_registry !! hashlock with
  | Some a => if Py.truthy_str a then Some a else None
  | None => None
  end.

End SwapWatcher.

(* ===================================================================== *)
(** ** lp_watcher.py *)
(* ===================================================================== *)

Module LpWatcher.

(** Pricing and HTLC timeouts (lines 83-86).  [KPIV_EXPIRY_BLOCKS] is
    declared but no call passes it on: [create_kpiv_htlc] is always
    called with its default of 120 blocks. *)
#[warnings="-inexact-float"] Definition LP_PRICE : float := 0.05%float.
Definition KPIV_EXPIRY_BLOCKS : Z := 720.
Definition DEFAULT_EXPIRY_BLOCKS : Z := 120.

(** The dataclass [PendingSwap]. *)
Record PendingSwap := {
  hashlock : string;
  polygon_swap_id : string;
  usdc_amount : float;
  kpiv_amount : float;
  polygon_timelock : Z;
  kpiv_htlc_outpoint : string;
  kpiv_htlc_created : bool;
  preimage_revealed : string;
  usdc_claimed : bool;
  created_at : float
}.

(** A lock reported by [scan_for_locks] (the keys the watcher reads). *)
Record Lock := {
  lk_swap_id : string;
  lk_amount : float;
  lk_hashlock : string;
  lk_timelock : Z
}.

(** An HTLC of the daemon's [htlc_list]. *)
Record Htlc := {
  status : option string;
  preimage : option string;
  outpoint : option string
}.

(** What the watcher sends out, in order.  [ClaimUsdc] stands for a
    claim transaction handed to [send_raw_transaction], with the hash
    that came back, or [None] when that call raised. *)
Inductive action :=
| HtlcCreateKpiv (hashlock : string) (amount : float) (recipient : string)
                 (expiry_blocks : Z)
| NotifyTrade (kpiv_amount : float) (hashlock : string)
| ClaimUsdc (swap_id preimage : list byte) (tx_hash : option string).

(** How lines 403-415 of [claim_usdc] end for a swap id and a preimage:
    an exception before anything is sent (building or signing the
    transaction), an exception of [send_raw_transaction], or the hex
    form of the hash of the transaction sent. *)
Inductive claim_result :=
| ClaimNotSent
| ClaimSendFailed
| ClaimSent (tx_hash : string).

(** The world outside the process.
    - [taker_address]: the answer of [GET /api/taker_address] for a
      hashlock, [None] when not found or when the request fails;
    - [rpc_htlc_create_kpiv]: the [txid] of the daemon's answer, [None]
      when the call fails or the answer has no [txid];
    - [rpc_htlc_list]: the daemon's [htlc_list <hashlock>];
    - [account_from_key]: whether [Account.from_key] accepts the key
      ([false] when it raises);
    - [evm_claim]: lines 403-415 of [claim_usdc] (build, sign and send
      the claim);
    - [private_key]: the key the watcher was started with;
    - [time_time]: [time.time()]. *)
Record World := {
  taker_address : string -> option string;
  rpc_htlc_create_kpiv : string -> float -> string -> Z -> option string;
  rpc_htlc_list : string -> option (list Htlc);
  account_from_key : string -> bool;
  evm_claim : list byte -> list byte -> claim_result;
  private_key : string;
  time_time : float
}.

(** [s[2:] if s.startswith("0x") else s] *)
Definition strip_0x (s : string) : string :=
  if Py.startswith s "0x" then Py.drop_str 2 s else s.

Definition get_taker_kpiv_address (w : World) (hashlock : string)
    : option string :=
  taker_address w (strip_0x hashlock).

Definition create_kpiv_htlc (w : World) (amount : float)
    (hashlock taker_address : string) (expiry_blocks : Z)
    : option string * list action :=
  (rpc_htlc_create_kpiv w hashlock amount taker_address expiry_blocks,
   [HtlcCreateKpiv hashlock amount taker_address expiry_blocks]).

Definition get_htlc_by_hashlock (w : World) (hashlock : string)
    : option Htlc :=
  match rpc_htlc_list w hashlock with
  | Some (first :: rest) =>
      match List.find (fun h => bool_decide (status h = Some "claimed"))
                      (first :: rest) with
      | Some h => Some h
      | None => Some first
      end
  | _ => None
  end.

(** [EVMMonitor.claim_usdc]: every exception of the [try] body gives
    [None]. *)
Definition claim_usdc (w : World) (swap_id preimage : string)
    : option string * list action :=
  if negb (Py.truthy_str (private_key w)) then (None, [])
  else if negb (account_from_key w (private_key w)) then (None, [])
  else
    match Py.fromhex (strip_0x swap_id), Py.fromhex (strip_0x preimage) with
    | Some sid, Some pre =>
        match evm_claim w sid pre with
        | ClaimNotSent => (None, [])
        | ClaimSendFailed => (None, [ClaimUsdc sid pre None])
        | ClaimSent tx_hash => (Some tx_hash, [ClaimUsdc sid pre (Some tx_hash)])
        end
    | _, _ => (None, [])
    end.

(** The writes of [try_create_kpiv_htlc] to the swap object. *)
Definition set_created (swap : PendingSwap) (outpoint : string) : PendingSwap := {|
  hashlock := hashlock swap;
  polygon_swap_id := polygon_swap_id swap;
  usdc_amount := usdc_amount swap;
  kpiv_amount := kpiv_amount swap;
  polygon_timelock := polygon_timelock swap;
  kpiv_htlc_outpoint := outpoint;
  kpiv_htlc_created := true;
  preimage_revealed := preimage_revealed swap;
  usdc_claimed := usdc_claimed swap;
  created_at := created_at swap
|}.

(** The writes of [check_for_reveals] to the swap object. *)
Definition set_revealed (swap : PendingSwap) (p : string) (claimed : bool)
    : PendingSwap := {|
  hashlock := hashlock swap;
  polygon_swap_id := polygon_swap_id swap;
  usdc_amount := usdc_amount swap;
  kpiv_amount := kpiv_amount swap;
  polygon_timelock := polygon_timelock swap;
  kpiv_htlc_outpoint := kpiv_htlc_outpoint swap;
  kpiv_htlc_created := kpiv_htlc_created swap;
  preimage_revealed := p;
  usdc_claimed := claimed;
  created_at := created_at swap
|}.

Definition try_create_kpiv_htlc (w : World) (swap : PendingSwap)
    : PendingSwap * list action :=
  if kpiv_htlc_created swap then (swap, [])
  else
    let hashlock := hashlock swap in
    match get_taker_kpiv_address w hashlock with
    | None => (swap, [])
    | Some taker_kpiv_address =>
        if negb (Py.truthy_str taker_kpiv_address) then (swap, [])
        else
          let hashlock_hex := strip_0x hashlock in
          match create_kpiv_htlc w (kpiv_amount swap) hashlock_hex
                  taker_kpiv_address DEFAULT_EXPIRY_BLOCKS with
          | (Some txid, acts) =>
              (set_created swap (txid +:+ ":0"),
               (acts ++ [NotifyTrade (kpiv_amount swap) hashlock])%list)
          | (None, acts) => (swap, acts)
          end
    end.

(** *** [self.pending_swaps]

    A Python dict keeps its keys in insertion order and the watcher
    iterates over it, so it is an association list here: [dict_store]
    is [d[k] = v] (in place for a key already there, at the end for a
    new one). *)
Fixpoint dict_lookup (d : list (string * PendingSwap)) (k : string)
    : option PendingSwap :=
  match d with
  | [] => None
  | (k', v) :: r => if String.eqb k' k then Some v else dict_lookup r k
  end.

Definition dict_contains (d : list (string * PendingSwap)) (k : string) : bool :=
  match dict_lookup d k with Some _ => true | None => false end.

Fixpoint dict_store (d : list (string * PendingSwap)) (k : string)
    (v : PendingSwap) : list (string * PendingSwap) :=
  match d with
  | [] => [(k, v)]
  | (k', v') :: r =>
      if String.eqb k' k then (k', v) :: r else (k', v') :: dict_store r k v
  end.

(** The record that [process_new_lock] builds for a new lock (lines
    448-460): the KPIV amount at the LP's rate, the observed timelock,
    the other fields at their defaults. *)
Definition new_swap (w : World) (lock : Lock) : PendingSwap :=
  let usdc_amount := lk_amount lock in
  let kpiv_amount := (usdc_amount / LP_PRICE)%float in {|
  hashlock := lk_hashlock lock;
  polygon_swap_id := lk_swap_id lock;
  usdc_amount := usdc_amount;
  kpiv_amount := kpiv_amount;
  polygon_timelock := lk_timelock lock;
  kpiv_htlc_outpoint := "";
  kpiv_htlc_created := false;
  preimage_revealed := "";
  usdc_claimed := false;
  created_at := time_time w
|}.

(** [process_new_lock]: the swap object put in the dict is the one
    [try_create_kpiv_htlc] then writes to, so its writes land in the
    dict under the same key. *)
Definition process_new_lock (w : World)
    (pending_swaps : list (string * PendingSwap)) (lock : Lock)
    : list (string * PendingSwap) * list action :=
  let hashlock := lk_hashlock lock in
  if dict_contains pending_swaps hashlock then (pending_swaps, [])
  else
    let swap := new_swap w lock in
    let pending_swaps := dict_store pending_swaps hashlock swap in
    let '(swap, acts) := try_create_kpiv_htlc w swap in
    (dict_store pending_swaps hashlock swap, acts).

(** [check_pending_htlcs] *)
Fixpoint check_pending_htlcs (w : World)
    (pending_swaps : list (string * PendingSwap))
    : list (string * PendingSwap) * list action :=
  match pending_swaps with
  | [] => ([], [])
  | (hashlock, swap) :: rest =>
      let '(swap, acts) :=
        if negb (kpiv_htlc_created swap) then try_create_kpiv_htlc w swap
        else (swap, []) in
      let '(rest, acts') := check_pending_htlcs w rest in
      ((hashlock, swap) :: rest, (acts ++ acts')%list)
  end.

(** The body of the loop of [check_for_reveals] for one item. *)
Definition reveal (w : World) (hashlock : string) (swap : PendingSwap)
    : PendingSwap * list action :=
  if usdc_claimed swap then (swap, [])
  else if negb (kpiv_htlc_created swap) then (swap, [])
  else
    let hashlock_hex := strip_0x hashlock in
    match get_htlc_by_hashlock w hashlock_hex with
    | Some htlc =>
        if bool_decide (status htlc = Some "claimed") then
          match preimage htlc with
          | Some preimage =>
              if Py.truthy_str preimage then
                let '(tx_hash, acts) :=
                  claim_usdc w (polygon_swap_id swap) preimage in
                (set_revealed swap preimage
                   (if Py.truthy_opt tx_hash then true else usdc_claimed swap),
                 acts)
              else (swap, [])
          | None => (swap, [])
          end
        else (swap, [])
    | None => (swap, [])
    end.

(** [check_for_reveals] *)
Fixpoint check_for_reveals (w : World)
    (pending_swaps : list (string * PendingSwap))
    : list (string * PendingSwap) * list action :=
  match pending_swaps with
  | [] => ([], [])
  | (hashlock, swap) :: rest =>
      let '(swap, acts) := reveal w hashlock swap in
      let '(rest, acts') := check_for_reveals w rest in
      ((hashlock, swap) :: rest, (acts ++ acts')%list)
  end.

(** *** The auto-refund of expired KPIV HTLCs

    The daemon's answer to [htlc_refund_kpiv]: a dict, with its [txid]
    when it has one, a bare string, or nothing (a failed call). *)
Inductive refund_result :=
| RefundDict (txid : option string)
| RefundStr (s : string)
| RefundNone.

Inductive refund_action :=
| HtlcRefundKpiv (outpoint : string).

Definition refund_kpiv_htlc (rpc_htlc_refund_kpiv : string -> refund_result)
    (outpoint : string) : option string * list refund_action :=
  let result := rpc_htlc_refund_kpiv outpoint in
  (match result with
   | RefundDict (Some txid) => if Py.truthy_str txid then Some txid else None
   | RefundDict None => None
   | RefundStr s => Some s
   | RefundNone => None
   end,
   [HtlcRefundKpiv outpoint]).

Definition in_keys (k : string) (keys : list string) : bool :=
  existsb (String.eqb k) keys.

(** The body of the loop of [check_for_expired_htlcs] for one item.
    [kpiv_refunded] is no field of the dataclass: the loop sets it on
    the swap object once the refund went through, and [refunded] holds
    the keys of the swaps that carry it. *)
Definition expire (w : World) (rpc_htlc_refund_kpiv : string -> refund_result)
    (refunded : list string) (hashlock : string) (swap : PendingSwap)
    : list string * list refund_action :=
  if usdc_claimed swap then (refunded, [])
  else if negb (kpiv_htlc_created swap) then (refunded, [])
  else if in_keys hashlock refunded then (refunded, [])
  else
    let hashlock_hex := strip_0x hashlock in
    match get_htlc_by_hashlock w hashlock_hex with
    | Some htlc =>
        if bool_decide (status htlc = Some "expired") then
          let outpoint := default (kpiv_htlc_outpoint swap) (outpoint htlc) in
          if Py.truthy_str outpoint then
            let '(txid, acts) := refund_kpiv_htlc rpc_htlc_refund_kpiv outpoint in
            if Py.truthy_opt txid then ((refunded ++ [hashlock])%list, acts)
            else (refunded, acts)
          else (refunded, [])
        else (refunded, [])
    | None => (refunded, [])
    end.

(** [check_for_expired_htlcs] *)
Fixpoint check_for_expired_htlcs (w : World)
    (rpc_htlc_refund_kpiv : string -> refund_result)
    (pending_swaps : list (string * PendingSwap)) (refunded : list string)
    : list string * list refund_action :=
  match pending_swaps with
  | [] => (refunded, [])
  | (hashlock, swap) :: rest =>
      let '(refunded, acts) :=
        expire w rpc_htlc_refund_kpiv refunded hashlock swap in
      let '(refunded, acts') :=
        check_for_expired_htlcs w rpc_htlc_refund_kpiv rest refunded in
      (refunded, (acts ++ acts')%list)
  end.

End LpWatcher.

(* ===================================================================== *)
(** ** sdk/lot_sizes.py *)
(* ===================================================================== *)

Module LotSizes.

Definition STANDARD_SIZES : list Z := [10000; 1000; 100; 10; 1].

Definition SIZE_LABELS : list (Z * string) :=
  [(1, "Micro"); (10, "Small"); (100, "Medium"); (1000, "Large");
   (10000, "Whale")].

Definition DEFAULT_MAX_LOTS : Z := 20.

(** The amounts are [int] throughout, so the [isinstance] tests pass and
    the only exception left is the [ValueError]. *)
Inductive result (A : Type) : Type :=
| Ok (a : A)
| ValueError (msg : string).
Arguments Ok {A} a.
Arguments ValueError {A} msg.

(** [while remaining >= size: lots.append(size); remaining -= size],
    with a bound on the number of turns. *)
Fixpoint take_lots (fuel : nat) (size : Z) (lots : list Z) (remaining : Z)
  : list Z * Z :=
  match fuel with
  | O => (lots, remaining)
  | S k =>
      if remaining >=? size
      then take_lots k size (lots ++ [size])%list (remaining - size)
      else (lots, remaining)
  end.

(** [for size in STANDARD_SIZES: while ...]: each inner loop is given
    as many turns as there are units left, which no size below 1 is
    there to exceed. *)
Definition split_loop (amount : Z) : list Z * Z :=
  fold_left
    (fun st size => take_lots (Z.to_nat (snd st)) size (fst st) (snd st))
    STANDARD_SIZES ([], amount).

Definition split_amount (amount : Z) : result (list Z) :=
  if amount <=? 0
  then ValueError ("Amount must be positive, got " +:+ pretty amount)
  else
    let st := split_loop amount in
    if negb (snd st =? 0)
    then ValueError ("Cannot split " +:+ pretty amount +:+
                     " into standard sizes (remaining: " +:+
                     pretty (snd st) +:+ ")")
    else Ok (fst st).

(** One turn of the grouping loop over [(grouped, current_size,
    current_count)]; [current_size] starts as [None]. *)
Definition group_step (st : list (Z * Z) * option Z * Z) (lot : Z)
  : list (Z * Z) * option Z * Z :=
  let '(grouped, current_size, current_count) := st in
  match current_size with
  | Some c =>
      if lot =? c then (grouped, current_size, current_count + 1)
      else ((grouped ++ [(c, current_count)])%list, Some lot, 1)
  | None => (grouped, Some lot, 1)
  end.

Definition group_lots (lots : list Z) : list (Z * Z) :=
  let '(grouped, current_size, current_count) :=
    fold_left group_step lots ([], None, 0) in
  match current_size with
  | Some c => (grouped ++ [(c, current_count)])%list
  | None => grouped
  end.

Definition split_amount_grouped (amount : Z) : result (list (Z * Z)) :=
  match split_amount amount with
  | Ok lots => Ok (group_lots lots)
  | ValueError msg => ValueError msg
  end.

Definition len {A : Type} (l : list A) : Z := Z.of_nat (length l).

Definition count_lots (amount : Z) : result Z :=
  match split_amount amount with
  | Ok lots => Ok (len lots)
  | ValueError msg => ValueError msg
  end.

Definition is_standard_size (amount : Z) : bool :=
  existsb (Z.eqb amount) STANDARD_SIZES.

Definition get_size_label (size : Z) : string :=
  match find (fun kv => fst kv =? size) SIZE_LABELS with
  | Some kv => snd kv
  | None => pretty size +:+ " KPIV"
  end.

(** [range(a, b)] *)
Definition range (a b : Z) : list Z :=
  map (fun i => a + Z.of_nat i) (seq 0 (Z.to_nat (b - a))).

(** [list.sort(key=lambda x: (x[0], x[2]))]: the sort is stable and the
    keys are pairs of integers, compared lexicographically. *)
Definition key_le (x y : Z * Z * Z) : bool :=
  let '(d1, _, n1) := x in
  let '(d2, _, n2) := y in
  (d1 <? d2) || ((d1 =? d2) && (n1 <=? n2)).

Fixpoint insert_sorted (x : Z * Z * Z) (l : list (Z * Z * Z))
  : list (Z * Z * Z) :=
  match l with
  | [] => [x]
  | y :: r => if key_le x y then x :: l else y :: insert_sorted x r
  end.

Definition sort (l : list (Z * Z * Z)) : list (Z * Z * Z) :=
  fold_right insert_sorted [] l.

(** The candidates of [suggest_clean_amounts], in the order of the
    [for] loop: [(abs(delta), test, len(lots))]. *)
Definition candidate (amount max_lots delta : Z) : option (Z * Z * Z) :=
  let test := amount + delta in
  if test >? 0 then
    match split_amount test with
    | Ok lots =>
        if len lots <=? max_lots then Some (Z.abs delta, test, len lots)
        else None
    | ValueError _ => None
    end
  else None.

Definition suggest_clean_amounts (amount max_lots search_range : Z)
  : list Z :=
  let suggestions :=
    omap (candidate amount max_lots)
         (range (- search_range) (search_range + 1)) in
  map (fun s => snd (fst s)) (firstn 5 (sort suggestions)).

(** [str(list_of_int)] and [sep.join(parts)] *)
Fixpoint join (sep : string) (parts : list string) : string :=
  match parts with
  | [] => EmptyString
  | [p] => p
  | p :: r => p +:+ sep +:+ join sep r
  end.

Definition str_list (l : list Z) : string :=
  "[" +:+ join ", " (map pretty l) +:+ "]".

Definition split_amount_optimized (amount max_lots : Z)
  : result (list Z) :=
  match split_amount amount with
  | Ok lots =>
      if len lots >? max_lots then
        let suggestions := suggest_clean_amounts amount max_lots 20 in
        ValueError ("Amount " +:+ pretty amount +:+ " requires " +:+
                    pretty (len lots) +:+ " lots (max " +:+
                    pretty max_lots +:+ "). Consider: " +:+
                    str_list suggestions)
      else Ok lots
  | ValueError msg => ValueError msg
  end.

(** The multiplication sign of [format_split], code point 0xD7. *)
Definition times_sign : string := String (Py.chr 215) EmptyString.

Definition sum (l : list Z) : Z := fold_left Z.add l 0.

Definition format_split (amount : Z) : result string :=
  match split_amount_grouped amount with
  | Ok grouped =>
      let parts :=
        map (fun sc => pretty (snd sc) +:+ times_sign +:+ pretty (fst sc))
            grouped in
      let total_lots := sum (map snd grouped) in
      let lot_word := if total_lots =? 1 then "lot" else "lots" in
      Ok (join " + " parts +:+ " KPIV (" +:+ pretty total_lots +:+ " " +:+
          lot_word +:+ ")")
  | ValueError msg => ValueError msg
  end.

(** [validate_amount] returns [(is_valid, message)]; an exception of a
    callee would pass through it. *)
Definition validate_amount (amount max_lots : Z) : result (bool * string) :=
  if amount <=? 0 then Ok (false, "Amount must be positive")
  else
    match count_lots amount with
    | ValueError msg => ValueError msg
    | Ok lot_count =>
        if lot_count >? max_lots then
          let suggestions := suggest_clean_amounts amount max_lots 20 in
          Ok (false,
              "Requires " +:+ pretty lot_count +:+ " lots (max " +:+
              pretty max_lots +:+ "). Try: " +:+ str_list suggestions)
        else
          match format_split amount with
          | Ok s => Ok (true, "OK: " +:+ s)
          | ValueError msg => ValueError msg
          end
    end.

End LotSizes.

(* ===================================================================== *)
(** ** sdk/dex_types.py *)
(* ===================================================================== *)

Module DexTypes.

Inductive exn :=
| KeyError (key : string)
| ValueError (value : string).

Inductive result (A : Type) : Type :=
| Ok (a : A)
| Raise (e : exn).
Arguments Ok {A} a.
Arguments Raise {A} e.

Inductive LotSide := ASK | BID.

Inductive LotStatus := OPEN | TAKEN | FILLED | CANCELLED | EXPIRED.

(** [side.value] and [LotSide(value)] *)
Definition side_value (s : LotSide) : string :=
  match s with ASK => "ask" | BID => "bid" end.

Definition side_of_value (v : string) : result LotSide :=
  if String.eqb v "ask" then Ok ASK
  else if String.eqb v "bid" then Ok BID
  else Raise (ValueError v).

Definition status_value (s : LotStatus) : string :=
  match s with
  | OPEN => "open"
  | TAKEN => "taken"
  | FILLED => "filled"
  | CANCELLED => "cancelled"
  | EXPIRED => "expired"
  end.

Definition status_of_value (v : string) : result LotStatus :=
  if String.eqb v "open" then Ok OPEN
  else if String.eqb v "taken" then Ok TAKEN
  else if String.eqb v "filled" then Ok FILLED
  else if String.eqb v "cancelled" then Ok CANCELLED
  else if String.eqb v "expired" then Ok EXPIRED
  else Raise (ValueError v).

(** The dataclass [LOT]; the fields hold the types that the dataclass
    declares. *)
Record LOT := {
  pair : string;
  side : LotSide;
  price : float;
  size : float;
  payment_chain : string;
  payment_addr : string;
  lp_kpiv_addr : string;
  expiry_ts : Z;
  created_ts : Z;
  lp_pubkey : string;
  signature : string;
  status : LotStatus;
  remaining : float;
  lot_id : string
}.

Definition with_remaining (lot : LOT) (r : float) : LOT := {|
  pair := pair lot; side := side lot; price := price lot; size := size lot;
  payment_chain := payment_chain lot; payment_addr := payment_addr lot;
  lp_kpiv_addr := lp_kpiv_addr lot; expiry_ts := expiry_ts lot;
  created_ts := created_ts lot; lp_pubkey := lp_pubkey lot;
  signature := signature lot; status := status lot;
  remaining := r; lot_id := lot_id lot
|}.

Definition with_lot_id (lot : LOT) (i : string) : LOT := {|
  pair := pair lot; side := side lot; price := price lot; size := size lot;
  payment_chain := payment_chain lot; payment_addr := payment_addr lot;
  lp_kpiv_addr := lp_kpiv_addr lot; expiry_ts := expiry_ts lot;
  created_ts := created_ts lot; lp_pubkey := lp_pubkey lot;
  signature := signature lot; status := status lot;
  remaining := remaining lot; lot_id := i
|}.

Definition with_status (lot : LOT) (s : LotStatus) : LOT := {|
  pair := pair lot; side := side lot; price := price lot; size := size lot;
  payment_chain := payment_chain lot; payment_addr := payment_addr lot;
  lp_kpiv_addr := lp_kpiv_addr lot; expiry_ts := expiry_ts lot;
  created_ts := created_ts lot; lp_pubkey := lp_pubkey lot;
  signature := signature lot; status := s;
  remaining := remaining lot; lot_id := lot_id lot
|}.

(** [s.encode()]: UTF-8, for code points below 256. *)
Fixpoint encode (s : string) : list byte :=
  match s with
  | EmptyString => []
  | String c r =>
      let n := Py.ord c in
      if n <? 128 then Py.byte_of_Z n :: encode r
      else Py.byte_of_Z (192 + n / 64) :: Py.byte_of_Z (128 + n mod 64)
             :: encode r
  end.

Section Lot.

(** [str] of a [float], as the f-strings format it. *)
Variable str_float : float -> string.

Definition compute_lot_id (lot : LOT) : string :=
  let data :=
    pair lot +:+ ":" +:+ side_value (side lot) +:+ ":" +:+
    str_float (price lot) +:+ ":" +:+ str_float (size lot) +:+ ":" +:+
    payment_chain lot +:+ ":" +:+ payment_addr lot +:+ ":" +:+
    lp_kpiv_addr lot +:+ ":" +:+ pretty (created_ts lot) in
  Py.take_str 16 (Hashlib.sha256_hexdigest (encode data)).

(** [__post_init__], run at the end of every construction. *)
Definition post_init (lot : LOT) : LOT :=
  let lot :=
    if (remaining lot =? 0)%float then with_remaining lot (size lot)
    else lot in
  if negb (Py.truthy_str (lot_id lot))
  then with_lot_id lot (compute_lot_id lot)
  else lot.

Definition signing_message (lot : LOT) : string :=
  "LOT:" +:+ pair lot +:+ ":" +:+ side_value (side lot) +:+ ":" +:+
  str_float (price lot) +:+ ":" +:+ str_float (size lot) +:+ ":" +:+
  payment_chain lot +:+ ":" +:+ payment_addr lot +:+ ":" +:+
  lp_kpiv_addr lot +:+ ":" +:+ pretty (expiry_ts lot) +:+ ":" +:+
  pretty (created_ts lot).

(** The dict of [to_dict] and [from_dict], key by key; a missing key is
    [None], and a value has the type that [to_dict] writes there. *)
Record LotData := {
  d_lot_id : option string;
  d_pair : option string;
  d_side : option string;
  d_price : option float;
  d_size : option float;
  d_remaining : option float;
  d_payment_chain : option string;
  d_payment_addr : option string;
  d_lp_kpiv_addr : option string;
  d_expiry_ts : option Z;
  d_created_ts : option Z;
  d_lp_pubkey : option string;
  d_signature : option string;
  d_status : option string
}.

Definition to_dict (lot : LOT) : LotData := {|
  d_lot_id := Some (lot_id lot);
  d_pair := Some (pair lot);
  d_side := Some (side_value (side lot));
  d_price := Some (price lot);
  d_size := Some (size lot);
  d_remaining := Some (remaining lot);
  d_payment_chain := Some (payment_chain lot);
  d_payment_addr := Some (payment_addr lot);
  d_lp_kpiv_addr := Some (lp_kpiv_addr lot);
  d_expiry_ts := Some (expiry_ts lot);
  d_created_ts := Some (created_ts lot);
  d_lp_pubkey := Some (lp_pubkey lot);
  d_signature := Some (signature lot);
  d_status := Some (status_value (status lot))
|}.

(** [data[key]] *)
Definition item {A : Type} (key : string) (v : option A) : result A :=
  match v with Some a => Ok a | None => Raise (KeyError key) end.

Definition bind {A B : Type} (r : result A) (f : A -> result B) : result B :=
  match r with Ok a => f a | Raise e => Raise e end.

(** [from_dict]: the arguments of the constructor are evaluated in the
    order written, then [__post_init__] runs; [now] is
    [int(time.time())]. *)
Definition from_dict (now : Z) (data : LotData) : result LOT :=
  bind (item "pair" (d_pair data)) (fun pair =>
  bind (bind (item "side" (d_side data)) side_of_value) (fun side =>
  bind (item "price" (d_price data)) (fun price =>
  bind (item "size" (d_size data)) (fun size =>
  bind (item "payment_chain" (d_payment_chain data)) (fun payment_chain =>
  bind (item "payment_addr" (d_payment_addr data)) (fun payment_addr =>
  bind (item "lp_kpiv_addr" (d_lp_kpiv_addr data)) (fun lp_kpiv_addr =>
  bind (status_of_value (default "open" (d_status data))) (fun status =>
  Ok (post_init {|
    pair := pair; side := side; price := price; size := size;
    payment_chain := payment_chain; payment_addr := payment_addr;
    lp_kpiv_addr := lp_kpiv_addr;
    expiry_ts := default 0 (d_expiry_ts data);
    created_ts := default now (d_created_ts data);
    lp_pubkey := default "" (d_lp_pubkey data);
    signature := default "" (d_signature data);
    status := status;
    remaining := default size (d_remaining data);
    lot_id := default "" (d_lot_id data)
  |}))))))))).

End Lot.

(** [is_expired]: [now] is [int(time.time())], read only for a LOT that
    has an expiry. *)
Definition is_expired (lot : LOT) (now : Z) : bool :=
  if expiry_ts lot =? 0 then false else now >? expiry_ts lot.

End DexTypes.

(* ===================================================================== *)
(** ** sdk/lot_manager.py *)
(* ===================================================================== *)

Module LotManager.

(** [self.lots]: a dict from LOT id to LOT, in insertion order. *)
Definition Lots : Type := list (string * DexTypes.LOT).

Fixpoint get_lot (lots : Lots) (lot_id : string) : option DexTypes.LOT :=
  match lots with
  | [] => None
  | (k, lot) :: rest => if String.eqb k lot_id then Some lot else get_lot rest lot_id
  end.

(** A write to the object stored under [lot_id]. *)
Fixpoint update (lots : Lots) (lot_id : string)
    (f : DexTypes.LOT -> DexTypes.LOT) : Lots :=
  match lots with
  | [] => []
  | (k, lot) :: rest =>
      if String.eqb k lot_id then (k, f lot) :: rest
      else (k, lot) :: update rest lot_id f
  end.

(** [_save_lots]: the list written to the storage file. *)
Definition save_lots (lots : Lots) : list DexTypes.LotData :=
  map (fun kl => DexTypes.to_dict (snd kl)) lots.

(** The methods return the new [self.lots], their result, and the list
    written by [_save_lots] when they call it. *)
Definition cancel_lot (lots : Lots) (lot_id : string)
    : Lots * bool * option (list DexTypes.LotData) :=
  match get_lot lots lot_id with
  | None => (lots, false, None)
  | Some _ =>
      let lots :=
        update lots lot_id (fun lot => DexTypes.with_status lot DexTypes.CANCELLED) in
      (lots, true, Some (save_lots lots))
  end.

Definition update_lot_status (lots : Lots) (lot_id : string)
    (status : DexTypes.LotStatus) (remaining : option float)
    : Lots * bool * option (list DexTypes.LotData) :=
  match get_lot lots lot_id with
  | None => (lots, false, None)
  | Some _ =>
      let lots := update lots lot_id (fun lot => DexTypes.with_status lot status) in
      let lots :=
        match remaining with
        | Some r => update lots lot_id (fun lot => DexTypes.with_remaining lot r)
        | None => lots
        end in
      (lots, true, Some (save_lots lots))
  end.

Definition is_open (lot : DexTypes.LOT) : bool :=
  match DexTypes.status lot with DexTypes.OPEN => true | _ => false end.

(** The loop of [cleanup_expired] from the [i]-th LOT on; [time_at i]
    is the clock that [is_expired] reads for the [i]-th LOT. *)
Fixpoint cleanup_from (time_at : nat -> Z) (i : nat) (lots : Lots) : Lots * Z :=
  match lots with
  | [] => ([], 0)
  | (k, lot) :: rest =>
      let '(rest, count) := cleanup_from time_at (S i) rest in
      if is_open lot && DexTypes.is_expired lot (time_at i)
      then ((k, DexTypes.with_status lot DexTypes.EXPIRED) :: rest, count + 1)
      else ((k, lot) :: rest, count)
  end.

Definition cleanup_expired (time_at : nat -> Z) (lots : Lots)
    : Lots * Z * option (list DexTypes.LotData) :=
  let '(lots, count) := cleanup_from time_at 0 lots in
  (lots, count, if count >? 0 then Some (save_lots lots) else None).

End LotManager.

(* ===================================================================== *)
(** * Definitions for the statements *)
(* ===================================================================== *)

(** ** The scriptSig, item by item

    A second reading of the parser of [lp_bot.py], by items: where the
    item that starts at [pos] ends, and whether it is a push the parser
    accepts.  Lemma [scan_first_accepted] ties it to the loop of the
    source. *)

(** The offset after the item at [pos]; [None] when the item is a
    PUSHDATA1 whose length byte is missing. *)
Definition next_item (data : list byte) (pos : nat) (op : byte) : option nat :=
  let n := LpBot.byte_nat op in
  if (n <=? 75)%nat then Some (S pos + n)%nat
  else if (n =? 76)%nat then
    match nth_error data (S pos) with
    | None => None
    | Some l => Some (S pos + (1 + LpBot.byte_nat l))%nat
    end
  else if (n =? 77)%nat then
    Some (S pos + (2 + Z.to_nat (Py.int_from_bytes_little (Py.slice data (S pos) 2))))%nat
  else Some (S pos).

(** The item at [pos] is a direct push of 32 bytes (opcode 0x20) that
    passes the test of line 360. *)
Definition accepted (data : list byte) (pos : nat) (op : byte) : option string :=
  if (LpBot.byte_nat op =? 32)%nat
  then let p := Py.hex (Py.slice data (S pos) 32) in
       if LpBot.likely_preimage p then Some p else None
  else None.

Fixpoint first_accepted (fuel : nat) (data : list byte) (pos : nat) : option string :=
  match fuel with
  | O => None
  | S fuel' =>
      match nth_error data pos with
      | None => None
      | Some op =>
          match accepted data pos op with
          | Some p => Some p
          | None =>
              match next_item data pos op with
              | Some pos' => first_accepted fuel' data pos'
              | None => None
              end
          end
      end
  end.

(** ** The choices of derive_states *)

(** The state and action that the LP chain of [derive_states] writes, or
    [None] when no test of the chain holds (the fields are then left
    as they were).  Lemma [derive_lp_choice] ties it to the source. *)
Definition lp_choice (state : SwapWatcher.SwapState) : option (string * string) :=
  if String.eqb (SwapWatcher.piv_lot_status state) "expired"
  then Some ("expired", "Refund your KPIV")
  else if SwapWatcher.evm_claimed state
  then Some ("claimed", "Done! USDC claimed")
  else if SwapWatcher.evm_locked state && Py.truthy_opt (SwapWatcher.secret state)
  then Some ("taken", "Claim USDC now!")
  else if SwapWatcher.evm_locked state
  then Some ("taken", "Taker locked funds - claim when ready")
  else if Py.truthy_opt (SwapWatcher.piv_lot_outpoint state)
  then Some ("inventory", "Waiting for taker")
  else None.

(** The same for the taker chain (lemma [derive_taker_choice]). *)
Definition taker_choice (state : SwapWatcher.SwapState) : option (string * string) :=
  if String.eqb (SwapWatcher.piv_lot_status state) "claimed"
  then Some ("completed", "Done! KPIV received")
  else if SwapWatcher.secret_revealed state && SwapWatcher.evm_locked state
  then Some ("claimable", "Claim KPIV now!")
  else if SwapWatcher.evm_locked state && (SwapWatcher.evm_time_left state <=? 0)
  then Some ("refundable", "Timeout - refund your USDC")
  else if SwapWatcher.evm_locked state
  then Some ("locked",
             "Waiting for LP (" +:+ pretty (SwapWatcher.evm_time_left state / 3600)
               +:+ "h left)")
  else if Py.truthy_opt (SwapWatcher.piv_lot_outpoint state)
  then Some ("browse", "Lock USDC to start swap")
  else None.

(** ** Reading results and keys *)

(** A call returned [True] (it neither returned [False] nor raised). *)
Definition returns_true (o : HtlcWrapper.outcome bool) : bool :=
  match o with
  | HtlcWrapper.Return true => true
  | _ => false
  end.

(** The key under which [register_taker] stores a hashlock and
    [taker_address] looks it up: lower case, without a leading [0x]. *)
Definition normalized (hashlock : string) : string :=
  if Py.startswith (Py.lower hashlock) "0x"
  then Py.drop_str 2 (Py.lower hashlock)
  else Py.lower hashlock.


(** ** The timelock policy on an observed lock *)


(** ** Sample inputs *)

(** The secret [S = 0x00..01] of the specification's scenarios, its
    hashlock, and a 32-byte string that is not its preimage. *)
Definition sample_secret : string := Py.repeat_str "0"%char 63 +:+ "1".
Definition sample_hashlock : string :=
  "ec4916dd28fc4c10d78e287ca5d9cc51ee1ae73cbfde08c6b37324cbfaac8bc5".
Definition sample_wrong_preimage : string := Py.repeat_str "1"%char 64.

(** A daemon that knows one HTLC, with the given status and expiry
    height, at the given block height. *)
Definition sample_rpc (status : string) (expiry_height height : Z)
    : HtlcWrapper.Rpc := {|
  HtlcWrapper.htlc_get := fun _ =>
    HtlcWrapper.Answer
      (Some (<["expiry_height" := HtlcWrapper.PyInt expiry_height]>
               ({["status" := HtlcWrapper.PyStr status]} : gmap string HtlcWrapper.pyval)));
  HtlcWrapper.getblockcount := HtlcWrapper.Return height
|}.

(** The two chains as the swap watcher sees them while both HTLCs are
    locked: a LOT with the given status, a quote lock with the given
    timelock, no [Claimed] event, the clock at [now]. *)
Definition sample_chains (lot_status : string) (timelock now : Z)
    : SwapWatcher.Chains := {|
  SwapWatcher.get_lot_by_hashlock := fun _ =>
    Some {| SwapWatcher.lot_outpoint :=
              Some "a4258e7443af672f913aa26a1c0d5f5a153633ad1fc664750f12d7d7e9992777:0";
            SwapWatcher.lot_amount := Some 100%float;
            SwapWatcher.lot_status := Some lot_status;
            SwapWatcher.lot_blocks_until_expiry := Some 115;
            SwapWatcher.lot_preimage := None |};
  SwapWatcher.get_lot_secret := fun _ => None;
  SwapWatcher.get_htlc_by_hashlock := fun _ _ =>
    Some {| SwapWatcher.h_swap_id := "0x01";
            SwapWatcher.h_amount := 5%float;
            SwapWatcher.h_timelock := timelock |};
  SwapWatcher.check_htlc_claimed := fun _ => None;
  SwapWatcher.time_now := now
|}.

Definition sample_lp_address : string := "0xA1b41Fb9D8d82bDcA0bA5D7115D4C04be64171B6".

(** The raw state that [compute_swap_state] hands to [derive_states] on
    [sample_chains "locked" 1700014400 1700000000]. *)
Definition sample_both_locked : SwapWatcher.SwapState := {|
  SwapWatcher.swap_id := "0x01";
  SwapWatcher.hashlock := sample_hashlock;
  SwapWatcher.piv_lot_outpoint :=
    Some "a4258e7443af672f913aa26a1c0d5f5a153633ad1fc664750f12d7d7e9992777:0";
  SwapWatcher.piv_amount := 100%float;
  SwapWatcher.piv_lot_status := "locked";
  SwapWatcher.piv_expiry_blocks := 115;
  SwapWatcher.evm_locked := true;
  SwapWatcher.evm_amount := 5%float;
  SwapWatcher.evm_claimed := false;
  SwapWatcher.evm_refunded := false;
  SwapWatcher.evm_timelock := 1700014400;
  SwapWatcher.evm_time_left := 14400;
  SwapWatcher.taker_state := "browse";
  SwapWatcher.taker_action := "Select a LOT";
  SwapWatcher.lp_state := "inventory";
  SwapWatcher.lp_action := "Wait for taker";
  SwapWatcher.secret_revealed := false;
  SwapWatcher.secret := None
|}.

(** The world of the LP watcher in the samples: the taker of
    [sample_hashlock] is registered, the daemon creates the HTLC it is
    asked for and later reports it claimed with [sample_wrong_preimage],
    a key is configured and the EVM node takes the claim. *)
Definition sample_taker : string := "yH4tZ75tFHFe6EJ5fYH3ntePMpLq1MCrv8".
Definition sample_txid : string :=
  "1e104f70f236cdfd115bc0be001f51bdeeed81d566158402f810ea086ccd7efa".
Definition sample_swap_id : string := "0x" +:+ Py.repeat_str "a"%char 64.

Definition sample_world : LpWatcher.World := {|
  LpWatcher.taker_address := fun h =>
    if String.eqb h sample_hashlock then Some sample_taker else None;
  LpWatcher.rpc_htlc_create_kpiv := fun _ _ _ _ => Some sample_txid;
  LpWatcher.rpc_htlc_list := fun _ =>
    Some [ {| LpWatcher.status := Some "claimed";
              LpWatcher.preimage := Some sample_wrong_preimage;
              LpWatcher.outpoint := Some (sample_txid +:+ ":0") |} ];
  LpWatcher.account_from_key := fun _ => true;
  LpWatcher.evm_claim := fun _ _ =>
    LpWatcher.ClaimSent "0x5d41402abc4b2a76b9719d911017c592";
  LpWatcher.private_key := "0x4c0883a69102937d6231471b5dbb6204fe512961708279f1d7b1b8e6a1c0ffee";
  LpWatcher.time_time := 1700000000%float
|}.

(** A lock of 5 USDC on [sample_hashlock] with the given timelock. *)
Definition sample_lock (timelock : Z) : LpWatcher.Lock := {|
  LpWatcher.lk_swap_id := sample_swap_id;
  LpWatcher.lk_amount := 5%float;
  LpWatcher.lk_hashlock := "0x" +:+ sample_hashlock;
  LpWatcher.lk_timelock := timelock
|}.

(** The pending swap that [process_new_lock] builds from [sample_lock],
    before any KPIV HTLC exists. *)
Definition sample_swap (timelock : Z) : LpWatcher.PendingSwap :=
  LpWatcher.new_swap sample_world (sample_lock timelock).

(** ** The greedy split, digit by digit *)

(** The lots that the greedy loop of [split_amount] appends, size by
    size. *)
Definition greedy (amount : Z) : list Z :=
  (repeat 10000 (Z.to_nat (amount / 10000)) ++
   repeat 1000 (Z.to_nat (amount mod 10000 / 1000)) ++
   repeat 100 (Z.to_nat (amount mod 1000 / 100)) ++
   repeat 10 (Z.to_nat (amount mod 100 / 10)) ++
   repeat 1 (Z.to_nat (amount mod 10)))%list.

(** How many lots of each standard size an amount takes: its last four
    decimal digits, and what stands before them. *)
Definition lot_digits (amount : Z) : list (Z * Z) :=
  [(10000, amount / 10000); (1000, amount / 1000 mod 10);
   (100, amount / 100 mod 10); (10, amount / 10 mod 10);
   (1, amount mod 10)].

Definition digit_sum (amount : Z) : Z := LotSizes.sum (map snd (lot_digits amount)).

Definition used (sc : Z * Z) : bool := negb (snd sc =? 0).

Fixpoint non_increasing (l : list Z) : bool :=
  match l with
  | x :: r =>
      match r with
      | y :: _ => (y <=? x) && non_increasing r
      | [] => true
      end
  | [] => true
  end.

Fixpoint non_decreasing (l : list Z) : bool :=
  match l with
  | x :: r =>
      match r with
      | y :: _ => (x <=? y) && non_decreasing r
      | [] => true
      end
  | [] => true
  end.

Fixpoint sorted_keys (l : list (Z * Z * Z)) : bool :=
  match l with
  | x :: r =>
      match r with
      | y :: _ => LotSizes.key_le x y && sorted_keys r
      | [] => true
      end
  | [] => true
  end.

(** A recorded candidate: [(abs(delta), amount + delta, lots)] for a
    [delta] of the search range whose amount is positive and splits
    into no more than [max_lots] lots. *)
Definition recorded (amount max_lots search_range : Z) (e : Z * Z * Z) : Prop :=
  exists delta,
    - search_range <= delta <= search_range /\
    e = (Z.abs delta, amount + delta, digit_sum (amount + delta)) /\
    0 < amount + delta /\ digit_sum (amount + delta) <= max_lots.

(** ** Hex strings *)

(** No character of the string is an [x]. *)
Fixpoint no_x (s : string) : bool :=
  match s with
  | EmptyString => true
  | String c r => negb (Ascii.eqb c "x") && no_x r
  end.

(** ** The LP bot's trace *)

Definition is_claim_tx (a : LpBot.action) : bool :=
  match a with LpBot.ClaimTx _ _ => true | LpBot.SaveState _ => false end.

(** A contract that holds every swap open and confirms every claim. *)
Definition sample_chain : LpBot.Chain := {|
  LpBot.get_swap := fun _ => Some {| LpBot.claimed := false; LpBot.refunded := false |};
  LpBot.send_claim := fun _ _ => Some (1, "0x" +:+ Py.repeat_str "c"%char 64)
|}.

(** The 32 bytes 00 01 ... 1f. *)
Definition sample_bytes32 : list byte :=
  map (fun i => Py.byte_of_Z (Z.of_nat i)) (seq 0 32).

(** A claimed HTLC of the daemon's list, with its preimage. *)
Definition sample_lot : LpBot.Lot := {|
  LpBot.status := Some "claimed";
  LpBot.preimage := Some sample_secret;
  LpBot.hashlock := Some sample_hashlock
|}.

(** The loop of [run_once], from any state. *)
Definition run_items (claimer : option LpBot.Chain)
    (revealed : list (string * string)) (st : list string * list LpBot.action)
    : list string * list LpBot.action :=
  fold_left
    (fun st item =>
       let '(claimed_swaps, _, acts) :=
         LpBot.process_revealed_preimage claimer (fst st) (fst item) (snd item) in
       (claimed_swaps, (snd st ++ acts)%list))
    revealed st.


Definition not_claim_tx (a : LpBot.action) : bool := negb (is_claim_tx a).

(** ** Requests to the SDK server *)

Definition register_request (hashlock taker lot_id : string)
    : Server.RegisterRequest := {|
  Server.rq_hashlock := Some hashlock;
  Server.rq_taker_kpiv_addr := Some taker;
  Server.rq_lot_id := Some lot_id
|}.

(** An update that carries only the Polygon swap id. *)
Definition swap_id_update (hashlock swap_id : string) : Server.UpdateRequest := {|
  Server.uq_hashlock := Some hashlock;
  Server.uq_swap_id := Some swap_id;
  Server.uq_taker_kpiv_addr := None;
  Server.uq_lot_id := None;
  Server.uq_registered_at := None;
  Server.uq_kpiv_sent := None
|}.

(** An update that carries only [kpiv_sent]. *)
Definition kpiv_sent_update (hashlock : string) (sent : bool)
    : Server.UpdateRequest := {|
  Server.uq_hashlock := Some hashlock;
  Server.uq_swap_id := None;
  Server.uq_taker_kpiv_addr := None;
  Server.uq_lot_id := None;
  Server.uq_registered_at := None;
  Server.uq_kpiv_sent := Some sent
|}.

(** A contract that holds one open swap with the given timelock, under
    every key. *)
Definition open_swap (timelock : Z) (_ : string) : option Server.HtlcSwap :=
  Some {| Server.hs_timelock := timelock;
          Server.hs_withdrawn := false;
          Server.hs_refunded := false |}.

(** ** The swap watcher's observations *)

(** Steps 1 to 3 of [compute_swap_state]: the raw fields as read from
    the two chains, before [derive_states] (lemma
    [compute_swap_state_observed]). *)
Definition observed_state (w : SwapWatcher.Chains) (hashlock : string)
    (lp_address : option string) : SwapWatcher.SwapState :=
  let state := SwapWatcher.new_state "" hashlock in
  let state :=
    match SwapWatcher.get_lot_by_hashlock w hashlock with
    | Some lot => SwapWatcher.with_lot state lot
    | None => state
    end in
  let saved_secret := SwapWatcher.get_lot_secret w hashlock in
  let state :=
    if Py.truthy_opt saved_secret
    then SwapWatcher.set_secret state (SwapWatcher.secret_revealed state) saved_secret
    else state in
  match lp_address with
  | Some lp =>
      if Py.truthy_str lp then
        match SwapWatcher.get_htlc_by_hashlock w hashlock lp with
        | Some htlc =>
            SwapWatcher.with_htlc state htlc (SwapWatcher.time_now w)
              (SwapWatcher.check_htlc_claimed w (SwapWatcher.h_swap_id htlc))
        | None => state
        end
      else state
  | None => state
  end.

Definition one_of (l : list string) (s : string) : bool :=
  existsb (String.eqb s) l.

(** The two chains after the LP has claimed the quote HTLC, past its
    timelock: the LOT still locked, the [Claimed] event found. *)
Definition sample_chains_claimed : SwapWatcher.Chains := {|
  SwapWatcher.get_lot_by_hashlock :=
    SwapWatcher.get_lot_by_hashlock (sample_chains "locked" 1700014400 1700020000);
  SwapWatcher.get_lot_secret := fun _ => None;
  SwapWatcher.get_htlc_by_hashlock :=
    SwapWatcher.get_htlc_by_hashlock (sample_chains "locked" 1700014400 1700020000);
  SwapWatcher.check_htlc_claimed := fun _ => Some sample_secret;
  SwapWatcher.time_now := 1700020000
|}.

(** ** The LP watcher's bookkeeping *)

(** What a pass of the watcher may change in a pending swap: the fields
    taken from the lock stay, and the two flags only go up, each with
    the field written beside it. *)
Definition evolves (s s' : LpWatcher.PendingSwap) : Prop :=
  LpWatcher.hashlock s' = LpWatcher.hashlock s /\
  LpWatcher.polygon_swap_id s' = LpWatcher.polygon_swap_id s /\
  LpWatcher.usdc_amount s' = LpWatcher.usdc_amount s /\
  LpWatcher.kpiv_amount s' = LpWatcher.kpiv_amount s /\
  LpWatcher.polygon_timelock s' = LpWatcher.polygon_timelock s /\
  LpWatcher.created_at s' = LpWatcher.created_at s /\
  (LpWatcher.kpiv_htlc_created s = true ->
   LpWatcher.kpiv_htlc_created s' = true /\
   LpWatcher.kpiv_htlc_outpoint s' = LpWatcher.kpiv_htlc_outpoint s) /\
  (LpWatcher.usdc_claimed s = true ->
   LpWatcher.usdc_claimed s' = true /\
   LpWatcher.preimage_revealed s' = LpWatcher.preimage_revealed s).

Definition same_key_evolves (ks ks' : string * LpWatcher.PendingSwap) : Prop :=
  fst ks' = fst ks /\ evolves (snd ks) (snd ks').

Definition count {A : Type} (f : A -> bool) (l : list A) : nat :=
  length (List.filter f l).

Definition without_htlc (ks : string * LpWatcher.PendingSwap) : bool :=
  negb (LpWatcher.kpiv_htlc_created (snd ks)).

Definition unclaimed (ks : string * LpWatcher.PendingSwap) : bool :=
  negb (LpWatcher.usdc_claimed (snd ks)).

Definition is_create (a : LpWatcher.action) : bool :=
  match a with LpWatcher.HtlcCreateKpiv _ _ _ _ => true | _ => false end.

Definition is_notify (a : LpWatcher.action) : bool :=
  match a with LpWatcher.NotifyTrade _ _ => true | _ => false end.

Definition is_claim (a : LpWatcher.action) : bool :=
  match a with LpWatcher.ClaimUsdc _ _ _ => true | _ => false end.

(** A claim that came back with a transaction hash. *)
Definition claim_ok (a : LpWatcher.action) : bool :=
  match a with
  | LpWatcher.ClaimUsdc _ _ tx_hash => Py.truthy_opt tx_hash
  | _ => false
  end.

(** A swap that the auto-refund still looks at: its KPIV HTLC exists,
    its USDC is not claimed, and it does not carry [kpiv_refunded]. *)
Definition refundable (refunded : list string)
    (ks : string * LpWatcher.PendingSwap) : bool :=
  negb (LpWatcher.usdc_claimed (snd ks))
  && LpWatcher.kpiv_htlc_created (snd ks)
  && negb (LpWatcher.in_keys (fst ks) refunded).

Definition claimed_htlc (h : LpWatcher.Htlc) : bool :=
  bool_decide (LpWatcher.status h = Some "claimed").

(** ** LOTs *)

(** An ask of 1000 KPIV that has been filled: nothing remains. *)
#[warnings="-inexact-float"]
Definition sample_filled_lot : DexTypes.LOT := {|
  DexTypes.pair := "KPIV/USDC";
  DexTypes.side := DexTypes.ASK;
  DexTypes.price := 0.05%float;
  DexTypes.size := 1000%float;
  DexTypes.payment_chain := "polygon";
  DexTypes.payment_addr := sample_lp_address;
  DexTypes.lp_kpiv_addr := sample_taker;
  DexTypes.expiry_ts := 1700086400;
  DexTypes.created_ts := 1700000000;
  DexTypes.lp_pubkey := "";
  DexTypes.signature := "";
  DexTypes.status := DexTypes.FILLED;
  DexTypes.remaining := 0%float;
  DexTypes.lot_id := "0123456789abcdef"
|}.

(** What a pass of [cleanup_expired] may do to a LOT. *)
Definition cleaned (kl kl' : string * DexTypes.LOT) : Prop :=
  fst kl' = fst kl /\
  (snd kl' = snd kl \/
   (LotManager.is_open (snd kl) = true /\
    DexTypes.expiry_ts (snd kl) <> 0 /\
    snd kl' = DexTypes.with_status (snd kl) DexTypes.EXPIRED)).

Definition open_lot (kl : string * DexTypes.LOT) : bool :=
  LotManager.is_open (snd kl).

(** ** The LP watcher's claim *)

(** Whether a claim was handed to [send_raw_transaction], and with what
    hash it came back. *)
Definition handed_over (r : LpWatcher.claim_result) : option (option string) :=
  match r with
  | LpWatcher.ClaimNotSent => None
  | LpWatcher.ClaimSendFailed => Some None
  | LpWatcher.ClaimSent tx_hash => Some (Some tx_hash)
  end.

(* ===================================================================== *)
(** * Properties *)
(* ===================================================================== *)

(** ** hashlib.sha256: known answers

    The empty message, "abc", and the 56-byte message of FIPS 180-4 that
    needs two blocks. *)
Example sha256_empty :
  Hashlib.sha256_hexdigest [] =
  "e3b0c44298fc1c149afbf4c8996fb92427ae41e4649b934ca495991b7852b855".
Proof. vm_compute. reflexivity. Qed.

Example sha256_abc :
  Hashlib.sha256_hexdigest [x61; x62; x63] =
  "ba7816bf8f01cfea414140de5dae2223b00361a396177a9cb410ff61f20015ad".
Proof. vm_compute. reflexivity. Qed.

Example sha256_two_blocks :
  Hashlib.sha256_hexdigest
    (list_byte_of_string "abcdbcdecdefdefgefghfghighijhijkijkljklmklmnlmnomnopnopq") =
  "248d6a61d20638b8e5c026930c3e6039a33ce45964ff2167f6ecedd419db06c1".
Proof. vm_compute. reflexivity. Qed.

(** ** Strings and bytes *)

Lemma lower_hex_pair (b : byte) :
  Py.lower_char (Py.hex_char (Py.byte_val b / 16)) = Py.hex_char (Py.byte_val b / 16)
  /\ Py.lower_char (Py.hex_char (Py.byte_val b mod 16)) = Py.hex_char (Py.byte_val b mod 16).
Proof. destruct b; split; vm_compute; reflexivity. Qed.

(** A hex digest is already in lower case. *)
Lemma lower_hex (bs : list byte) : Py.lower (Py.hex bs) = Py.hex bs.
Proof.
  induction bs as [|b bs IH]; simpl; [reflexivity|].
  destruct (lower_hex_pair b) as [-> ->]. now rewrite IH.
Qed.

Lemma length_hex (bs : list byte) : String.length (Py.hex bs) = (2 * length bs)%nat.
Proof.
  induction bs as [|b bs IH]; [reflexivity|].
  cbn [Py.hex String.length length]. rewrite IH. lia.
Qed.

(** [data[a:a+n]] has [n] bytes, or as many as are left. *)
Lemma length_slice (data : list byte) (a n : nat) :
  length (Py.slice data a n) = Nat.min n (length data - a).
Proof. unfold Py.slice. now rewrite length_take, length_drop. Qed.

Lemma fromhex_empty : Py.fromhex "" = Some [].
Proof. reflexivity. Qed.

(** ** sdk/server.py: the timelock assertion *)

Lemma module_load_ok (c : Server.TimelockConfig) :
  Server.T_KPIV_SECONDS c + Server.T_BUFFER_SECONDS c <= Server.T_USDC_SECONDS c ->
  Server.module_load c = Server.Loaded.
Proof.
  intros H. unfold Server.module_load.
  destruct (Z.geb_spec (Server.T_USDC_SECONDS c)
              (Server.T_KPIV_SECONDS c + Server.T_BUFFER_SECONDS c)); [reflexivity|lia].
Qed.

Lemma module_load_abort (c : Server.TimelockConfig) :
  Server.T_USDC_SECONDS c < Server.T_KPIV_SECONDS c + Server.T_BUFFER_SECONDS c ->
  Server.module_load c = Server.AssertionError (Server.timelock_message c).
Proof.
  intros H. unfold Server.module_load.
  destruct (Z.geb_spec (Server.T_USDC_SECONDS c)
              (Server.T_KPIV_SECONDS c + Server.T_BUFFER_SECONDS c)); [lia|reflexivity].
Qed.

(** C1.  Loading the SDK server evaluates the assertion
    [T_USDC_SECONDS >= T_KPIV_SECONDS + T_BUFFER_SECONDS]: a configuration
    that violates it aborts the load with the [AssertionError] and its
    message, a configuration that satisfies it loads; when
    [T_KPIV_SECONDS] is [T_KPIV_BLOCKS * 60] this is the policy
    [T_quote_seconds >= T_native_blocks * 60 + buffer_seconds]; the
    shipped values are 14400, 7200 = 120 * 60 and 1800, and they load. *)
Theorem timelock_policy_asserted_at_load :
  (forall c : Server.TimelockConfig,
      Server.T_USDC_SECONDS c < Server.T_KPIV_SECONDS c + Server.T_BUFFER_SECONDS c ->
      Server.module_load c = Server.AssertionError (Server.timelock_message c))
  /\ (forall c : Server.TimelockConfig,
      Server.T_KPIV_SECONDS c = Server.T_KPIV_BLOCKS c * 60 ->
      Server.T_USDC_SECONDS c < Server.T_KPIV_BLOCKS c * 60 + Server.T_BUFFER_SECONDS c ->
      Server.module_load c = Server.AssertionError (Server.timelock_message c))
  /\ (forall c : Server.TimelockConfig,
      Server.T_USDC_SECONDS c >= Server.T_KPIV_SECONDS c + Server.T_BUFFER_SECONDS c ->
      Server.module_load c = Server.Loaded)
  /\ Server.T_USDC_SECONDS Server.shipped = 14400
  /\ Server.T_KPIV_SECONDS Server.shipped = 7200
  /\ Server.T_KPIV_SECONDS Server.shipped = Server.T_KPIV_BLOCKS Server.shipped * 60
  /\ Server.T_BUFFER_SECONDS Server.shipped = 1800
  /\ Server.module_load Server.shipped = Server.Loaded.
Proof.
  split; [exact module_load_abort|].
  split; [intros c E H; apply module_load_abort; lia|].
  split; [intros c H; apply module_load_ok; lia|].
  repeat split.
Qed.

Lemma timelock_policy_asserted_at_load_witness :
  Server.module_load
    {| Server.T_KPIV_SECONDS := 18000; Server.T_USDC_SECONDS := 14400;
       Server.T_BUFFER_SECONDS := 1800; Server.T_KPIV_BLOCKS := 300;
       Server.T_USDC_BLOCKS := 240 |}
  = Server.AssertionError
      "TIMELOCK ERROR: T_USDC (14400s) must be >= T_KPIV (18000s) + BUFFER (1800s)".
Proof.
  apply (proj1 (proj2 timelock_policy_asserted_at_load)
           {| Server.T_KPIV_SECONDS := 18000; Server.T_USDC_SECONDS := 14400;
              Server.T_BUFFER_SECONDS := 1800; Server.T_KPIV_BLOCKS := 300;
              Server.T_USDC_BLOCKS := 240 |}); reflexivity.
Defined.

(** ** sdk/htlc_wrapper.py: claimable and refundable *)

(** The two height tests are complementary on the same expiry value. *)
Lemma int_ge_lt (n : Z) (x : HtlcWrapper.pyval) :
  HtlcWrapper.int_ge n x = HtlcWrapper.Return false ->
  HtlcWrapper.int_lt n x = HtlcWrapper.Return true.
Proof.
  destruct x as [|b|z|s]; simpl; try discriminate; intros H;
    inversion H as [H']; f_equal; lia.
Qed.

Lemma is_claimable_true (rpc : HtlcWrapper.Rpc) (outpoint : string) :
  HtlcWrapper.is_claimable rpc outpoint = HtlcWrapper.Return true ->
  exists htlc h,
    HtlcWrapper.get rpc outpoint = Some htlc
    /\ HtlcWrapper.in_strs (HtlcWrapper.dict_get htlc "status" HtlcWrapper.PyNone)
         ["pending"; "locked"] = true
    /\ HtlcWrapper.getblockcount rpc = HtlcWrapper.Return h
    /\ HtlcWrapper.int_ge h
         (HtlcWrapper.dict_get htlc "expiry_height" (HtlcWrapper.PyInt 0))
       = HtlcWrapper.Return false.
Proof.
  unfold HtlcWrapper.is_claimable.
  destruct (HtlcWrapper.get rpc outpoint) as [htlc|]; [|discriminate].
  destruct (HtlcWrapper.falsy (Some htlc)); [discriminate|].
  destruct (HtlcWrapper.in_strs _ ["pending"; "locked"]) eqn:Hs; simpl; [|discriminate].
  destruct (HtlcWrapper.getblockcount rpc) as [h|e]; [|discriminate].
  destruct (HtlcWrapper.int_ge h _) as [[|]|e] eqn:Hge; try discriminate.
  intros _. exists htlc, h. auto.
Qed.

Lemma is_refundable_true (rpc : HtlcWrapper.Rpc) (outpoint : string) :
  HtlcWrapper.is_refundable rpc outpoint = HtlcWrapper.Return true ->
  exists htlc h,
    HtlcWrapper.get rpc outpoint = Some htlc
    /\ HtlcWrapper.in_strs (HtlcWrapper.dict_get htlc "status" HtlcWrapper.PyNone)
         ["claimed"; "refunded"] = false
    /\ HtlcWrapper.getblockcount rpc = HtlcWrapper.Return h
    /\ HtlcWrapper.int_lt h
         (HtlcWrapper.dict_get htlc "expiry_height" (HtlcWrapper.PyInt 0))
       = HtlcWrapper.Return false.
Proof.
  unfold HtlcWrapper.is_refundable.
  destruct (HtlcWrapper.get rpc outpoint) as [htlc|]; [|discriminate].
  destruct (HtlcWrapper.falsy (Some htlc)); [discriminate|].
  destruct (HtlcWrapper.in_strs _ ["claimed"; "refunded"]) eqn:Hs; simpl; [discriminate|].
  destruct (HtlcWrapper.getblockcount rpc) as [h|e]; [|discriminate].
  destruct (HtlcWrapper.int_lt h _) as [[|]|e] eqn:Hlt; try discriminate.
  intros _. exists htlc, h. auto.
Qed.

(** C10.  For every daemon state (HTLC record and block height) and every
    outpoint, [is_claimable] and [is_refundable] do not both return
    [True]: the first needs a status among pending and locked and a
    height below the expiry, the second a status that is neither claimed
    nor refunded and a height that is not below the expiry. *)
Theorem claimable_and_refundable_exclusive :
  (forall (rpc : HtlcWrapper.Rpc) (outpoint : string),
      returns_true (HtlcWrapper.is_claimable rpc outpoint)
      && returns_true (HtlcWrapper.is_refundable rpc outpoint) = false)
  /\ (forall (rpc : HtlcWrapper.Rpc) (outpoint : string),
      HtlcWrapper.is_claimable rpc outpoint = HtlcWrapper.Return true ->
      exists htlc h,
        HtlcWrapper.get rpc outpoint = Some htlc
        /\ HtlcWrapper.in_strs (HtlcWrapper.dict_get htlc "status" HtlcWrapper.PyNone)
             ["pending"; "locked"] = true
        /\ HtlcWrapper.getblockcount rpc = HtlcWrapper.Return h
        /\ HtlcWrapper.int_lt h
             (HtlcWrapper.dict_get htlc "expiry_height" (HtlcWrapper.PyInt 0))
           = HtlcWrapper.Return true)
  /\ (forall (rpc : HtlcWrapper.Rpc) (outpoint : string),
      HtlcWrapper.is_refundable rpc outpoint = HtlcWrapper.Return true ->
      exists htlc h,
        HtlcWrapper.get rpc outpoint = Some htlc
        /\ HtlcWrapper.in_strs (HtlcWrapper.dict_get htlc "status" HtlcWrapper.PyNone)
             ["claimed"; "refunded"] = false
        /\ HtlcWrapper.getblockcount rpc = HtlcWrapper.Return h
        /\ HtlcWrapper.int_lt h
             (HtlcWrapper.dict_get htlc "expiry_height" (HtlcWrapper.PyInt 0))
           = HtlcWrapper.Return false).
Proof.
  split; [|split].
  - intros rpc outpoint.
    destruct (HtlcWrapper.is_claimable rpc outpoint) as [[|]|e] eqn:Hc; try reflexivity.
    destruct (HtlcWrapper.is_refundable rpc outpoint) as [[|]|e] eqn:Hr; try reflexivity.
    exfalso.
    destruct (is_claimable_true _ _ Hc) as (htlc & h & Hg & _ & Hh & Hge).
    destruct (is_refundable_true _ _ Hr) as (htlc' & h' & Hg' & _ & Hh' & Hlt).
    rewrite Hg in Hg'. inversion Hg'; subst htlc'.
    rewrite Hh in Hh'. inversion Hh'; subst h'.
    rewrite (int_ge_lt _ _ Hge) in Hlt. discriminate.
  - intros rpc outpoint Hc.
    destruct (is_claimable_true _ _ Hc) as (htlc & h & Hg & Hs & Hh & Hge).
    exists htlc, h. repeat split; auto using int_ge_lt.
  - exact is_refundable_true.
Qed.

Lemma claimable_and_refundable_exclusive_witness :
  exists htlc h,
    HtlcWrapper.get (sample_rpc "locked" 1000 999) "txid:0" = Some htlc
    /\ HtlcWrapper.in_strs (HtlcWrapper.dict_get htlc "status" HtlcWrapper.PyNone)
         ["pending"; "locked"] = true
    /\ HtlcWrapper.getblockcount (sample_rpc "locked" 1000 999) = HtlcWrapper.Return h
    /\ HtlcWrapper.int_lt h
         (HtlcWrapper.dict_get htlc "expiry_height" (HtlcWrapper.PyInt 0))
       = HtlcWrapper.Return true.
Proof.
  apply (proj1 (proj2 claimable_and_refundable_exclusive)
           (sample_rpc "locked" 1000 999) "txid:0").
  vm_compute. reflexivity.
Defined.

(** ** sdk/htlc_wrapper.py: verify_preimage *)

Lemma verify_preimage_true (H S : string) :
  HtlcWrapper.verify_preimage H S = true <->
  exists bs, Py.fromhex S = Some bs /\ Hashlib.sha256_hexdigest bs = Py.lower H.
Proof.
  unfold HtlcWrapper.verify_preimage, Hashlib.sha256_hexdigest.
  destruct (Py.fromhex S) as [bs|].
  - rewrite lower_hex, String.eqb_eq. split.
    + intros E. exists bs. auto.
    + intros (bs' & E & E'). inversion E; subst bs'. exact E'.
  - split; [discriminate|]. intros (bs & E & _). discriminate.
Qed.

Lemma verify_preimage_false (H S : string) (bs : list byte) :
  Py.fromhex S = Some bs ->
  Hashlib.sha256_hexdigest bs <> Py.lower H ->
  HtlcWrapper.verify_preimage H S = false.
Proof.
  intros E N. destruct (HtlcWrapper.verify_preimage H S) eqn:V; [|reflexivity].
  apply verify_preimage_true in V. destruct V as (bs' & E' & D).
  rewrite E in E'. inversion E'; subst bs'. contradiction.
Qed.

(** C5, as the code has it.  [verify_preimage(H, S)] is true exactly when
    [S] is a hex string whose decoded bytes have the SHA-256 hex digest
    [H], letter case in [H] apart.  Hence a 32-byte preimage whose digest
    is not [H] is rejected, and the zero-byte preimage is rejected for
    every [H] but the digest of the empty string, for which it is
    accepted. *)
Theorem verify_preimage_iff_sha256 (H S : string) :
  (HtlcWrapper.verify_preimage H S = true <->
   exists bs, Py.fromhex S = Some bs /\ Hashlib.sha256_hexdigest bs = Py.lower H)
  /\ (HtlcWrapper.verify_preimage H "" = true <->
      Py.lower H = "e3b0c44298fc1c149afbf4c8996fb92427ae41e4649b934ca495991b7852b855")
  /\ (forall bs : list byte,
        Py.fromhex S = Some bs -> length bs = 32%nat ->
        Hashlib.sha256_hexdigest bs <> Py.lower H ->
        HtlcWrapper.verify_preimage H S = false).
Proof.
  split; [apply verify_preimage_true|]. split.
  - rewrite verify_preimage_true. split.
    + intros (bs & E & D). rewrite fromhex_empty in E. inversion E; subst bs.
      rewrite <- D. apply sha256_empty.
    + intros E. exists []. split; [reflexivity|]. rewrite E. apply sha256_empty.
  - intros bs E _ N. eapply verify_preimage_false; eauto.
Qed.

Lemma verify_preimage_iff_sha256_witness :
  HtlcWrapper.verify_preimage sample_hashlock sample_wrong_preimage = false.
Proof.
  refine (proj2 (proj2 (verify_preimage_iff_sha256 sample_hashlock sample_wrong_preimage))
            (repeat x11 32) _ _ _).
  - vm_compute. reflexivity.
  - reflexivity.
  - vm_compute. discriminate.
Defined.

(** C5, as stated, fails: the zero-byte preimage is accepted against the
    hashlock that is the SHA-256 digest of the empty byte string. *)
Lemma verify_preimage_accepts_zero_byte_preimage :
  HtlcWrapper.verify_preimage
    "e3b0c44298fc1c149afbf4c8996fb92427ae41e4649b934ca495991b7852b855" "" = true.
Proof. vm_compute. reflexivity. Qed.

Example verify_preimage_sample :
  HtlcWrapper.verify_preimage sample_hashlock sample_secret = true
  /\ HtlcWrapper.verify_preimage ("0x" +:+ sample_hashlock) sample_secret = false
  /\ HtlcWrapper.verify_preimage sample_hashlock "zz" = false.
Proof. vm_compute. auto. Qed.

(** ** lp_bot.py: extract_preimage_from_scriptsig *)

Lemma byte_nat_32 (b : byte) : LpBot.byte_nat b = 32%nat -> b = x20.
Proof. destruct b; vm_compute; intros E; first [reflexivity | discriminate E]. Qed.

(** One evaluation of the loop condition and the turn that follows it,
    by items. *)
Lemma scan_turn (fuel : nat) (data : list byte) (pos : nat) :
  LpBot.scan (S fuel) data pos =
    match nth_error data pos with
    | None => LpBot.Returned None
    | Some op =>
        match accepted data pos op with
        | Some p => LpBot.Returned (Some p)
        | None =>
            match next_item data pos op with
            | Some pos' => LpBot.scan fuel data pos'
            | None => LpBot.Returned None
            end
        end
    end.
Proof.
  cbn [LpBot.scan].
  destruct (nth_error data pos) as [op|]; [|reflexivity].
  unfold accepted, next_item.
  destruct (Nat.eqb_spec (LpBot.byte_nat op) 0) as [E0|N0].
  - rewrite E0. cbn [Nat.eqb Nat.leb]. now rewrite Nat.add_0_r.
  - destruct (Nat.leb_spec (LpBot.byte_nat op) 75) as [L|G].
    + destruct (Nat.eqb_spec (LpBot.byte_nat op) 32) as [E32|N32].
      * destruct (LpBot.likely_preimage _); reflexivity.
      * reflexivity.
    + destruct (Nat.eqb_spec (LpBot.byte_nat op) 32) as [E32|N32]; [lia|].
      destruct (Nat.eqb_spec (LpBot.byte_nat op) 76) as [E76|N76].
      * destruct (nth_error data (S pos)); reflexivity.
      * destruct (Nat.eqb_spec (LpBot.byte_nat op) 77); reflexivity.
Qed.

(** What the loop returns is what the walk by items finds. *)
Lemma scan_first_accepted (fuel : nat) (data : list byte) :
  forall pos r,
    LpBot.scan fuel data pos = LpBot.Returned r ->
    first_accepted fuel data pos = r.
Proof.
  induction fuel as [|fuel IH]; intros pos r; [discriminate|].
  rewrite scan_turn. cbn [first_accepted].
  destruct (nth_error data pos) as [op|]; [|congruence].
  destruct (accepted data pos op); [congruence|].
  destruct (next_item data pos op); [apply IH|congruence].
Qed.

(** Every item takes at least its opcode byte. *)
Lemma next_item_forward (data : list byte) (pos pos' : nat) (op : byte) :
  next_item data pos op = Some pos' -> (pos < pos')%nat.
Proof.
  unfold next_item.
  destruct (_ <=? 75)%nat; [intros E; inversion E; lia|].
  destruct (_ =? 76)%nat.
  - destruct (nth_error data (S pos)); intros E; inversion E; lia.
  - destruct (_ =? 77)%nat; intros E; inversion E; lia.
Qed.

(** The loop ends within [length data - pos] turns: more fuel changes
    nothing. *)
Lemma first_accepted_fuel (data : list byte) :
  forall fuel1 fuel2 pos,
    (length data - pos <= fuel1)%nat -> (length data - pos <= fuel2)%nat ->
    first_accepted fuel1 data pos = first_accepted fuel2 data pos.
Proof.
  induction fuel1 as [|fuel1 IH]; intros fuel2 pos H1 H2.
  - assert (Hn : nth_error data pos = None) by (apply nth_error_None; lia).
    destruct fuel2; simpl; [reflexivity|]. now rewrite Hn.
  - simpl. destruct (nth_error data pos) as [op|] eqn:Hop.
    + assert (Hlt : (pos < length data)%nat)
        by (apply nth_error_Some; congruence).
      destruct fuel2 as [|fuel2]; [lia|]. simpl. rewrite Hop.
      destruct (accepted data pos op); [reflexivity|].
      destruct (next_item data pos op) as [pos'|] eqn:Hn; [|reflexivity].
      apply next_item_forward in Hn. apply IH; lia.
    + destruct fuel2; simpl; [reflexivity|]. now rewrite Hop.
Qed.

(** Every turn that does not return moves [pos] forward, so the loop
    returns before the condition has been evaluated more than
    [length data - pos + 1] times. *)
Lemma scan_returns (data : list byte) :
  forall fuel pos,
    (length data - pos < fuel)%nat ->
    exists r, LpBot.scan fuel data pos = LpBot.Returned r.
Proof.
  induction fuel as [|fuel IH]; intros pos H; [lia|].
  rewrite scan_turn.
  destruct (nth_error data pos) as [op|] eqn:Hop; [|eauto].
  assert (Hlt : (pos < length data)%nat) by (apply nth_error_Some; congruence).
  destruct (accepted data pos op); [eauto|].
  destruct (next_item data pos op) as [pos'|] eqn:Hn; [|eauto].
  apply next_item_forward in Hn. apply IH. lia.
Qed.

(** X1.  The loop of [extract_preimage_from_scriptsig] terminates:
    started at offset [pos] it returns, whatever the bytes, before its
    condition has been evaluated more than [length data - pos + 1]
    times, and what it returns is the same under every larger bound. *)
Theorem scan_terminates (data : list byte) (fuel pos : nat) :
  (length data - pos < fuel)%nat ->
  exists r,
    LpBot.scan fuel data pos = LpBot.Returned r /\
    LpBot.scan (S (length data - pos)) data pos = LpBot.Returned r.
Proof.
  intros H.
  destruct (scan_returns data fuel pos H) as [r Hr].
  destruct (scan_returns data (S (length data - pos)) pos ltac:(lia)) as [r' Hr'].
  exists r. split; [exact Hr|]. rewrite Hr'. f_equal.
  apply scan_first_accepted in Hr, Hr'. subst r r'.
  apply first_accepted_fuel; lia.
Qed.

Lemma scan_terminates_witness :
  exists r,
    LpBot.scan 1000 (repeat x20 40) 0 = LpBot.Returned r /\
    LpBot.scan (S (length (repeat x20 40) - 0)) (repeat x20 40) 0
    = LpBot.Returned r.
Proof. apply scan_terminates. rewrite repeat_length. lia. Defined.

(** The function never runs out of turns: it is the walk by items. *)
Lemma extract_first_accepted (scriptsig_hex : string) :
  LpBot.extract_preimage_from_scriptsig scriptsig_hex =
    match Py.fromhex scriptsig_hex with
    | None => None
    | Some data => first_accepted (length data) data 0
    end.
Proof.
  unfold LpBot.extract_preimage_from_scriptsig.
  destruct (Py.fromhex scriptsig_hex) as [data|]; [|reflexivity].
  destruct (scan_returns data (S (length data)) 0 ltac:(lia)) as [r Hr].
  rewrite Hr. apply scan_first_accepted in Hr. subst r.
  apply first_accepted_fuel; lia.
Qed.

(** What is returned is the hex form of the bytes after an opcode 0x20,
    and it passed the test of line 360. *)
Lemma first_accepted_sound (data : list byte) (p : string) :
  forall fuel pos,
    first_accepted fuel data pos = Some p ->
    exists pos', (pos <= pos')%nat
      /\ nth_error data pos' = Some x20
      /\ p = Py.hex (Py.slice data (S pos') 32)
      /\ LpBot.likely_preimage p = true.
Proof.
  induction fuel as [|fuel IH]; intros pos; simpl; [discriminate|].
  destruct (nth_error data pos) as [op|] eqn:Hop; [|discriminate].
  destruct (accepted data pos op) as [q|] eqn:Ha.
  - intros E. inversion E; subst q. clear E.
    unfold accepted in Ha.
    destruct (Nat.eqb_spec (LpBot.byte_nat op) 32) as [E32|]; [|congruence].
    cbv zeta in Ha.
    destruct (LpBot.likely_preimage (Py.hex (Py.slice data (S pos) 32))) eqn:Hl;
      [|congruence].
    inversion Ha; subst p. apply byte_nat_32 in E32. subst op.
    exists pos. auto.
  - destruct (next_item data pos op) as [pos'|] eqn:Hn; [|discriminate].
    intros E. apply IH in E. destruct E as (q & Hle & Hq).
    apply next_item_forward in Hn. exists q. split; [lia|exact Hq].
Qed.

(** A script without a push that passes the test gives nothing. *)
Lemma first_accepted_none (data : list byte) :
  (forall pos, nth_error data pos = Some x20 ->
               LpBot.likely_preimage (Py.hex (Py.slice data (S pos) 32)) = false) ->
  forall fuel pos, first_accepted fuel data pos = None.
Proof.
  intros H fuel. induction fuel as [|fuel IH]; intros pos; simpl; [reflexivity|].
  destruct (nth_error data pos) as [op|] eqn:Hop; [|reflexivity].
  unfold accepted.
  destruct (Nat.eqb_spec (LpBot.byte_nat op) 32) as [E32|].
  - apply byte_nat_32 in E32. subst op. rewrite (H pos Hop).
    destruct (next_item data pos x20); [apply IH|reflexivity].
  - destruct (next_item data pos op); [apply IH|reflexivity].
Qed.

(** C6, as the code has it.  The parser walks the items of the script
    (direct pushes, PUSHDATA1, PUSHDATA2, other opcodes) from offset 0
    and stops at the first item with opcode 0x20 for which the hex form
    of the bytes that follow, 32 of them or as many as the script still
    has, is not 64 zeros and does not begin with 02 or 03: it returns
    that hex form, which has 64 characters only when 32 bytes follow the
    opcode.  No hashlock and no SHA-256 digest takes part.  A script
    that is not hex, or has no opcode 0x20 followed by such bytes, gives
    nothing. *)
Theorem extract_preimage_first_accepted_push (scriptsig_hex : string) :
  LpBot.extract_preimage_from_scriptsig scriptsig_hex =
    match Py.fromhex scriptsig_hex with
    | None => None
    | Some data => first_accepted (length data) data 0
    end
  /\ (forall p : string,
        LpBot.extract_preimage_from_scriptsig scriptsig_hex = Some p ->
        exists data pos,
          Py.fromhex scriptsig_hex = Some data
          /\ nth_error data pos = Some x20
          /\ p = Py.hex (Py.slice data (S pos) 32)
          /\ String.length p = (2 * Nat.min 32 (length data - S pos))%nat
          /\ LpBot.likely_preimage p = true)
  /\ (forall data : list byte,
        Py.fromhex scriptsig_hex = Some data ->
        (forall pos, nth_error data pos = Some x20 ->
           LpBot.likely_preimage (Py.hex (Py.slice data (S pos) 32)) = false) ->
        LpBot.extract_preimage_from_scriptsig scriptsig_hex = None).
Proof.
  rewrite extract_first_accepted.
  destruct (Py.fromhex scriptsig_hex) as [data|].
  - split; [reflexivity|]. split.
    + intros p E. apply first_accepted_sound in E.
      destruct E as (pos & _ & Hop & Hp & Hl). exists data, pos.
      repeat split; try assumption.
      rewrite Hp, length_hex, length_slice. reflexivity.
    + intros data' E H. inversion E; subst data'.
      now apply first_accepted_none.
  - split; [reflexivity|]. split; [discriminate|reflexivity].
Qed.

Lemma extract_preimage_first_accepted_push_witness :
  exists data pos,
    Py.fromhex ("20" +:+ sample_secret) = Some data
    /\ nth_error data pos = Some x20
    /\ sample_secret = Py.hex (Py.slice data (S pos) 32)
    /\ String.length sample_secret = (2 * Nat.min 32 (length data - S pos))%nat
    /\ LpBot.likely_preimage sample_secret = true.
Proof.
  apply (proj1 (proj2 (extract_preimage_first_accepted_push ("20" +:+ sample_secret)))).
  vm_compute. reflexivity.
Defined.

(** C6, as stated, fails: of two 32-byte pushes the parser returns the
    first, whose SHA-256 is not the open hashlock, and not the second,
    which is the preimage of that hashlock. *)
Lemma extract_preimage_returns_unmatched_push :
  LpBot.extract_preimage_from_scriptsig
    ("20" +:+ sample_wrong_preimage +:+ "20" +:+ sample_secret)
  = Some sample_wrong_preimage
  /\ HtlcWrapper.verify_preimage sample_hashlock sample_wrong_preimage = false
  /\ HtlcWrapper.verify_preimage sample_hashlock sample_secret = true.
Proof. vm_compute. auto. Qed.

(** ** swap_watcher.py: derive_states *)

(** Case analysis on the tests of an [if] chain. *)
Ltac split_ifs :=
  repeat match goal with
         | |- context [if ?c then _ else _] => destruct c eqn:?
         end.

(** Each chain is a choice made on the raw fields, then one write. *)
Lemma derive_lp_choice (s : SwapWatcher.SwapState) :
  SwapWatcher.derive_lp s =
    match lp_choice s with
    | Some (st, act) => SwapWatcher.set_lp s st act
    | None => s
    end.
Proof. unfold SwapWatcher.derive_lp, lp_choice. split_ifs; reflexivity. Qed.

Lemma derive_taker_choice (s : SwapWatcher.SwapState) :
  SwapWatcher.derive_taker s =
    match taker_choice s with
    | Some (st, act) => SwapWatcher.set_taker s st act
    | None => s
    end.
Proof. unfold SwapWatcher.derive_taker, taker_choice. split_ifs; reflexivity. Qed.

(** The writes leave the raw fields, hence the choices, as they are. *)
Lemma taker_choice_derive_lp (s : SwapWatcher.SwapState) :
  taker_choice (SwapWatcher.derive_lp s) = taker_choice s.
Proof. rewrite derive_lp_choice. destruct (lp_choice s) as [[st act]|]; reflexivity. Qed.

Lemma lp_choice_derive_taker (s : SwapWatcher.SwapState) :
  lp_choice (SwapWatcher.derive_taker s) = lp_choice s.
Proof. rewrite derive_taker_choice. destruct (taker_choice s) as [[st act]|]; reflexivity. Qed.

Lemma lp_choice_derive_lp (s : SwapWatcher.SwapState) :
  lp_choice (SwapWatcher.derive_lp s) = lp_choice s.
Proof.
  rewrite derive_lp_choice.
  destruct (lp_choice s) as [[st act]|] eqn:E; [|exact E].
  rewrite <- E. reflexivity.
Qed.

Lemma taker_choice_derive_taker (s : SwapWatcher.SwapState) :
  taker_choice (SwapWatcher.derive_taker s) = taker_choice s.
Proof.
  rewrite derive_taker_choice.
  destruct (taker_choice s) as [[st act]|] eqn:E; [|exact E].
  rewrite <- E. reflexivity.
Qed.

(** The derived taker state, read off the raw fields. *)
Lemma taker_state_derive_states (s : SwapWatcher.SwapState) :
  SwapWatcher.taker_state (SwapWatcher.derive_states s) =
    if String.eqb (SwapWatcher.piv_lot_status s) "claimed" then "completed"
    else if SwapWatcher.secret_revealed s && SwapWatcher.evm_locked s then "claimable"
    else if SwapWatcher.evm_locked s && (SwapWatcher.evm_time_left s <=? 0)
         then "refundable"
    else if SwapWatcher.evm_locked s then "locked"
    else if Py.truthy_opt (SwapWatcher.piv_lot_outpoint s) then "browse"
    else SwapWatcher.taker_state s.
Proof.
  unfold SwapWatcher.derive_states.
  rewrite derive_taker_choice, taker_choice_derive_lp.
  assert (E : SwapWatcher.taker_state (SwapWatcher.derive_lp s) = SwapWatcher.taker_state s).
  { rewrite derive_lp_choice. destruct (lp_choice s) as [[st act]|]; reflexivity. }
  unfold taker_choice. split_ifs; cbn [SwapWatcher.set_taker SwapWatcher.taker_state];
    first [reflexivity | exact E].
Qed.

(** The derived LP state, read off the raw fields. *)
Lemma lp_state_derive_states (s : SwapWatcher.SwapState) :
  SwapWatcher.lp_state (SwapWatcher.derive_states s) =
    if String.eqb (SwapWatcher.piv_lot_status s) "expired" then "expired"
    else if SwapWatcher.evm_claimed s then "claimed"
    else if SwapWatcher.evm_locked s then "taken"
    else if Py.truthy_opt (SwapWatcher.piv_lot_outpoint s) then "inventory"
    else SwapWatcher.lp_state s.
Proof.
  unfold SwapWatcher.derive_states.
  assert (E : forall x, SwapWatcher.lp_state (SwapWatcher.derive_taker x) = SwapWatcher.lp_state x).
  { intros x. rewrite derive_taker_choice.
    destruct (taker_choice x) as [[st act]|]; reflexivity. }
  rewrite E, derive_lp_choice. unfold lp_choice.
  destruct (SwapWatcher.evm_locked s); cbn [andb];
    split_ifs; reflexivity.
Qed.

Lemma derive_states_idempotent (s : SwapWatcher.SwapState) :
  SwapWatcher.derive_states (SwapWatcher.derive_states s) = SwapWatcher.derive_states s.
Proof.
  unfold SwapWatcher.derive_states.
  rewrite (derive_taker_choice (SwapWatcher.derive_lp (SwapWatcher.derive_taker _))).
  rewrite taker_choice_derive_lp, taker_choice_derive_taker, taker_choice_derive_lp.
  rewrite (derive_lp_choice (SwapWatcher.derive_taker _)).
  rewrite lp_choice_derive_taker, lp_choice_derive_lp.
  rewrite (derive_taker_choice (SwapWatcher.derive_lp s)), taker_choice_derive_lp.
  rewrite derive_lp_choice.
  destruct s, (lp_choice _) as [[st act]|], (taker_choice _) as [[st' act']|];
    reflexivity.
Qed.

(** C4, as the code has it.  With the native HTLC locked, the quote HTLC
    locked and not claimed, and no secret revealed, the derivation yields
    LP = taken and taker = locked, or taker = refundable once no time is
    left on the quote timelock.  With both sides locked the taker is
    claimable exactly when [secret_revealed] is set. *)
Theorem derive_states_both_locked :
  (forall s : SwapWatcher.SwapState,
      SwapWatcher.piv_lot_status s = "locked" ->
      SwapWatcher.evm_locked s = true ->
      SwapWatcher.evm_claimed s = false ->
      SwapWatcher.secret_revealed s = false ->
      SwapWatcher.lp_state (SwapWatcher.derive_states s) = "taken"
      /\ SwapWatcher.taker_state (SwapWatcher.derive_states s) =
         if SwapWatcher.evm_time_left s <=? 0 then "refundable" else "locked")
  /\ (forall s : SwapWatcher.SwapState,
      SwapWatcher.piv_lot_status s = "locked" ->
      SwapWatcher.evm_locked s = true ->
      (SwapWatcher.taker_state (SwapWatcher.derive_states s) = "claimable"
       <-> SwapWatcher.secret_revealed s = true)).
Proof.
  split.
  - intros s Hs Hl Hc Hr.
    rewrite lp_state_derive_states, taker_state_derive_states.
    rewrite Hs, Hl, Hc, Hr. cbn [andb String.eqb Ascii.eqb Bool.eqb].
    split; [reflexivity|]. now destruct (_ <=? 0).
  - intros s Hs Hl. rewrite taker_state_derive_states, Hs, Hl.
    cbn [String.eqb Ascii.eqb Bool.eqb].
    destruct (SwapWatcher.secret_revealed s); cbn [andb].
    + split; reflexivity.
    + destruct (_ <=? 0); split; discriminate.
Qed.

Lemma derive_states_both_locked_witness :
  SwapWatcher.lp_state (SwapWatcher.derive_states sample_both_locked) = "taken"
  /\ SwapWatcher.taker_state (SwapWatcher.derive_states sample_both_locked) =
     if SwapWatcher.evm_time_left sample_both_locked <=? 0
     then "refundable" else "locked".
Proof.
  apply (proj1 derive_states_both_locked sample_both_locked); reflexivity.
Defined.

(** C4, as stated, fails: with a LOT locked on the native chain, a quote
    lock four hours from its timelock and no secret revealed, the
    derived taker state is locked, not claimable. *)
Lemma derive_states_both_locked_taker_is_locked :
  SwapWatcher.compute_swap_state (sample_chains "locked" 1700014400 1700000000)
    sample_hashlock (Some sample_lp_address)
  = SwapWatcher.derive_states sample_both_locked
  /\ SwapWatcher.piv_lot_status sample_both_locked = "locked"
  /\ SwapWatcher.evm_locked sample_both_locked = true
  /\ SwapWatcher.taker_state (SwapWatcher.derive_states sample_both_locked) = "locked"
  /\ SwapWatcher.lp_state (SwapWatcher.derive_states sample_both_locked) = "taken".
Proof. vm_compute. repeat split; reflexivity. Qed.

(** ** lp_watcher.py: the pending-swap dict *)

Lemma dict_contains_store (d : list (string * LpWatcher.PendingSwap))
    (k : string) (v : LpWatcher.PendingSwap) :
  LpWatcher.dict_contains (LpWatcher.dict_store d k v) k = true.
Proof.
  unfold LpWatcher.dict_contains.
  induction d as [|[k' v'] d IH]; simpl.
  - now rewrite String.eqb_refl.
  - destruct (String.eqb k' k) eqn:E; simpl; rewrite E; [reflexivity|exact IH].
Qed.

Lemma process_new_lock_known (w : LpWatcher.World)
    (pending : list (string * LpWatcher.PendingSwap)) (lock : LpWatcher.Lock) :
  LpWatcher.dict_contains pending (LpWatcher.lk_hashlock lock) = true ->
  LpWatcher.process_new_lock w pending lock = (pending, []).
Proof. intros H. unfold LpWatcher.process_new_lock. now rewrite H. Qed.

Lemma process_new_lock_tracks (w : LpWatcher.World)
    (pending : list (string * LpWatcher.PendingSwap)) (lock : LpWatcher.Lock) :
  LpWatcher.dict_contains (fst (LpWatcher.process_new_lock w pending lock))
    (LpWatcher.lk_hashlock lock) = true.
Proof.
  unfold LpWatcher.process_new_lock.
  destruct (LpWatcher.dict_contains pending (LpWatcher.lk_hashlock lock)) eqn:E;
    [exact E|].
  destruct (LpWatcher.try_create_kpiv_htlc w _) as [swap acts]. simpl.
  apply dict_contains_store.
Qed.

(** C9.  The state machine is idempotent: deriving the states of an
    already derived swap state changes nothing, and a quote-lock event
    whose hashlock is already in [pending_swaps] leaves the dict as it is
    and sends nothing; in particular a lock processed once is a no-op
    when processed again. *)
Theorem state_machine_idempotent :
  (forall s : SwapWatcher.SwapState,
      SwapWatcher.derive_states (SwapWatcher.derive_states s)
      = SwapWatcher.derive_states s)
  /\ (forall (w : LpWatcher.World) (pending : list (string * LpWatcher.PendingSwap))
             (lock : LpWatcher.Lock),
      LpWatcher.dict_contains pending (LpWatcher.lk_hashlock lock) = true ->
      LpWatcher.process_new_lock w pending lock = (pending, []))
  /\ (forall (w w' : LpWatcher.World) (pending : list (string * LpWatcher.PendingSwap))
             (lock : LpWatcher.Lock),
      LpWatcher.process_new_lock w'
        (fst (LpWatcher.process_new_lock w pending lock)) lock
      = (fst (LpWatcher.process_new_lock w pending lock), [])).
Proof.
  split; [exact derive_states_idempotent|].
  split; [exact process_new_lock_known|].
  intros w w' pending lock. apply process_new_lock_known, process_new_lock_tracks.
Qed.

Lemma state_machine_idempotent_witness :
  LpWatcher.process_new_lock sample_world
    (fst (LpWatcher.process_new_lock sample_world [] (sample_lock 1700014400)))
    (sample_lock 1700014400)
  = (fst (LpWatcher.process_new_lock sample_world [] (sample_lock 1700014400)), []).
Proof.
  apply (proj1 (proj2 state_machine_idempotent)). vm_compute. reflexivity.
Defined.

(** ** lp_watcher.py: creating the KPIV HTLC *)









(** ** lp_watcher.py: claiming the USDC *)

(** What one turn of the loop of [check_for_reveals] sends. *)
Lemma reveal_actions (w : LpWatcher.World) (hashlock : string)
    (swap : LpWatcher.PendingSwap) (a : LpWatcher.action) :
  In a (snd (LpWatcher.reveal w hashlock swap)) ->
  exists htlc p sid pre tx,
    LpWatcher.usdc_claimed swap = false
    /\ LpWatcher.kpiv_htlc_created swap = true
    /\ LpWatcher.get_htlc_by_hashlock w (LpWatcher.strip_0x hashlock) = Some htlc
    /\ LpWatcher.status htlc = Some "claimed"
    /\ LpWatcher.preimage htlc = Some p
    /\ Py.truthy_str (LpWatcher.private_key w) = true
    /\ LpWatcher.account_from_key w (LpWatcher.private_key w) = true
    /\ Py.fromhex (LpWatcher.strip_0x (LpWatcher.polygon_swap_id swap)) = Some sid
    /\ Py.fromhex (LpWatcher.strip_0x p) = Some pre
    /\ handed_over (LpWatcher.evm_claim w sid pre) = Some tx
    /\ a = LpWatcher.ClaimUsdc sid pre tx.
Proof.
  unfold LpWatcher.reveal.
  destruct (LpWatcher.usdc_claimed swap) eqn:Hu; [intros []|].
  destruct (LpWatcher.kpiv_htlc_created swap) eqn:Hc; [|intros []]. cbn [negb].
  destruct (LpWatcher.get_htlc_by_hashlock w _) as [htlc|] eqn:Hh; [|intros []].
  case_bool_decide as Hs; [|intros []].
  destruct (LpWatcher.preimage htlc) as [p|] eqn:Hp; [|intros []].
  destruct (Py.truthy_str p); [|intros []].
  unfold LpWatcher.claim_usdc.
  destruct (Py.truthy_str (LpWatcher.private_key w)) eqn:Hk; [|intros []]. cbn [negb].
  destruct (LpWatcher.account_from_key w (LpWatcher.private_key w)) eqn:Ha;
    [|intros []]. cbn [negb].
  destruct (Py.fromhex (LpWatcher.strip_0x (LpWatcher.polygon_swap_id swap)))
    as [sid|] eqn:Hsid; [|intros []].
  destruct (Py.fromhex (LpWatcher.strip_0x p)) as [pre|] eqn:Hpre; [|intros []].
  destruct (LpWatcher.evm_claim w sid pre) as [| |tx] eqn:He; [intros []| |].
  - simpl. intros [H|[]]. subst a. exists htlc, p, sid, pre, None.
    rewrite He. auto 12.
  - simpl. intros [H|[]]. subst a. exists htlc, p, sid, pre, (Some tx).
    rewrite He. auto 12.
Qed.

Lemma check_for_reveals_actions (w : LpWatcher.World) (a : LpWatcher.action) :
  forall pending : list (string * LpWatcher.PendingSwap),
    In a (snd (LpWatcher.check_for_reveals w pending)) ->
    exists hashlock swap,
      In (hashlock, swap) pending
      /\ In a (snd (LpWatcher.reveal w hashlock swap)).
Proof.
  induction pending as [|[hashlock swap] rest IH]; simpl; [intros []|].
  destruct (LpWatcher.reveal w hashlock swap) as [swap' acts] eqn:Hr.
  destruct (LpWatcher.check_for_reveals w rest) as [rest' acts'].
  simpl in *. intros H. apply in_app_or in H. destruct H as [H|H].
  - exists hashlock, swap. rewrite Hr. auto.
  - destruct (IH H) as (h & s & Hin & Ha). exists h, s. auto.
Qed.

(** The loop treats every item of the dict: what a turn sends is in the
    trace of the pass, and what it writes is in the dict afterwards. *)
Lemma check_for_reveals_turn (w : LpWatcher.World) (hashlock : string)
    (swap : LpWatcher.PendingSwap) :
  forall pending : list (string * LpWatcher.PendingSwap),
    In (hashlock, swap) pending ->
    In (hashlock, fst (LpWatcher.reveal w hashlock swap))
       (fst (LpWatcher.check_for_reveals w pending))
    /\ forall a, In a (snd (LpWatcher.reveal w hashlock swap)) ->
                 In a (snd (LpWatcher.check_for_reveals w pending)).
Proof.
  induction pending as [|[h s] rest IH]; [intros []|].
  intros Hin. cbn [LpWatcher.check_for_reveals].
  destruct (LpWatcher.reveal w h s) as [s' acts] eqn:Hr.
  destruct (LpWatcher.check_for_reveals w rest) as [rest' acts'].
  cbn [fst snd] in *. destruct Hin as [E|Hin].
  - inversion E; subst h s. rewrite Hr. cbn [fst snd]. split; [now left|].
    intros a Ha. apply in_or_app. now left.
  - destruct (IH Hin) as [H1 H2]. split; [now right|].
    intros a Ha. apply in_or_app. right. now apply H2.
Qed.

Lemma reveal_claims (w : LpWatcher.World) (hashlock : string)
    (swap : LpWatcher.PendingSwap) (htlc : LpWatcher.Htlc) (p : string)
    (sid pre : list byte) (tx : string) :
  LpWatcher.usdc_claimed swap = false ->
  LpWatcher.kpiv_htlc_created swap = true ->
  LpWatcher.get_htlc_by_hashlock w (LpWatcher.strip_0x hashlock) = Some htlc ->
  LpWatcher.status htlc = Some "claimed" ->
  LpWatcher.preimage htlc = Some p ->
  Py.truthy_str p = true ->
  Py.truthy_str (LpWatcher.private_key w) = true ->
  LpWatcher.account_from_key w (LpWatcher.private_key w) = true ->
  Py.fromhex (LpWatcher.strip_0x (LpWatcher.polygon_swap_id swap)) = Some sid ->
  Py.fromhex (LpWatcher.strip_0x p) = Some pre ->
  LpWatcher.evm_claim w sid pre = LpWatcher.ClaimSent tx ->
  LpWatcher.reveal w hashlock swap
  = (LpWatcher.set_revealed swap p (Py.truthy_str tx),
     [LpWatcher.ClaimUsdc sid pre (Some tx)]).
Proof.
  intros Hu Hc Hh Hs Hp Ht Hk Ha Hsid Hpre He.
  unfold LpWatcher.reveal, LpWatcher.claim_usdc.
  rewrite Hu, Hc, Hh, Hp, Ht, Hk, Ha, Hsid, Hpre, He. cbn [negb].
  rewrite bool_decide_eq_true_2 by exact Hs.
  cbn [Py.truthy_opt]. destruct (Py.truthy_str tx); reflexivity.
Qed.

(** A key that is empty, or that [Account.from_key] rejects, sends
    nothing. *)
Lemma reveal_without_key (w : LpWatcher.World) (hashlock : string)
    (swap : LpWatcher.PendingSwap) :
  Py.truthy_str (LpWatcher.private_key w)
  && LpWatcher.account_from_key w (LpWatcher.private_key w) = false ->
  snd (LpWatcher.reveal w hashlock swap) = [].
Proof.
  intros Hk. unfold LpWatcher.reveal, LpWatcher.claim_usdc.
  destruct (LpWatcher.usdc_claimed swap); [reflexivity|].
  destruct (negb (LpWatcher.kpiv_htlc_created swap)); [reflexivity|].
  destruct (LpWatcher.get_htlc_by_hashlock w _) as [htlc|]; [|reflexivity].
  destruct (bool_decide _); [|reflexivity].
  destruct (LpWatcher.preimage htlc) as [p|]; [|reflexivity].
  destruct (Py.truthy_str p); [|reflexivity].
  destruct (Py.truthy_str (LpWatcher.private_key w)); [|reflexivity].
  cbn [andb negb] in *. rewrite Hk. reflexivity.
Qed.

(** C3, as the code has it.  Every USDC claim that [check_for_reveals]
    hands to [send_raw_transaction] belongs to a pending swap that is
    not yet claimed and has its KPIV HTLC, and carries the preimage that
    the daemon reports for the claimed HTLC of the swap's hashlock,
    hex-decoded.  For every pending swap of the dict for which these
    hold, the claim is sent and the swap written to whenever the
    preimage is not empty, a key is configured and accepted by
    [Account.from_key], both hex strings decode, and building, signing
    and sending raise nothing.  With a key that is empty or rejected
    nothing is sent.  The SHA-256 of the preimage is not computed on the
    way. *)
Theorem check_for_reveals_claims_reported_preimage :
  (forall (w : LpWatcher.World) (pending : list (string * LpWatcher.PendingSwap))
          (a : LpWatcher.action),
      In a (snd (LpWatcher.check_for_reveals w pending)) ->
      exists hashlock swap htlc p sid pre tx,
        In (hashlock, swap) pending
        /\ LpWatcher.usdc_claimed swap = false
        /\ LpWatcher.kpiv_htlc_created swap = true
        /\ LpWatcher.get_htlc_by_hashlock w (LpWatcher.strip_0x hashlock) = Some htlc
        /\ LpWatcher.status htlc = Some "claimed"
        /\ LpWatcher.preimage htlc = Some p
        /\ Py.truthy_str (LpWatcher.private_key w) = true
        /\ LpWatcher.account_from_key w (LpWatcher.private_key w) = true
        /\ Py.fromhex (LpWatcher.strip_0x (LpWatcher.polygon_swap_id swap)) = Some sid
        /\ Py.fromhex (LpWatcher.strip_0x p) = Some pre
        /\ handed_over (LpWatcher.evm_claim w sid pre) = Some tx
        /\ a = LpWatcher.ClaimUsdc sid pre tx)
  /\ (forall (w : LpWatcher.World) (pending : list (string * LpWatcher.PendingSwap))
             (hashlock : string) (swap : LpWatcher.PendingSwap)
             (htlc : LpWatcher.Htlc) (p : string) (sid pre : list byte)
             (tx : string),
      In (hashlock, swap) pending ->
      LpWatcher.usdc_claimed swap = false ->
      LpWatcher.kpiv_htlc_created swap = true ->
      LpWatcher.get_htlc_by_hashlock w (LpWatcher.strip_0x hashlock) = Some htlc ->
      LpWatcher.status htlc = Some "claimed" ->
      LpWatcher.preimage htlc = Some p ->
      Py.truthy_str p = true ->
      Py.truthy_str (LpWatcher.private_key w) = true ->
      LpWatcher.account_from_key w (LpWatcher.private_key w) = true ->
      Py.fromhex (LpWatcher.strip_0x (LpWatcher.polygon_swap_id swap)) = Some sid ->
      Py.fromhex (LpWatcher.strip_0x p) = Some pre ->
      LpWatcher.evm_claim w sid pre = LpWatcher.ClaimSent tx ->
      In (LpWatcher.ClaimUsdc sid pre (Some tx))
         (snd (LpWatcher.check_for_reveals w pending))
      /\ In (hashlock, LpWatcher.set_revealed swap p (Py.truthy_str tx))
            (fst (LpWatcher.check_for_reveals w pending)))
  /\ (forall (w : LpWatcher.World) (pending : list (string * LpWatcher.PendingSwap)),
      Py.truthy_str (LpWatcher.private_key w)
      && LpWatcher.account_from_key w (LpWatcher.private_key w) = false ->
      snd (LpWatcher.check_for_reveals w pending) = []).
Proof.
  split; [|split].
  - intros w pending a H.
    destruct (check_for_reveals_actions _ _ _ H) as (hashlock & swap & Hin & Ha).
    destruct (reveal_actions _ _ _ _ Ha)
      as (htlc & p & sid & pre & tx & H').
    exists hashlock, swap, htlc, p, sid, pre, tx. tauto.
  - intros w pending hashlock swap htlc p sid pre tx
           Hin Hu Hc Hh Hs Hp Ht Hk Ha Hsid Hpre He.
    pose proof (reveal_claims w hashlock swap htlc p sid pre tx
                  Hu Hc Hh Hs Hp Ht Hk Ha Hsid Hpre He) as E.
    destruct (check_for_reveals_turn w hashlock swap pending Hin) as [H1 H2].
    rewrite E in H1, H2. cbn [fst snd] in *. split; [|exact H1].
    apply H2. now left.
  - intros w pending Hk.
    destruct (snd (LpWatcher.check_for_reveals w pending)) as [|a l] eqn:E;
      [reflexivity|].
    assert (Hin : In a (snd (LpWatcher.check_for_reveals w pending)))
      by (rewrite E; now left).
    destruct (check_for_reveals_actions _ _ _ Hin) as (h & s & _ & Ha).
    rewrite (reveal_without_key w h s Hk) in Ha. destruct Ha.
Qed.

Lemma check_for_reveals_claims_reported_preimage_witness :
  let pending :=
    [("0x" +:+ sample_hashlock,
      LpWatcher.set_created (sample_swap 1700014400) (sample_txid +:+ ":0"))] in
  In (LpWatcher.ClaimUsdc (repeat xaa 32) (repeat x11 32)
        (Some "0x5d41402abc4b2a76b9719d911017c592"))
     (snd (LpWatcher.check_for_reveals sample_world pending))
  /\ In ("0x" +:+ sample_hashlock,
         LpWatcher.set_revealed
           (LpWatcher.set_created (sample_swap 1700014400) (sample_txid +:+ ":0"))
           sample_wrong_preimage
           (Py.truthy_str "0x5d41402abc4b2a76b9719d911017c592"))
        (fst (LpWatcher.check_for_reveals sample_world pending)).
Proof.
  apply (proj1 (proj2 check_for_reveals_claims_reported_preimage) sample_world
           [("0x" +:+ sample_hashlock,
             LpWatcher.set_created (sample_swap 1700014400) (sample_txid +:+ ":0"))]
           ("0x" +:+ sample_hashlock)
           (LpWatcher.set_created (sample_swap 1700014400) (sample_txid +:+ ":0"))
           {| LpWatcher.status := Some "claimed";
              LpWatcher.preimage := Some sample_wrong_preimage;
              LpWatcher.outpoint := Some (sample_txid +:+ ":0") |}
           sample_wrong_preimage (repeat xaa 32) (repeat x11 32)
           "0x5d41402abc4b2a76b9719d911017c592");
    first [now left | vm_compute; reflexivity].
Defined.

(** C3, as stated, fails: the daemon reports the HTLC of [sample_hashlock]
    claimed with a preimage whose SHA-256 is not that hashlock, and the
    watcher sends the USDC claim with it and marks the swap claimed. *)
Lemma lp_claims_usdc_with_unverified_preimage :
  HtlcWrapper.verify_preimage sample_hashlock sample_wrong_preimage = false
  /\ snd (LpWatcher.check_for_reveals sample_world
            (fst (LpWatcher.process_new_lock sample_world [] (sample_lock 1700014400))))
     = [LpWatcher.ClaimUsdc (repeat xaa 32) (repeat x11 32)
          (Some "0x5d41402abc4b2a76b9719d911017c592")]
  /\ map (fun e => (LpWatcher.preimage_revealed (snd e), LpWatcher.usdc_claimed (snd e)))
         (fst (LpWatcher.check_for_reveals sample_world
                 (fst (LpWatcher.process_new_lock sample_world []
                         (sample_lock 1700014400)))))
     = [(sample_wrong_preimage, true)].
Proof. vm_compute. repeat split; reflexivity. Qed.

(** ** Registration of a hashlock *)


Lemma api_register_swap_stores (pending : gmap string Server.SwapInfo) (now : Z)
    (hashlock taker lot_id : string) :
  Py.truthy_str hashlock = true ->
  Py.truthy_str lot_id = true ->
  Py.startswith taker "x" || Py.startswith taker "y" = true ->
  Server.api_register_swap pending now
    (Some {| Server.rq_hashlock := Some hashlock;
             Server.rq_taker_kpiv_addr := Some taker;
             Server.rq_lot_id := Some lot_id |})
  = (<[hashlock := {| Server.si_hashlock := hashlock;
                      Server.si_taker_kpiv_addr := taker;
                      Server.si_lot_id := lot_id;
                      Server.si_registered_at := now;
                      Server.si_kpiv_sent := false;
                      Server.si_swap_id := None |}]> pending,
     Server.Success (Py.take_str 16 hashlock)
       "Swap registered. LP will send KPIV after detecting your USDC lock.").
Proof.
  intros Hh Hl Hp. unfold Server.api_register_swap.
  cbn [Server.rq_hashlock Server.rq_taker_kpiv_addr Server.rq_lot_id].
  assert (Ht : Py.truthy_str taker = true).
  { destruct taker; [discriminate Hp|reflexivity]. }
  rewrite Hh, Hl, Ht, Hp. reflexivity.
Qed.




(** ** The refund boundary *)

(** SDK server: refundable strictly after the timelock. *)
Lemma api_swap_status_open (pending : gmap string Server.SwapInfo)
    (get_htlc_swap : string -> option Server.HtlcSwap) (now : Z)
    (hashlock : string) (htlc : Server.HtlcSwap) :
  get_htlc_swap (Server.polygon_key pending hashlock) = Some htlc ->
  Server.hs_refunded htlc = false ->
  Server.hs_withdrawn htlc = false ->
  Server.st_state (Server.api_swap_status pending get_htlc_swap now hashlock) =
    if Server.hs_timelock htlc <? now then "REFUNDABLE"
    else if Server.kpiv_sent pending hashlock then "CLAIMABLE" else "LOCKED".
Proof.
  intros Hg Hr Hw. unfold Server.api_swap_status. rewrite Hg, Hr, Hw.
  destruct (_ <? now); [reflexivity|].
  destruct (Server.kpiv_sent pending hashlock); reflexivity.
Qed.

(** Swap watcher: the raw fields that decide the taker state, when the
    quote lock is found, no [Claimed] event is, and the LOT (if any) is
    not claimed. *)
Lemma compute_swap_state_quote_locked (w : SwapWatcher.Chains)
    (hashlock lp : string) (htlc : SwapWatcher.EvmHtlc) :
  Py.truthy_str lp = true ->
  SwapWatcher.get_htlc_by_hashlock w hashlock lp = Some htlc ->
  Py.truthy_opt (SwapWatcher.check_htlc_claimed w (SwapWatcher.h_swap_id htlc)) = false ->
  (forall lot, SwapWatcher.get_lot_by_hashlock w hashlock = Some lot ->
               SwapWatcher.lot_status lot <> Some "claimed") ->
  SwapWatcher.taker_state (SwapWatcher.compute_swap_state w hashlock (Some lp)) =
    if SwapWatcher.h_timelock htlc <=? SwapWatcher.time_now w
    then "refundable" else "locked".
Proof.
  intros Hlp Hh Hc Hlot. unfold SwapWatcher.compute_swap_state.
  rewrite taker_state_derive_states, Hlp, Hh.
  assert (Hmax : forall t n, (Z.max 0 (t - n) <=? 0) = (t <=? n)).
  { intros t n. destruct (Z.leb_spec (Z.max 0 (t - n)) 0), (Z.leb_spec t n);
      try reflexivity; lia. }
  destruct (SwapWatcher.get_lot_by_hashlock w hashlock) as [lot|] eqn:Hl.
  - specialize (Hlot lot eq_refl).
    assert (Hs : String.eqb (default "unknown" (SwapWatcher.lot_status lot)) "claimed"
                 = false).
    { destruct (SwapWatcher.lot_status lot) as [st|]; [|reflexivity].
      apply String.eqb_neq. simpl. congruence. }
    destruct (Py.truthy_opt (SwapWatcher.get_lot_secret w hashlock));
      cbn [SwapWatcher.with_htlc SwapWatcher.with_lot SwapWatcher.set_secret
           SwapWatcher.new_state SwapWatcher.piv_lot_status SwapWatcher.secret_revealed
           SwapWatcher.evm_locked SwapWatcher.evm_time_left];
      rewrite Hs, Hc, bool_decide_eq_false_2 by exact Hlot;
      cbn [andb]; rewrite Hmax; reflexivity.
  - destruct (Py.truthy_opt (SwapWatcher.get_lot_secret w hashlock));
      cbn [SwapWatcher.with_htlc SwapWatcher.set_secret
           SwapWatcher.new_state SwapWatcher.piv_lot_status SwapWatcher.secret_revealed
           SwapWatcher.evm_locked SwapWatcher.evm_time_left];
      rewrite Hc; cbn [andb String.eqb Ascii.eqb Bool.eqb];
      rewrite Hmax; reflexivity.
Qed.

(** Native side: with a live status, refundable from the expiry height on
    and claimable below it. *)
Lemma is_refundable_height (rpc : HtlcWrapper.Rpc) (outpoint : string)
    (htlc : gmap string HtlcWrapper.pyval) (e h : Z) :
  HtlcWrapper.get rpc outpoint = Some htlc ->
  HtlcWrapper.in_strs (HtlcWrapper.dict_get htlc "status" HtlcWrapper.PyNone)
    ["claimed"; "refunded"] = false ->
  htlc !! "expiry_height" = Some (HtlcWrapper.PyInt e) ->
  HtlcWrapper.getblockcount rpc = HtlcWrapper.Return h ->
  HtlcWrapper.is_refundable rpc outpoint = HtlcWrapper.Return (e <=? h).
Proof.
  intros Hg Hs He Hh. unfold HtlcWrapper.is_refundable. rewrite Hg.
  assert (Hf : HtlcWrapper.falsy (Some htlc) = false).
  { unfold HtlcWrapper.falsy. apply bool_decide_eq_false_2.
    intros ->. rewrite lookup_empty in He. discriminate. }
  rewrite Hf, Hs, Hh. unfold HtlcWrapper.dict_get at 1. rewrite He.
  cbn [default from_option id HtlcWrapper.int_lt].
  destruct (Z.ltb_spec h e), (Z.leb_spec e h); try reflexivity; lia.
Qed.

Lemma is_claimable_height (rpc : HtlcWrapper.Rpc) (outpoint : string)
    (htlc : gmap string HtlcWrapper.pyval) (e h : Z) :
  HtlcWrapper.get rpc outpoint = Some htlc ->
  HtlcWrapper.in_strs (HtlcWrapper.dict_get htlc "status" HtlcWrapper.PyNone)
    ["pending"; "locked"] = true ->
  htlc !! "expiry_height" = Some (HtlcWrapper.PyInt e) ->
  HtlcWrapper.getblockcount rpc = HtlcWrapper.Return h ->
  HtlcWrapper.is_claimable rpc outpoint = HtlcWrapper.Return (h <? e).
Proof.
  intros Hg Hs He Hh. unfold HtlcWrapper.is_claimable. rewrite Hg.
  assert (Hf : HtlcWrapper.falsy (Some htlc) = false).
  { unfold HtlcWrapper.falsy. apply bool_decide_eq_false_2.
    intros ->. rewrite lookup_empty in He. discriminate. }
  rewrite Hf, Hs, Hh. unfold HtlcWrapper.dict_get at 1. rewrite He.
  cbn [negb default from_option id HtlcWrapper.int_ge].
  destruct (Z.geb_spec h e), (Z.ltb_spec h e); try reflexivity; lia.
Qed.

(** [compute_swap_state] is [derive_states] on the observed fields. *)
Lemma compute_swap_state_observed (w : SwapWatcher.Chains) (hashlock : string)
    (lp_address : option string) :
  SwapWatcher.compute_swap_state w hashlock lp_address
  = SwapWatcher.derive_states (observed_state w hashlock lp_address).
Proof. reflexivity. Qed.

(** The raw fields as the three steps leave them. *)
Lemma observed_state_raw (w : SwapWatcher.Chains) (hashlock : string)
    (lp_address : option string) :
  let s := observed_state w hashlock lp_address in
  SwapWatcher.evm_refunded s = false /\
  SwapWatcher.taker_state s = "browse" /\
  SwapWatcher.lp_state s = "inventory" /\
  0 <= SwapWatcher.evm_time_left s /\
  (SwapWatcher.evm_claimed s = true ->
   SwapWatcher.secret_revealed s = true /\ SwapWatcher.evm_locked s = true) /\
  (SwapWatcher.secret_revealed s = true ->
   SwapWatcher.evm_claimed s = true \/ SwapWatcher.piv_lot_status s = "claimed") /\
  (lp_address = None -> SwapWatcher.evm_locked s = false).
Proof.
  cbv zeta. unfold observed_state.
  destruct (SwapWatcher.get_lot_by_hashlock w hashlock) as [lot|];
    [destruct (bool_decide (SwapWatcher.lot_status lot = Some "claimed")) eqn:Hc|];
    destruct (Py.truthy_opt (SwapWatcher.get_lot_secret w hashlock));
    (destruct lp_address as [lp|];
     [destruct (Py.truthy_str lp);
      [destruct (SwapWatcher.get_htlc_by_hashlock w hashlock lp) as [htlc|];
       [destruct (Py.truthy_opt
                    (SwapWatcher.check_htlc_claimed w (SwapWatcher.h_swap_id htlc)))
          eqn:Hs|]|]|]);
    cbn; rewrite ?Hc, ?Hs; cbn;
    repeat split; try lia; try discriminate; try tauto;
    try (intros _; right;
         apply bool_decide_eq_true in Hc; rewrite Hc; reflexivity).
Qed.

(** Swap watcher: a LOT in status claimed decides the taker state,
    whatever the quote chain and the clock say. *)
Lemma compute_swap_state_lot_claimed (w : SwapWatcher.Chains)
    (hashlock : string) (lp_address : option string) (lot : SwapWatcher.Lot) :
  SwapWatcher.get_lot_by_hashlock w hashlock = Some lot ->
  SwapWatcher.lot_status lot = Some "claimed" ->
  SwapWatcher.taker_state (SwapWatcher.compute_swap_state w hashlock lp_address)
  = "completed".
Proof.
  intros Hl Hs. rewrite compute_swap_state_observed, taker_state_derive_states.
  assert (E : SwapWatcher.piv_lot_status (observed_state w hashlock lp_address)
              = "claimed").
  { unfold observed_state. rewrite Hl.
    destruct (Py.truthy_opt (SwapWatcher.get_lot_secret w hashlock));
      (destruct lp_address as [lp|];
       [destruct (Py.truthy_str lp);
        [destruct (SwapWatcher.get_htlc_by_hashlock w hashlock lp)|]|]);
      cbn; rewrite Hs; reflexivity. }
  rewrite E. reflexivity.
Qed.

(** Swap watcher: with a [Claimed] event for the lock that is found, the
    taker state is claimable, whatever the clock says. *)
Lemma compute_swap_state_quote_claimed (w : SwapWatcher.Chains)
    (hashlock lp : string) (htlc : SwapWatcher.EvmHtlc) :
  Py.truthy_str lp = true ->
  SwapWatcher.get_htlc_by_hashlock w hashlock lp = Some htlc ->
  Py.truthy_opt (SwapWatcher.check_htlc_claimed w (SwapWatcher.h_swap_id htlc)) = true ->
  (forall lot, SwapWatcher.get_lot_by_hashlock w hashlock = Some lot ->
               SwapWatcher.lot_status lot <> Some "claimed") ->
  SwapWatcher.taker_state (SwapWatcher.compute_swap_state w hashlock (Some lp))
  = "claimable".
Proof.
  intros Hlp Hh Hc Hlot. unfold SwapWatcher.compute_swap_state.
  rewrite taker_state_derive_states, Hlp, Hh.
  destruct (SwapWatcher.get_lot_by_hashlock w hashlock) as [lot|] eqn:Hl.
  - specialize (Hlot lot eq_refl).
    assert (Hs : String.eqb (default "unknown" (SwapWatcher.lot_status lot)) "claimed"
                 = false).
    { destruct (SwapWatcher.lot_status lot) as [st|]; [|reflexivity].
      apply String.eqb_neq. simpl. congruence. }
    destruct (Py.truthy_opt (SwapWatcher.get_lot_secret w hashlock));
      cbn [SwapWatcher.with_htlc SwapWatcher.with_lot SwapWatcher.set_secret
           SwapWatcher.new_state SwapWatcher.piv_lot_status SwapWatcher.secret_revealed
           SwapWatcher.evm_locked SwapWatcher.evm_time_left];
      rewrite Hs, Hc; reflexivity.
  - destruct (Py.truthy_opt (SwapWatcher.get_lot_secret w hashlock));
      cbn [SwapWatcher.with_htlc SwapWatcher.set_secret
           SwapWatcher.new_state SwapWatcher.piv_lot_status SwapWatcher.secret_revealed
           SwapWatcher.evm_locked SwapWatcher.evm_time_left];
      rewrite Hc; reflexivity.
Qed.

(** Swap watcher: without an LP address, or when [get_htlc_by_hashlock]
    finds no lock, the taker state is browse or completed. *)
Lemma compute_swap_state_no_lock (w : SwapWatcher.Chains)
    (hashlock : string) (lp_address : option string) :
  (forall lp, lp_address = Some lp -> Py.truthy_str lp = true ->
              SwapWatcher.get_htlc_by_hashlock w hashlock lp = None) ->
  one_of ["browse"; "completed"]
    (SwapWatcher.taker_state (SwapWatcher.compute_swap_state w hashlock lp_address))
  = true.
Proof.
  intros H. rewrite compute_swap_state_observed, taker_state_derive_states.
  pose proof (observed_state_raw w hashlock lp_address) as Hraw.
  cbv zeta in Hraw. destruct Hraw as (_ & -> & _).
  assert (E : SwapWatcher.evm_locked (observed_state w hashlock lp_address) = false).
  { unfold observed_state.
    destruct lp_address as [lp|];
      [destruct (Py.truthy_str lp) eqn:Hlp; [rewrite (H lp eq_refl Hlp)|]|];
      (destruct (SwapWatcher.get_lot_by_hashlock w hashlock) as [lot|]);
      destruct (Py.truthy_opt (SwapWatcher.get_lot_secret w hashlock));
      reflexivity. }
  rewrite E, andb_false_r. cbn [andb].
  destruct (_ =? "claimed")%string; [reflexivity|].
  destruct (Py.truthy_opt _); reflexivity.
Qed.

(** C8, as the code has it.

    SDK server ([api_swap_status]): a quote HTLC that the contract
    returns for the swap and that is neither refunded nor withdrawn is
    reported as refundable strictly after its timelock: not at
    [now = timelock] (the state is CLAIMABLE or LOCKED), and at
    [now = timelock + 1].

    Swap watcher ([compute_swap_state]): for a quote lock that
    [get_htlc_by_hashlock] finds under a non-empty LP address, with no
    [Claimed] event found for it and the LOT absent or in a status other
    than claimed, the taker state is refundable already at
    [now = timelock], and locked one second before.  In the other cases
    the clock decides nothing: with the LOT in status claimed the taker
    state is completed; with a [Claimed] event found and the LOT not
    claimed it is claimable; without an LP address, or when no lock is
    found, it is browse or completed.

    Native side ([is_refundable]): for an HTLC that [htlc_get] returns,
    with an integer [expiry_height] and a status that is neither claimed
    nor refunded, the answer is true at the expiry height itself and
    false one block before. *)
Theorem refund_boundaries :
  (forall (pending : gmap string Server.SwapInfo)
          (get_htlc_swap : string -> option Server.HtlcSwap)
          (hashlock : string) (htlc : Server.HtlcSwap),
      get_htlc_swap (Server.polygon_key pending hashlock) = Some htlc ->
      Server.hs_refunded htlc = false ->
      Server.hs_withdrawn htlc = false ->
      Server.st_state
        (Server.api_swap_status pending get_htlc_swap (Server.hs_timelock htlc) hashlock)
      = (if Server.kpiv_sent pending hashlock then "CLAIMABLE" else "LOCKED")
      /\ Server.st_state
           (Server.api_swap_status pending get_htlc_swap
              (Server.hs_timelock htlc + 1) hashlock)
         = "REFUNDABLE")
  /\ (forall (w : SwapWatcher.Chains) (hashlock lp : string)
             (htlc : SwapWatcher.EvmHtlc),
      Py.truthy_str lp = true ->
      SwapWatcher.get_htlc_by_hashlock w hashlock lp = Some htlc ->
      Py.truthy_opt (SwapWatcher.check_htlc_claimed w (SwapWatcher.h_swap_id htlc))
      = false ->
      (forall lot, SwapWatcher.get_lot_by_hashlock w hashlock = Some lot ->
                   SwapWatcher.lot_status lot <> Some "claimed") ->
      (SwapWatcher.time_now w = SwapWatcher.h_timelock htlc ->
       SwapWatcher.taker_state (SwapWatcher.compute_swap_state w hashlock (Some lp))
       = "refundable")
      /\ (SwapWatcher.time_now w + 1 = SwapWatcher.h_timelock htlc ->
          SwapWatcher.taker_state (SwapWatcher.compute_swap_state w hashlock (Some lp))
          = "locked"))
  /\ (forall (rpc : HtlcWrapper.Rpc) (outpoint : string)
             (htlc : gmap string HtlcWrapper.pyval) (e : Z),
      HtlcWrapper.get rpc outpoint = Some htlc ->
      HtlcWrapper.in_strs (HtlcWrapper.dict_get htlc "status" HtlcWrapper.PyNone)
        ["claimed"; "refunded"] = false ->
      htlc !! "expiry_height" = Some (HtlcWrapper.PyInt e) ->
      (HtlcWrapper.getblockcount rpc = HtlcWrapper.Return e ->
       HtlcWrapper.is_refundable rpc outpoint = HtlcWrapper.Return true)
      /\ (HtlcWrapper.getblockcount rpc = HtlcWrapper.Return (e - 1) ->
          HtlcWrapper.is_refundable rpc outpoint = HtlcWrapper.Return false))
  /\ (forall (w : SwapWatcher.Chains) (hashlock : string)
             (lp_address : option string) (lot : SwapWatcher.Lot),
      SwapWatcher.get_lot_by_hashlock w hashlock = Some lot ->
      SwapWatcher.lot_status lot = Some "claimed" ->
      SwapWatcher.taker_state (SwapWatcher.compute_swap_state w hashlock lp_address)
      = "completed")
  /\ (forall (w : SwapWatcher.Chains) (hashlock lp : string)
             (htlc : SwapWatcher.EvmHtlc),
      Py.truthy_str lp = true ->
      SwapWatcher.get_htlc_by_hashlock w hashlock lp = Some htlc ->
      Py.truthy_opt (SwapWatcher.check_htlc_claimed w (SwapWatcher.h_swap_id htlc))
      = true ->
      (forall lot, SwapWatcher.get_lot_by_hashlock w hashlock = Some lot ->
                   SwapWatcher.lot_status lot <> Some "claimed") ->
      SwapWatcher.taker_state (SwapWatcher.compute_swap_state w hashlock (Some lp))
      = "claimable")
  /\ (forall (w : SwapWatcher.Chains) (hashlock : string)
             (lp_address : option string),
      (forall lp, lp_address = Some lp -> Py.truthy_str lp = true ->
                  SwapWatcher.get_htlc_by_hashlock w hashlock lp = None) ->
      one_of ["browse"; "completed"]
        (SwapWatcher.taker_state (SwapWatcher.compute_swap_state w hashlock lp_address))
      = true).
Proof.
  split; [|split; [|split; [|split; [|split]]]].
  - intros pending get_htlc_swap hashlock htlc Hg Hr Hw.
    rewrite !(api_swap_status_open _ _ _ _ htlc) by assumption.
    rewrite Z.ltb_irrefl.
    destruct (Z.ltb_spec (Server.hs_timelock htlc) (Server.hs_timelock htlc + 1));
      [auto|lia].
  - intros w hashlock lp htlc Hlp Hh Hc Hlot.
    rewrite (compute_swap_state_quote_locked _ _ _ htlc) by assumption.
    split; intros E.
    + rewrite E, Z.leb_refl. reflexivity.
    + destruct (Z.leb_spec (SwapWatcher.h_timelock htlc) (SwapWatcher.time_now w));
        [lia|reflexivity].
  - intros rpc outpoint htlc e Hg Hs He. split; intros Hh.
    + rewrite (is_refundable_height _ _ htlc e e) by assumption.
      now rewrite Z.leb_refl.
    + rewrite (is_refundable_height _ _ htlc e (e - 1)) by assumption.
      destruct (Z.leb_spec e (e - 1)); [lia|reflexivity].
  - exact compute_swap_state_lot_claimed.
  - exact compute_swap_state_quote_claimed.
  - exact compute_swap_state_no_lock.
Qed.

Lemma refund_boundaries_witness :
  (Server.st_state
     (Server.api_swap_status ∅ (open_swap 1700014400) 1700014400 sample_hashlock)
   = "LOCKED"
   /\ Server.st_state
        (Server.api_swap_status ∅ (open_swap 1700014400) (1700014400 + 1)
           sample_hashlock)
      = "REFUNDABLE")
  /\ SwapWatcher.taker_state
       (SwapWatcher.compute_swap_state (sample_chains "locked" 1700014400 1700014400)
          sample_hashlock (Some sample_lp_address))
     = "refundable"
  /\ SwapWatcher.taker_state
       (SwapWatcher.compute_swap_state (sample_chains "locked" 1700014400 1700014399)
          sample_hashlock (Some sample_lp_address))
     = "locked"
  /\ HtlcWrapper.is_refundable (sample_rpc "locked" 1000 1000) "txid:0"
     = HtlcWrapper.Return true
  /\ HtlcWrapper.is_refundable (sample_rpc "locked" 1000 999) "txid:0"
     = HtlcWrapper.Return false
  /\ SwapWatcher.taker_state
       (SwapWatcher.compute_swap_state (sample_chains "claimed" 1700014400 1700014400)
          sample_hashlock (Some sample_lp_address))
     = "completed"
  /\ SwapWatcher.taker_state
       (SwapWatcher.compute_swap_state sample_chains_claimed
          sample_hashlock (Some sample_lp_address))
     = "claimable"
  /\ one_of ["browse"; "completed"]
       (SwapWatcher.taker_state
          (SwapWatcher.compute_swap_state (sample_chains "locked" 1700014400 1700014400)
             sample_hashlock None))
     = true.
Proof.
  destruct refund_boundaries
    as (Hserver & Hwatcher & Hnative & Hcompleted & Hclaimable & Hbrowse).
  pose (quote :=
    {| SwapWatcher.h_swap_id := "0x01"; SwapWatcher.h_amount := 5%float;
       SwapWatcher.h_timelock := 1700014400 |}).
  pose (native :=
    <["expiry_height" := HtlcWrapper.PyInt 1000]>
      ({["status" := HtlcWrapper.PyStr "locked"]} : gmap string HtlcWrapper.pyval)).
  split; [|split; [|split; [|split; [|split; [|split; [|split]]]]]].
  - exact (Hserver ∅ (open_swap 1700014400) sample_hashlock
             {| Server.hs_timelock := 1700014400; Server.hs_withdrawn := false;
                Server.hs_refunded := false |} eq_refl eq_refl eq_refl).
  - refine (proj1 (Hwatcher (sample_chains "locked" 1700014400 1700014400)
                     sample_hashlock sample_lp_address quote _ _ _ _) _);
      try reflexivity.
    intros lot [= <-]. discriminate.
  - refine (proj2 (Hwatcher (sample_chains "locked" 1700014400 1700014399)
                     sample_hashlock sample_lp_address quote _ _ _ _) _);
      try reflexivity.
    intros lot [= <-]. discriminate.
  - refine (proj1 (Hnative (sample_rpc "locked" 1000 1000) "txid:0" native 1000
                     _ _ _) _); vm_compute; reflexivity.
  - refine (proj2 (Hnative (sample_rpc "locked" 1000 999) "txid:0" native 1000
                     _ _ _) _); vm_compute; reflexivity.
  - eapply Hcompleted; reflexivity.
  - apply (Hclaimable sample_chains_claimed sample_hashlock sample_lp_address quote);
      try reflexivity.
    intros lot [= <-]. discriminate.
  - apply Hbrowse. discriminate.
Defined.

(** C8, as stated, fails: at [now = quote_timelock] exactly the swap
    watcher already derives taker = refundable, and at a block height
    equal to the expiry height [is_refundable] is already true. *)
Lemma refundable_at_the_timelock_itself :
  SwapWatcher.taker_state
    (SwapWatcher.compute_swap_state (sample_chains "locked" 1700014400 1700014400)
       sample_hashlock (Some sample_lp_address))
  = "refundable"
  /\ HtlcWrapper.is_refundable (sample_rpc "locked" 1000 1000) "txid:0"
     = HtlcWrapper.Return true
  /\ HtlcWrapper.is_claimable (sample_rpc "locked" 1000 1000) "txid:0"
     = HtlcWrapper.Return false.
Proof. vm_compute. repeat split; reflexivity. Qed.

(** The assertion reads [T_KPIV_SECONDS], not [T_KPIV_BLOCKS]: a
    configuration that raises the block count alone still loads. *)
Example module_load_ignores_blocks :
  Server.module_load
    {| Server.T_KPIV_SECONDS := 7200; Server.T_USDC_SECONDS := 14400;
       Server.T_BUFFER_SECONDS := 1800; Server.T_KPIV_BLOCKS := 300;
       Server.T_USDC_BLOCKS := 240 |}
  = Server.Loaded.
Proof. reflexivity. Qed.

(* ===================================================================== *)
(** ** sdk/lot_sizes.py: the greedy split *)
(* ===================================================================== *)

Lemma sum_from (l : list Z) (a : Z) : fold_left Z.add l a = a + LotSizes.sum l.
Proof.
  unfold LotSizes.sum. revert a.
  induction l as [|x l IH]; intros a; cbn [fold_left]; [lia|].
  rewrite (IH (a + x)), (IH (0 + x)). lia.
Qed.

Lemma sum_cons (x : Z) (l : list Z) : LotSizes.sum (x :: l) = x + LotSizes.sum l.
Proof. unfold LotSizes.sum at 1. simpl. apply sum_from. Qed.

Lemma sum_app (l r : list Z) :
  LotSizes.sum (l ++ r) = LotSizes.sum l + LotSizes.sum r.
Proof.
  induction l as [|x l IH]; simpl; [reflexivity|].
  rewrite !sum_cons, IH. lia.
Qed.

Lemma sum_repeat (x : Z) (n : nat) :
  LotSizes.sum (repeat x n) = Z.of_nat n * x.
Proof.
  induction n as [|n IH]; [reflexivity|].
  cbn [repeat]. rewrite sum_cons, IH. lia.
Qed.

Lemma repeat_snoc {A : Type} (x : A) (n : nat) :
  (repeat x n ++ [x])%list = x :: repeat x n.
Proof. induction n as [|n IH]; simpl; [reflexivity|]. now rewrite IH. Qed.

(** The inner [while] loop, given enough turns, appends [remaining //
    size] copies of [size] and leaves [remaining % size]. *)
Lemma take_lots_spec (fuel : nat) (size : Z) (lots : list Z) (remaining : Z) :
  0 < size -> 0 <= remaining -> remaining / size <= Z.of_nat fuel ->
  LotSizes.take_lots fuel size lots remaining
  = ((lots ++ repeat size (Z.to_nat (remaining / size)))%list,
     remaining mod size).
Proof.
  intros Hs. revert lots remaining.
  induction fuel as [|k IH]; intros lots remaining Hr Hf.
  - assert (H0 : remaining / size = 0)
      by (pose proof (Z.div_pos remaining size Hr Hs); lia).
    apply Z.div_small_iff in H0; [|lia].
    cbn [LotSizes.take_lots].
    rewrite Z.div_small, Z.mod_small by lia.
    simpl. now rewrite app_nil_r.
  - cbn [LotSizes.take_lots].
    destruct (remaining >=? size) eqn:E.
    + apply Z.geb_le in E.
      assert (Hd : remaining / size = (remaining - size) / size + 1).
      { replace remaining with ((remaining - size) + 1 * size) at 1 by lia.
        rewrite Z.div_add by lia. reflexivity. }
      assert (Hm : remaining mod size = (remaining - size) mod size).
      { replace remaining with ((remaining - size) + 1 * size) at 1 by lia.
        now rewrite Z.mod_add by lia. }
      rewrite IH by lia.
      rewrite Hd, Hm.
      pose proof (Z.div_pos (remaining - size) size ltac:(lia) Hs).
      rewrite Z2Nat.inj_add by lia.
      change (Z.to_nat 1) with 1%nat.
      rewrite Nat.add_1_r. cbn [repeat].
      rewrite <- app_assoc. cbn [app]. reflexivity.
    + assert (remaining < size) by (destruct (Z.geb_spec remaining size); [discriminate|lia]).
      rewrite Z.div_small, Z.mod_small by lia.
      simpl. now rewrite app_nil_r.
Qed.

Lemma take_lots_remaining (size : Z) (lots : list Z) (remaining : Z) :
  0 < size -> 0 <= remaining ->
  LotSizes.take_lots (Z.to_nat remaining) size lots remaining
  = ((lots ++ repeat size (Z.to_nat (remaining / size)))%list,
     remaining mod size).
Proof.
  intros Hs Hr. apply take_lots_spec; try assumption.
  rewrite Z2Nat.id by assumption.
  apply Z.div_le_upper_bound; nia.
Qed.

Lemma split_loop_greedy (amount : Z) :
  0 <= amount -> LotSizes.split_loop amount = (greedy amount, 0).
Proof.
  intros Ha. unfold LotSizes.split_loop, LotSizes.STANDARD_SIZES.
  cbn [fold_left fst snd].
  rewrite (take_lots_remaining 10000 [] amount) by lia. cbn [fst snd].
  pose proof (Z.mod_pos_bound amount 10000 ltac:(lia)).
  rewrite (take_lots_remaining 1000 _ (amount mod 10000)) by lia.
  cbn [fst snd].
  pose proof (Z.mod_pos_bound (amount mod 10000) 1000 ltac:(lia)).
  rewrite (take_lots_remaining 100 _ ((amount mod 10000) mod 1000)) by lia.
  cbn [fst snd].
  pose proof (Z.mod_pos_bound ((amount mod 10000) mod 1000) 100 ltac:(lia)).
  rewrite (take_lots_remaining 10 _ (((amount mod 10000) mod 1000) mod 100))
    by lia.
  cbn [fst snd].
  pose proof (Z.mod_pos_bound (((amount mod 10000) mod 1000) mod 100) 10
                ltac:(lia)).
  rewrite (take_lots_remaining 1 _
             ((((amount mod 10000) mod 1000) mod 100) mod 10)) by lia.
  cbn [fst snd].
  replace ((amount mod 10000) mod 1000) with (amount mod 1000)
    by (Z.div_mod_to_equations; lia).
  replace ((amount mod 1000) mod 100) with (amount mod 100)
    by (Z.div_mod_to_equations; lia).
  replace ((amount mod 100) mod 10) with (amount mod 10)
    by (Z.div_mod_to_equations; lia).
  rewrite Z.mod_1_r, Z.div_1_r.
  unfold greedy. cbn [app]. rewrite <- !app_assoc. reflexivity.
Qed.

Lemma split_amount_greedy (amount : Z) :
  0 < amount -> LotSizes.split_amount amount = LotSizes.Ok (greedy amount).
Proof.
  intros Ha. unfold LotSizes.split_amount.
  destruct (Z.leb_spec amount 0); [lia|].
  rewrite split_loop_greedy by lia. reflexivity.
Qed.

Lemma split_amount_nonpositive (amount : Z) :
  amount <= 0 ->
  LotSizes.split_amount amount
  = LotSizes.ValueError ("Amount must be positive, got " +:+ pretty amount).
Proof.
  intros Ha. unfold LotSizes.split_amount.
  destruct (Z.leb_spec amount 0); [reflexivity|lia].
Qed.

Lemma forallb_repeat {A : Type} (f : A -> bool) (x : A) (n : nat) :
  f x = true -> forallb f (repeat x n) = true.
Proof. intros H. induction n as [|n IH]; simpl; [reflexivity|]. now rewrite H. Qed.

Lemma non_increasing_repeat_app (x : Z) (n : nat) (l : list Z) :
  Forall (fun y => y <= x) l -> non_increasing l = true ->
  non_increasing (repeat x n ++ l) = true.
Proof.
  intros Hb Hl. induction n as [|n IH]; [exact Hl|].
  cbn [repeat app non_increasing].
  destruct (repeat x n ++ l)%list as [|y r] eqn:E; [reflexivity|].
  rewrite IH, andb_true_r. apply Z.leb_le.
  destruct n as [|n]; simpl in E.
  - subst l. now inversion Hb.
  - injection E as <- _. lia.
Qed.

Lemma Forall_le_repeat_app (b x : Z) (n : nat) (l : list Z) :
  x <= b -> Forall (fun y => y <= b) l ->
  Forall (fun y => y <= b) (repeat x n ++ l).
Proof.
  intros Hx Hl. apply Forall_app. split; [|exact Hl].
  induction n; simpl; constructor; assumption.
Qed.

Lemma non_increasing_greedy (amount : Z) : non_increasing (greedy amount) = true.
Proof.
  unfold greedy.
  repeat (apply non_increasing_repeat_app;
          [repeat (apply Forall_le_repeat_app; [lia|]);
           rewrite <- (app_nil_r (repeat _ _));
           apply Forall_le_repeat_app; [lia|constructor] |]).
  rewrite <- (app_nil_r (repeat _ _)).
  apply non_increasing_repeat_app; [constructor|reflexivity].
Qed.

Lemma standard_greedy (amount : Z) :
  forallb LotSizes.is_standard_size (greedy amount) = true.
Proof.
  unfold greedy. rewrite !forallb_app.
  rewrite !forallb_repeat by reflexivity. reflexivity.
Qed.

Lemma sum_greedy (amount : Z) : 0 <= amount -> LotSizes.sum (greedy amount) = amount.
Proof.
  intros Ha. unfold greedy. rewrite !sum_app, !sum_repeat.
  rewrite !Z2Nat.id by (Z.div_mod_to_equations; lia).
  Z.div_mod_to_equations; lia.
Qed.

(** X2.  [split_amount] raises the ValueError exactly for an amount that
    is not positive.  For a positive amount it returns lots that are all
    standard sizes, add up to the amount, and come largest first. *)
Theorem split_amount_sound (amount : Z) :
  match LotSizes.split_amount amount with
  | LotSizes.Ok lots =>
      0 < amount /\ LotSizes.sum lots = amount /\
      forallb LotSizes.is_standard_size lots = true /\
      non_increasing lots = true
  | LotSizes.ValueError _ => amount <= 0
  end.
Proof.
  destruct (Z.le_gt_cases amount 0) as [Ha|Ha].
  - now rewrite split_amount_nonpositive.
  - rewrite split_amount_greedy by lia.
    repeat split; [lia | apply sum_greedy; lia | apply standard_greedy
                  | apply non_increasing_greedy].
Qed.

Lemma len_app {A : Type} (l r : list A) :
  LotSizes.len (l ++ r) = LotSizes.len l + LotSizes.len r.
Proof. unfold LotSizes.len. rewrite length_app. lia. Qed.

Lemma len_repeat {A : Type} (x : A) (n : nat) :
  LotSizes.len (repeat x n) = Z.of_nat n.
Proof. unfold LotSizes.len. now rewrite repeat_length. Qed.

Lemma len_greedy (amount : Z) :
  0 <= amount -> LotSizes.len (greedy amount) = digit_sum amount.
Proof.
  intros Ha. unfold greedy, digit_sum, lot_digits.
  rewrite !len_app, !len_repeat.
  rewrite !Z2Nat.id by (Z.div_mod_to_equations; lia).
  cbn [map snd]. rewrite !sum_cons. change (LotSizes.sum []) with 0.
  Z.div_mod_to_equations; lia.
Qed.

(** X3.  The number of lots of an amount is the sum of its last four
    decimal digits plus the number of whole ten-thousands. *)
Theorem count_lots_digit_sum (amount : Z) :
  LotSizes.count_lots amount
  = if amount <=? 0
    then LotSizes.ValueError ("Amount must be positive, got " +:+ pretty amount)
    else LotSizes.Ok (amount / 10000 + amount / 1000 mod 10 +
                      amount / 100 mod 10 + amount / 10 mod 10 +
                      amount mod 10).
Proof.
  unfold LotSizes.count_lots.
  destruct (Z.leb_spec amount 0) as [Ha|Ha].
  - now rewrite split_amount_nonpositive.
  - rewrite split_amount_greedy by lia. f_equal.
    rewrite len_greedy by lia. unfold digit_sum, lot_digits.
    cbn [map snd]. rewrite !sum_cons. change (LotSizes.sum []) with 0. lia.
Qed.

Lemma standard_cases (x : Z) :
  LotSizes.is_standard_size x = true ->
  x = 10000 \/ x = 1000 \/ x = 100 \/ x = 10 \/ x = 1.
Proof.
  unfold LotSizes.is_standard_size, LotSizes.STANDARD_SIZES.
  cbn [existsb]. rewrite !orb_true_iff, !Z.eqb_eq. intuition discriminate.
Qed.

(** Whatever standard sizes are put together, they are at least as many
    as the digit sum of their total. *)
Lemma digit_sum_least (l : list Z) :
  forallb LotSizes.is_standard_size l = true ->
  0 <= LotSizes.sum l /\ digit_sum (LotSizes.sum l) <= LotSizes.len l.
Proof.
  unfold digit_sum, lot_digits. cbn [map snd].
  rewrite !sum_cons. change (LotSizes.sum []) with 0.
  induction l as [|x l IH]; intros Hl.
  - change (LotSizes.sum []) with 0. change (LotSizes.len (@nil Z)) with 0.
    split; [lia|reflexivity].
  - cbn [forallb] in Hl. apply andb_true_iff in Hl as [Hx Hl].
    specialize (IH Hl). destruct IH as [H0 IH].
    rewrite sum_cons.
    replace (LotSizes.len (x :: l)) with (1 + LotSizes.len l)
      by (unfold LotSizes.len; cbn [length]; lia).
    set (s := LotSizes.sum l) in *. set (n := LotSizes.len l) in *.
    clearbody s n.
    apply standard_cases in Hx.
    destruct Hx as [->|[->|[->|[->| ->]]]];
      (split; [lia|]); Z.div_mod_to_equations; lia.
Qed.

(** X4.  The greedy split is a smallest one: no list of standard sizes
    with the same total has fewer lots. *)
Theorem split_amount_fewest_lots (amount : Z) (lots other : list Z) :
  LotSizes.split_amount amount = LotSizes.Ok lots ->
  forallb LotSizes.is_standard_size other = true ->
  LotSizes.sum other = amount ->
  (length lots <= length other)%nat.
Proof.
  intros Hs Ho Hsum.
  destruct (Z.le_gt_cases amount 0) as [Ha|Ha].
  - rewrite split_amount_nonpositive in Hs by lia. discriminate.
  - rewrite split_amount_greedy in Hs by lia. injection Hs as <-.
    pose proof (len_greedy amount ltac:(lia)) as Hg.
    pose proof (digit_sum_least other Ho) as [_ Hd].
    rewrite Hsum in Hd. unfold LotSizes.len in *. lia.
Qed.

Lemma split_amount_fewest_lots_witness :
  let lots : list Z := [100; 10; 10; 1] in
  let other : list Z := [10; 10; 10; 10; 10; 10; 10; 10; 10; 10; 10; 10; 1] in
  LotSizes.split_amount 121 = LotSizes.Ok lots /\
  (length lots <= length other)%nat.
Proof.
  split; [reflexivity|].
  apply (split_amount_fewest_lots 121); reflexivity.
Defined.

(* ===================================================================== *)
(** ** sdk/lot_sizes.py: grouping and validation *)
(* ===================================================================== *)

Lemma fold_group_same (x : Z) (n : nat) (g : list (Z * Z)) (cc : Z) :
  fold_left LotSizes.group_step (repeat x n) (g, Some x, cc)
  = (g, Some x, cc + Z.of_nat n).
Proof.
  revert cc. induction n as [|n IH]; intros cc.
  - cbn [repeat fold_left]. f_equal; lia.
  - cbn [repeat fold_left LotSizes.group_step].
    rewrite Z.eqb_refl, IH. f_equal; lia.
Qed.

Lemma fold_group_other (x c : Z) (n : nat) (g : list (Z * Z)) (cc : Z) :
  c <> x ->
  fold_left LotSizes.group_step (repeat x (S n)) (g, Some c, cc)
  = ((g ++ [(c, cc)])%list, Some x, Z.of_nat (S n)).
Proof.
  intros Hc. cbn [repeat fold_left LotSizes.group_step].
  destruct (Z.eqb_spec x c); [congruence|].
  rewrite fold_group_same. f_equal; lia.
Qed.

Lemma fold_group_none (x : Z) (n : nat) (g : list (Z * Z)) (cc : Z) :
  fold_left LotSizes.group_step (repeat x (S n)) (g, None, cc)
  = (g, Some x, Z.of_nat (S n)).
Proof.
  cbn [repeat fold_left LotSizes.group_step].
  rewrite fold_group_same. f_equal; lia.
Qed.

Lemma used_S (x : Z) (n : nat) : used (x, Z.of_nat (S n)) = true.
Proof. unfold used. cbn [snd]. destruct (Z.eqb_spec (Z.of_nat (S n)) 0); [lia|reflexivity]. Qed.

Lemma group_lots_segments (n1 n2 n3 n4 n5 : nat) :
  LotSizes.group_lots
    (repeat 10000 n1 ++ repeat 1000 n2 ++ repeat 100 n3 ++ repeat 10 n4 ++
     repeat 1 n5)
  = filter used
      [(10000, Z.of_nat n1); (1000, Z.of_nat n2); (100, Z.of_nat n3);
       (10, Z.of_nat n4); (1, Z.of_nat n5)].
Proof.
  unfold LotSizes.group_lots.
  destruct n1, n2, n3, n4, n5;
    repeat match goal with
           | |- context [(repeat ?x O ++ ?l)%list] =>
               change (repeat x O ++ l)%list with l
           | |- context [repeat ?x O] => change (repeat x O) with (@nil Z)
           end;
    rewrite ?fold_left_app;
    repeat first [ rewrite fold_group_none
                 | rewrite fold_group_other by lia ];
    cbn [fold_left filter];
    rewrite ?used_S; reflexivity.
Qed.

(** X5.  [split_amount_grouped] lists, largest size first, every standard
    size that the amount uses together with the number of lots of that
    size: the corresponding decimal digit of the amount (everything from
    the fifth digit on for the size 10000).  Sizes with no lot are left
    out, and a non-positive amount raises the ValueError of
    [split_amount]. *)
Theorem split_amount_grouped_digits (amount : Z) :
  LotSizes.split_amount_grouped amount
  = if amount <=? 0
    then LotSizes.ValueError ("Amount must be positive, got " +:+ pretty amount)
    else LotSizes.Ok (filter used (lot_digits amount)).
Proof.
  unfold LotSizes.split_amount_grouped.
  destruct (Z.leb_spec amount 0) as [Ha|Ha].
  - now rewrite split_amount_nonpositive.
  - rewrite split_amount_greedy by lia. f_equal.
    unfold greedy. rewrite group_lots_segments.
    rewrite !Z2Nat.id by (Z.div_mod_to_equations; lia).
    unfold lot_digits.
    replace (amount mod 10000 / 1000) with (amount / 1000 mod 10)
      by (Z.div_mod_to_equations; lia).
    replace (amount mod 1000 / 100) with (amount / 100 mod 10)
      by (Z.div_mod_to_equations; lia).
    replace (amount mod 100 / 10) with (amount / 10 mod 10)
      by (Z.div_mod_to_equations; lia).
    reflexivity.
Qed.

(** X6.  [is_standard_size] holds exactly for the amounts that
    [split_amount] leaves as one lot. *)
Theorem is_standard_size_single_lot (amount : Z) :
  LotSizes.is_standard_size amount = true
  <-> LotSizes.split_amount amount = LotSizes.Ok [amount].
Proof.
  split.
  - intros H. apply standard_cases in H.
    destruct H as [->|[->|[->|[->| ->]]]]; reflexivity.
  - intros H. destruct (Z.le_gt_cases amount 0) as [Ha|Ha].
    + rewrite split_amount_nonpositive in H by lia. discriminate.
    + rewrite split_amount_greedy in H by lia. injection H as H.
      pose proof (standard_greedy amount) as Hf. rewrite H in Hf.
      cbn [forallb] in Hf. now apply andb_true_iff in Hf as [Hf _].
Qed.

Lemma insert_sorted_perm (x : Z * Z * Z) (l : list (Z * Z * Z)) :
  Permutation (LotSizes.insert_sorted x l) (x :: l).
Proof.
  induction l as [|y r IH]; cbn [LotSizes.insert_sorted]; [reflexivity|].
  destruct (LotSizes.key_le x y); [reflexivity|].
  rewrite IH. apply perm_swap.
Qed.

Lemma sort_perm (l : list (Z * Z * Z)) : Permutation (LotSizes.sort l) l.
Proof.
  induction l as [|x l IH]; [reflexivity|].
  unfold LotSizes.sort in *. cbn [fold_right].
  rewrite insert_sorted_perm. now rewrite IH.
Qed.

Lemma key_le_total (x y : Z * Z * Z) :
  LotSizes.key_le x y = false -> LotSizes.key_le y x = true.
Proof.
  destruct x as [[d1 t1] n1], y as [[d2 t2] n2]. unfold LotSizes.key_le.
  rewrite orb_false_iff, andb_false_iff, orb_true_iff, andb_true_iff.
  rewrite !Z.ltb_ge, !Z.ltb_lt, !Z.eqb_eq, !Z.eqb_neq, !Z.leb_gt, !Z.leb_le.
  lia.
Qed.

Lemma sorted_keys_cons (x y : Z * Z * Z) (r : list (Z * Z * Z)) :
  sorted_keys (x :: y :: r) = LotSizes.key_le x y && sorted_keys (y :: r).
Proof. reflexivity. Qed.

Lemma sorted_keys_insert (x : Z * Z * Z) (l : list (Z * Z * Z)) :
  sorted_keys l = true -> sorted_keys (LotSizes.insert_sorted x l) = true.
Proof.
  induction l as [|y r IH]; intros Hl; [reflexivity|].
  cbn [LotSizes.insert_sorted].
  destruct (LotSizes.key_le x y) eqn:E.
  - now rewrite sorted_keys_cons, E, Hl.
  - apply key_le_total in E.
    destruct r as [|z r'].
    + cbn [LotSizes.insert_sorted]. now rewrite sorted_keys_cons, E.
    + rewrite sorted_keys_cons in Hl. apply andb_true_iff in Hl as [Hyz Hr].
      specialize (IH Hr). cbn [LotSizes.insert_sorted] in *.
      destruct (LotSizes.key_le x z) eqn:E2.
      * now rewrite sorted_keys_cons, E, IH.
      * now rewrite sorted_keys_cons, Hyz, IH.
Qed.

Lemma sorted_keys_sort (l : list (Z * Z * Z)) : sorted_keys (LotSizes.sort l) = true.
Proof.
  induction l as [|x l IH]; [reflexivity|].
  unfold LotSizes.sort in *. cbn [fold_right].
  now apply sorted_keys_insert.
Qed.

Lemma sorted_keys_firstn (n : nat) (l : list (Z * Z * Z)) :
  sorted_keys l = true -> sorted_keys (firstn n l) = true.
Proof.
  revert l. induction n as [|n IH]; intros l Hl; [reflexivity|].
  destruct l as [|x [|y r]]; [reflexivity|now destruct n|].
  rewrite sorted_keys_cons in Hl. apply andb_true_iff in Hl as [Hxy Hr].
  specialize (IH _ Hr). destruct n as [|n]; [reflexivity|].
  change (firstn (S (S n)) (x :: y :: r)) with (x :: y :: firstn n r).
  change (firstn (S n) (y :: r)) with (y :: firstn n r) in IH.
  now rewrite sorted_keys_cons, Hxy, IH.
Qed.

(** What [suggest_clean_amounts] records for a candidate. *)
Lemma candidate_Some (amount max_lots delta : Z) (e : Z * Z * Z) :
  LotSizes.candidate amount max_lots delta = Some e ->
  e = (Z.abs delta, amount + delta, digit_sum (amount + delta)) /\
  0 < amount + delta /\ digit_sum (amount + delta) <= max_lots.
Proof.
  unfold LotSizes.candidate.
  destruct (Z.gtb_spec (amount + delta) 0) as [Ht|]; [|discriminate].
  rewrite split_amount_greedy by lia.
  rewrite len_greedy by lia.
  destruct (Z.leb_spec (digit_sum (amount + delta)) max_lots); [|discriminate].
  intros [= <-]. repeat split; lia.
Qed.

Lemma Forall_range (a b : Z) : Forall (fun d => a <= d < b) (LotSizes.range a b).
Proof.
  unfold LotSizes.range. apply Forall_forall. intros d Hd.
  apply list_elem_of_fmap in Hd as (i & -> & Hi).
  apply elem_of_seq in Hi. lia.
Qed.

Lemma NoDup_range (a b : Z) : NoDup (LotSizes.range a b).
Proof.
  unfold LotSizes.range. apply NoDup_fmap_2; [|apply NoDup_seq].
  intros i j. lia.
Qed.

Lemma omap_candidate_recorded (amount max_lots search_range : Z) (l : list Z) :
  Forall (fun d => - search_range <= d < search_range + 1) l ->
  Forall (recorded amount max_lots search_range)
         (omap (LotSizes.candidate amount max_lots) l).
Proof.
  induction 1 as [|d l Hd _ IH]; [constructor|].
  cbn [omap list_omap].
  destruct (LotSizes.candidate amount max_lots d) as [e|] eqn:E; [|exact IH].
  constructor; [|exact IH].
  apply candidate_Some in E as (-> & Hp & Hm).
  exists d. repeat split; lia.
Qed.

Lemma omap_candidate_amounts (amount max_lots : Z) (l : list Z) (t : Z) :
  t ∈ map (fun s : Z * Z * Z => snd (fst s))
        (omap (LotSizes.candidate amount max_lots) l) ->
  exists d, d ∈ l /\ t = amount + d.
Proof.
  induction l as [|d l IH]; cbn [omap list_omap].
  - intros H. inversion H.
  - destruct (LotSizes.candidate amount max_lots d) as [e|] eqn:E.
    + cbn [map]. intros H. apply elem_of_cons in H as [->|H].
      * apply candidate_Some in E as (-> & _). exists d. split; [left|reflexivity].
      * destruct (IH H) as (d' & Hd' & ->). exists d'. split; [now right|reflexivity].
    + intros H. destruct (IH H) as (d' & Hd' & ->).
      exists d'. split; [now right|reflexivity].
Qed.

Lemma omap_candidate_NoDup (amount max_lots : Z) (l : list Z) :
  NoDup l ->
  NoDup (map (fun s : Z * Z * Z => snd (fst s))
             (omap (LotSizes.candidate amount max_lots) l)).
Proof.
  induction 1 as [|d l Hd _ IH]; cbn [omap list_omap]; [constructor|].
  destruct (LotSizes.candidate amount max_lots d) as [e|] eqn:E; [|exact IH].
  cbn [map]. constructor; [|exact IH].
  intros Hin. apply omap_candidate_amounts in Hin as (d' & Hd' & Heq).
  apply candidate_Some in E as (-> & _). cbn [fst snd] in Heq.
  assert (d' = d) by lia. subst d'. contradiction.
Qed.

Lemma sorted_distances (amount max_lots search_range : Z) (l : list (Z * Z * Z)) :
  Forall (recorded amount max_lots search_range) l ->
  sorted_keys l = true ->
  non_decreasing
    (map (fun s => Z.abs (s - amount))
         (map (fun s : Z * Z * Z => snd (fst s)) l)) = true.
Proof.
  induction 1 as [|x l Hx Hl IH]; intros Hs; [reflexivity|].
  destruct l as [|y r]; [reflexivity|].
  rewrite sorted_keys_cons in Hs. apply andb_true_iff in Hs as [Hxy Hs].
  specialize (IH Hs). cbn [map] in *.
  change (non_decreasing (?a :: ?b :: ?t))
    with ((a <=? b) && non_decreasing (b :: t)).
  rewrite IH, andb_true_r. apply Z.leb_le.
  destruct Hx as (dx & _ & -> & _).
  inversion Hl as [|? ? (dy & _ & -> & _) _]; subst.
  cbn [fst snd]. unfold LotSizes.key_le in Hxy.
  apply orb_true_iff in Hxy as [Hxy|Hxy].
  - apply Z.ltb_lt in Hxy. lia.
  - apply andb_true_iff in Hxy as [Hxy _]. apply Z.eqb_eq in Hxy. lia.
Qed.

(** X7.  [suggest_clean_amounts] returns at most five amounts, all
    different, nearest to the original amount first.  Each of them is
    positive, lies within [search_range] of the amount, and splits into
    no more than [max_lots] lots. *)
Theorem suggest_clean_amounts_sound (amount max_lots search_range : Z) :
  let suggestions :=
    LotSizes.suggest_clean_amounts amount max_lots search_range in
  (length suggestions <= 5)%nat /\
  NoDup suggestions /\
  non_decreasing (map (fun s => Z.abs (s - amount)) suggestions) = true /\
  Forall (fun s =>
            0 < s /\ Z.abs (s - amount) <= search_range /\
            exists n, LotSizes.count_lots s = LotSizes.Ok n /\ n <= max_lots)
         suggestions.
Proof.
  cbv zeta. unfold LotSizes.suggest_clean_amounts.
  set (sugg := omap (LotSizes.candidate amount max_lots)
                 (LotSizes.range (- search_range) (search_range + 1))).
  assert (Hrec : Forall (recorded amount max_lots search_range) sugg)
    by (apply omap_candidate_recorded, Forall_range).
  assert (Hnd : NoDup (map (fun s : Z * Z * Z => snd (fst s)) sugg))
    by (apply omap_candidate_NoDup, NoDup_range).
  assert (Hrec' : Forall (recorded amount max_lots search_range)
                         (firstn 5 (LotSizes.sort sugg))).
  { apply Forall_take. now rewrite sort_perm. }
  repeat split.
  - rewrite length_map. apply firstn_le_length.
  - change (NoDup ((fun s : Z * Z * Z => snd (fst s)) <$>
                   take 5 (LotSizes.sort sugg))).
    rewrite fmap_take.
    eapply sublist_NoDup. 2: apply sublist_take.
    change (NoDup (map (fun s : Z * Z * Z => snd (fst s)) (LotSizes.sort sugg))).
    now rewrite sort_perm.
  - eapply sorted_distances; [exact Hrec'|].
    apply sorted_keys_firstn, sorted_keys_sort.
  - apply Forall_fmap. eapply Forall_impl; [exact Hrec'|].
    intros e (d & Hd & -> & Hp & Hm). unfold compose. cbn [fst snd].
    split; [exact Hp|]. split; [lia|].
    exists (digit_sum (amount + d)). split; [|exact Hm].
    unfold LotSizes.count_lots.
    rewrite split_amount_greedy by lia. now rewrite len_greedy by lia.
Qed.

(** X8.  [validate_amount] never raises, and it answers valid exactly
    when [split_amount_optimized] returns the lots instead of raising:
    for a positive amount whose split has no more than [max_lots]
    lots. *)
Theorem validate_amount_agrees (amount max_lots : Z) :
  match LotSizes.validate_amount amount max_lots,
        LotSizes.split_amount_optimized amount max_lots with
  | LotSizes.Ok (true, _), LotSizes.Ok lots =>
      0 < amount /\ LotSizes.split_amount amount = LotSizes.Ok lots /\
      LotSizes.len lots <= max_lots
  | LotSizes.Ok (false, _), LotSizes.ValueError _ =>
      amount <= 0 \/
      exists lots, LotSizes.split_amount amount = LotSizes.Ok lots /\
                   max_lots < LotSizes.len lots
  | _, _ => False
  end.
Proof.
  unfold LotSizes.validate_amount, LotSizes.split_amount_optimized,
    LotSizes.format_split, LotSizes.split_amount_grouped, LotSizes.count_lots.
  destruct (Z.leb_spec amount 0) as [Ha|Ha].
  - rewrite split_amount_nonpositive by lia. now left.
  - rewrite split_amount_greedy by lia.
    destruct (Z.gtb_spec (LotSizes.len (greedy amount)) max_lots) as [Hm|Hm].
    + right. exists (greedy amount). split; [reflexivity|lia].
    + repeat split; [lia|lia].
Qed.

(* ===================================================================== *)
(** ** Hex strings: [bytes.hex] and [bytes.fromhex] *)
(* ===================================================================== *)

Lemma hex_digits_of_byte (b : byte) :
  let hi := Py.hex_char (Py.byte_val b / 16) in
  let lo := Py.hex_char (Py.byte_val b mod 16) in
  Py.is_space hi = false /\
  Py.hex_digit hi = Some (Py.byte_val b / 16) /\
  Py.hex_digit lo = Some (Py.byte_val b mod 16) /\
  Py.byte_of_Z (16 * (Py.byte_val b / 16) + Py.byte_val b mod 16) = b /\
  Ascii.eqb hi "x" = false /\ Ascii.eqb lo "x" = false.
Proof. destruct b; vm_compute; repeat split; reflexivity. Qed.

(** Decoding the hex form of a byte string gives the bytes back. *)
Lemma fromhex_hex (bs : list byte) : Py.fromhex (Py.hex bs) = Some bs.
Proof.
  induction bs as [|b bs IH]; [reflexivity|].
  cbn [Py.hex Py.fromhex].
  destruct (hex_digits_of_byte b) as (-> & -> & -> & -> & _).
  now rewrite IH.
Qed.

Lemma no_x_hex (bs : list byte) : no_x (Py.hex bs) = true.
Proof.
  induction bs as [|b bs IH]; [reflexivity|].
  cbn [Py.hex no_x].
  destruct (hex_digits_of_byte b) as (_ & _ & _ & _ & -> & ->).
  exact IH.
Qed.

Lemma replace_0x_no_x (s : string) : no_x s = true -> Py.replace_0x s = s.
Proof.
  induction s as [|c r IH]; [reflexivity|].
  intros H. cbn [no_x] in H. apply andb_true_iff in H as [_ Hr].
  cbn [Py.replace_0x]. destruct r as [|d r']; [reflexivity|].
  assert (Hd : Ascii.eqb d "x" = false).
  { cbn [no_x] in Hr. apply andb_true_iff in Hr as [Hd _].
    now apply negb_true_iff in Hd. }
  rewrite Hd, andb_false_r. now rewrite IH.
Qed.

(* ===================================================================== *)
(** ** sdk/htlc_wrapper.py: secrets and expiry *)
(* ===================================================================== *)

(** X9.  Whatever bytes the random source returns, the pair that
    [generate_secret] builds from them is consistent:
    [compute_hashlock] of the secret is the hashlock, and
    [verify_preimage] accepts the secret for the hashlock. *)
Theorem generate_secret_verifies (secret_bytes : list byte) :
  let '(secret, hashlock) := HtlcWrapper.generate_secret secret_bytes in
  HtlcWrapper.compute_hashlock secret = Some hashlock /\
  HtlcWrapper.verify_preimage hashlock secret = true /\
  String.length secret = (2 * length secret_bytes)%nat.
Proof.
  unfold HtlcWrapper.generate_secret, HtlcWrapper.compute_hashlock,
    HtlcWrapper.verify_preimage.
  rewrite fromhex_hex. repeat split.
  - apply String.eqb_refl.
  - apply length_hex.
Qed.

(** X10.  [blocks_until_expiry] agrees with the two predicates: it is
    positive for an HTLC that [is_claimable] accepts and zero or
    negative for one that [is_refundable] accepts.  For an HTLC that the
    daemon does not know it is 0, as for one that expires now. *)
Theorem blocks_until_expiry_sign (rpc : HtlcWrapper.Rpc) (outpoint : string) :
  (HtlcWrapper.is_claimable rpc outpoint = HtlcWrapper.Return true ->
   exists n, HtlcWrapper.blocks_until_expiry rpc outpoint = HtlcWrapper.Return n
             /\ 0 < n) /\
  (HtlcWrapper.is_refundable rpc outpoint = HtlcWrapper.Return true ->
   exists n, HtlcWrapper.blocks_until_expiry rpc outpoint = HtlcWrapper.Return n
             /\ n <= 0) /\
  (HtlcWrapper.get rpc outpoint = None ->
   HtlcWrapper.blocks_until_expiry rpc outpoint = HtlcWrapper.Return 0).
Proof.
  unfold HtlcWrapper.is_claimable, HtlcWrapper.is_refundable,
    HtlcWrapper.blocks_until_expiry.
  destruct (HtlcWrapper.get rpc outpoint) as [htlc|];
    [|repeat split; intros; discriminate || reflexivity].
  destruct (HtlcWrapper.falsy (Some htlc));
    [repeat split; intros; discriminate|].
  split; [|split; [|discriminate]].
  - destruct (negb _); [discriminate|].
    destruct (HtlcWrapper.getblockcount rpc) as [h|e]; [|discriminate].
    destruct (HtlcWrapper.dict_get htlc "expiry_height" (HtlcWrapper.PyInt 0))
      as [|b|z|s]; cbn [HtlcWrapper.int_ge HtlcWrapper.sub_int];
      try discriminate.
    + destruct (Z.geb_spec h (if b then 1 else 0)); [discriminate|].
      intros _. eexists. split; [reflexivity|lia].
    + destruct (Z.geb_spec h z); [discriminate|].
      intros _. eexists. split; [reflexivity|lia].
  - destruct (HtlcWrapper.in_strs _ _); [discriminate|].
    destruct (HtlcWrapper.getblockcount rpc) as [h|e]; [|discriminate].
    destruct (HtlcWrapper.dict_get htlc "expiry_height" (HtlcWrapper.PyInt 0))
      as [|b|z|s]; cbn [HtlcWrapper.int_lt HtlcWrapper.sub_int];
      try discriminate.
    + destruct (Z.ltb_spec h (if b then 1 else 0)); [discriminate|].
      intros _. eexists. split; [reflexivity|lia].
    + destruct (Z.ltb_spec h z); [discriminate|].
      intros _. eexists. split; [reflexivity|lia].
Qed.

Lemma blocks_until_expiry_sign_witness :
  exists n,
    HtlcWrapper.blocks_until_expiry (sample_rpc "locked" 1000 990) "txid:0"
    = HtlcWrapper.Return n /\ 0 < n.
Proof.
  apply (proj1 (blocks_until_expiry_sign (sample_rpc "locked" 1000 990) "txid:0")).
  vm_compute. reflexivity.
Defined.

(* ===================================================================== *)
(** ** lp_bot.py: byte order and the Polygon claim *)
(* ===================================================================== *)

Lemma reverse_bytes32_hex (bs : list byte) :
  length bs = 32%nat ->
  LpBot.reverse_bytes32 (Py.hex bs) = Some (Py.hex (rev bs)).
Proof.
  intros Hl. unfold LpBot.reverse_bytes32.
  rewrite replace_0x_no_x by apply no_x_hex.
  rewrite length_hex, Hl. cbn [Nat.mul Nat.add Nat.eqb negb].
  now rewrite fromhex_hex.
Qed.

(** X11.  On the hex form of 32 bytes, with or without a leading 0x,
    [reverse_bytes32] returns the hex form of the bytes in reverse
    order, and reversing twice gives the hex string back. *)
Theorem reverse_bytes32_involutive (bs : list byte) :
  length bs = 32%nat ->
  LpBot.reverse_bytes32 (Py.hex bs) = Some (Py.hex (rev bs)) /\
  LpBot.reverse_bytes32 ("0x" +:+ Py.hex bs) = Some (Py.hex (rev bs)) /\
  LpBot.reverse_bytes32 (Py.hex (rev bs)) = Some (Py.hex bs).
Proof.
  intros Hl. split; [now apply reverse_bytes32_hex|]. split.
  - pose proof (reverse_bytes32_hex bs Hl) as H.
    unfold LpBot.reverse_bytes32 in *.
    change (Py.replace_0x ("0x" +:+ Py.hex bs)) with (Py.replace_0x (Py.hex bs)).
    destruct (negb _) eqn:E; [|exact H].
    rewrite replace_0x_no_x, length_hex, Hl in E by apply no_x_hex.
    discriminate.
  - rewrite reverse_bytes32_hex by now rewrite length_rev.
    now rewrite rev_involutive.
Qed.

Lemma reverse_bytes32_involutive_witness :
  LpBot.reverse_bytes32 (Py.hex sample_bytes32)
  = Some (Py.hex (rev sample_bytes32)) /\
  LpBot.reverse_bytes32 ("0x" +:+ Py.hex sample_bytes32)
  = Some (Py.hex (rev sample_bytes32)) /\
  LpBot.reverse_bytes32 (Py.hex (rev sample_bytes32))
  = Some (Py.hex sample_bytes32).
Proof. apply (reverse_bytes32_involutive sample_bytes32). reflexivity. Defined.

(** X12.  [PolygonClaimer.claim] submits at most one transaction, and
    only for a swap that the contract reports as neither claimed nor
    refunded; it answers with a transaction hash only for a transaction
    it submitted and whose receipt has status 1.  For a swap already
    claimed it submits nothing and answers already_claimed. *)
Theorem claim_guarded (c : LpBot.Chain) (swap_id preimage : string) :
  let '(result, acts) := LpBot.claim c swap_id preimage in
  (acts = [] /\ (result = None \/ result = Some "already_claimed")) \/
  exists swap_id_bytes preimage_bytes,
    acts = [LpBot.ClaimTx swap_id_bytes preimage_bytes] /\
    LpBot.get_swap c swap_id_bytes
    = Some {| LpBot.claimed := false; LpBot.refunded := false |} /\
    (result = None \/
     exists tx_hash,
       result = Some tx_hash /\
       LpBot.send_claim c swap_id_bytes preimage_bytes = Some (1, tx_hash)).
Proof.
  unfold LpBot.claim.
  destruct (LpBot.reverse_bytes32 swap_id) as [s|]; [|cbv beta iota; left; auto].
  destruct (LpBot.reverse_bytes32 preimage) as [p|]; [|cbv beta iota; left; auto].
  destruct (Py.fromhex s) as [sb|]; [|cbv beta iota; left; auto].
  destruct (Py.fromhex p) as [pb|]; [|cbv beta iota; left; auto].
  destruct (LpBot.get_swap c sb) as [[cl rf]|] eqn:Hs; [|cbv beta iota; left; auto].
  cbn [LpBot.claimed LpBot.refunded].
  destruct cl; [cbv beta iota; left; auto|].
  destruct rf; [cbv beta iota; left; auto|].
  destruct (LpBot.send_claim c sb pb) as [[status tx]|] eqn:Hc.
  - destruct (Z.eqb_spec status 1) as [->|]; cbv beta iota;
      right; exists sb, pb; repeat split; try reflexivity; try exact Hs.
    + right. exists tx. auto.
    + now left.
  - cbv beta iota. right. exists sb, pb. repeat split; try reflexivity; try exact Hs.
    now left.
Qed.



(* ===================================================================== *)
(** ** lp_bot.py: one iteration of the bot *)
(* ===================================================================== *)

Lemma check_lots_acc (cl : list string) (lots : list LpBot.Lot)
    (acc : list (string * string)) :
  LpBot.check_lots cl lots acc = (acc ++ LpBot.check_lots cl lots [])%list.
Proof.
  revert acc. induction lots as [|lot rest IH]; intros acc;
    cbn [LpBot.check_lots]; [now rewrite app_nil_r|].
  destruct (_ && _); [|apply IH].
  destruct (LpBot.hashlock lot) as [h|]; [|now rewrite app_nil_r].
  destruct (LpBot.in_list h cl); [apply IH|].
  rewrite (IH (acc ++ _)%list), (IH ([] ++ _)%list).
  now rewrite <- app_assoc.
Qed.

Lemma in_list_app (x : string) (l r : list string) :
  LpBot.in_list x (l ++ r) = LpBot.in_list x l || LpBot.in_list x r.
Proof. unfold LpBot.in_list. apply existsb_app. Qed.

(** Once the hashlocks that a check reveals are recorded, the same list
    reveals nothing. *)
Lemma check_lots_recorded (cl extra : list string) (lots : list LpBot.Lot) :
  forallb (fun item => LpBot.in_list (fst item) extra)
          (LpBot.check_lots cl lots []) = true ->
  LpBot.check_lots (cl ++ extra) lots [] = [].
Proof.
  induction lots as [|lot rest IH]; cbn [LpBot.check_lots]; [reflexivity|].
  destruct (_ && _); [|exact IH].
  destruct (LpBot.hashlock lot) as [h|]; [|reflexivity].
  rewrite in_list_app.
  destruct (LpBot.in_list h cl); [exact IH|].
  rewrite check_lots_acc. cbn [app forallb fst orb].
  intros H. apply andb_true_iff in H as [-> H]. now apply IH.
Qed.

Lemma check_lots_all_claimed (cl : list string) (lots : list LpBot.Lot) :
  forallb (fun lot => match LpBot.hashlock lot with
                      | Some h => LpBot.in_list h cl
                      | None => true
                      end) lots = true ->
  LpBot.check_lots cl lots [] = [].
Proof.
  induction lots as [|lot rest IH]; cbn [LpBot.check_lots forallb];
    [reflexivity|].
  intros H. apply andb_true_iff in H as [Hl H].
  destruct (_ && _); [|now apply IH].
  destruct (LpBot.hashlock lot) as [h|]; [|reflexivity].
  rewrite Hl. now apply IH.
Qed.


Lemma run_once_items (claimer : option LpBot.Chain)
    (htlc_list : option (list LpBot.Lot)) (cl : list string) :
  LpBot.run_once claimer htlc_list cl
  = run_items claimer (LpBot.check_htlc_list htlc_list cl) (cl, []).
Proof. reflexivity. Qed.

Lemma run_items_cons (claimer : option LpBot.Chain) (h p : string)
    (r : list (string * string)) (cl : list string) (acts : list LpBot.action) :
  run_items claimer ((h, p) :: r) (cl, acts)
  = run_items claimer r
      (let '(claimed_swaps, _, a) :=
         LpBot.process_revealed_preimage claimer cl h p in
       (claimed_swaps, (acts ++ a)%list)).
Proof. reflexivity. Qed.

Lemma run_items_none (revealed : list (string * string)) (cl : list string)
    (acts : list LpBot.action) :
  fst (run_items None revealed (cl, acts)) = (cl ++ map fst revealed)%list /\
  (forallb not_claim_tx acts = true ->
   forallb not_claim_tx (snd (run_items None revealed (cl, acts))) = true).
Proof.
  revert cl acts. induction revealed as [|[h p] r IH]; intros cl acts.
  - cbn. now rewrite app_nil_r.
  - rewrite run_items_cons. cbn [map fst LpBot.process_revealed_preimage].
    destruct (IH (cl ++ [h])%list (acts ++ [LpBot.SaveState (cl ++ [h])])%list)
      as [H1 H2].
    split.
    + rewrite H1. now rewrite <- app_assoc.
    + intros Ha. apply H2. rewrite forallb_app, Ha. reflexivity.
Qed.

Lemma run_items_grows (claimer : option LpBot.Chain)
    (revealed : list (string * string)) (cl : list string)
    (acts : list LpBot.action) :
  exists added,
    fst (run_items claimer revealed (cl, acts)) = (cl ++ added)%list /\
    forallb (fun h => LpBot.in_list h (map fst revealed)) added = true.
Proof.
  revert cl acts. induction revealed as [|[h p] r IH]; intros cl acts.
  - exists []. cbn. now rewrite app_nil_r.
  - rewrite run_items_cons. cbn [map fst LpBot.process_revealed_preimage].
    assert (Hweak : forall l, forallb (fun x => LpBot.in_list x (map fst r)) l = true ->
                    forallb (fun x => LpBot.in_list x (h :: map fst r)) l = true).
    { intros l Hl. rewrite forallb_forall in *. intros x Hx.
      specialize (Hl x Hx). unfold LpBot.in_list in *. cbn [existsb].
      rewrite Hl. apply orb_true_r. }
    destruct claimer as [c|]; cbn [LpBot.process_revealed_preimage].
    + destruct (LpBot.claim c h p) as [result a].
      destruct (Py.truthy_opt result); cbv beta iota zeta.
      * destruct (IH (cl ++ [h])%list (acts ++ (a ++ [LpBot.SaveState (cl ++ [h])]))%list)
          as (added & H1 & H2).
        exists (h :: added). split.
        -- rewrite H1. now rewrite <- app_assoc.
        -- cbn [forallb]. rewrite (Hweak _ H2), andb_true_r.
           unfold LpBot.in_list. cbn [existsb]. now rewrite String.eqb_refl.
      * destruct (IH cl (acts ++ a)%list) as (added & H1 & H2).
        exists added. split; [exact H1|now apply Hweak].
    + cbv beta iota zeta.
      destruct (IH (cl ++ [h])%list (acts ++ [LpBot.SaveState (cl ++ [h])])%list)
        as (added & H1 & H2).
      exists (h :: added). split.
      * rewrite H1. now rewrite <- app_assoc.
      * cbn [forallb]. rewrite (Hweak _ H2), andb_true_r.
        unfold LpBot.in_list. cbn [existsb]. now rewrite String.eqb_refl.
Qed.

(** The hashlocks that a check reveals are not recorded yet. *)
Lemma check_lots_fresh (cl : list string) (lots : list LpBot.Lot) :
  forallb (fun item => negb (LpBot.in_list (fst item) cl))
          (LpBot.check_lots cl lots []) = true.
Proof.
  induction lots as [|lot rest IH]; cbn [LpBot.check_lots]; [reflexivity|].
  destruct (_ && _); [|exact IH].
  destruct (LpBot.hashlock lot) as [h|]; [|reflexivity].
  destruct (LpBot.in_list h cl) eqn:E; [exact IH|].
  rewrite check_lots_acc. cbn [app forallb fst]. now rewrite E, IH.
Qed.

(** X14.  A bot without a private key sends no claim, yet records the
    hashlock of every revealed preimage as claimed: a later iteration,
    with a key and the same HTLC list, finds nothing left to claim. *)
Theorem monitor_only_writes_off (htlc_list : option (list LpBot.Lot))
    (claimed_swaps : list string) (c : LpBot.Chain) :
  let '(recorded_swaps, acts) := LpBot.run_once None htlc_list claimed_swaps in
  recorded_swaps
  = (claimed_swaps ++ map fst (LpBot.check_htlc_list htlc_list claimed_swaps))%list /\
  forallb not_claim_tx acts = true /\
  LpBot.run_once (Some c) htlc_list recorded_swaps = (recorded_swaps, []).
Proof.
  rewrite run_once_items.
  destruct (run_items_none (LpBot.check_htlc_list htlc_list claimed_swaps)
              claimed_swaps []) as [H1 H2].
  destruct (run_items None _ _) as [cl1 acts1]. cbn [fst snd] in *.
  split; [exact H1|]. split; [now apply H2|].
  rewrite run_once_items. subst cl1.
  destruct htlc_list as [lots|]; [|reflexivity].
  cbn [LpBot.check_htlc_list].
  rewrite check_lots_recorded; [reflexivity|].
  generalize (LpBot.check_lots claimed_swaps lots []). intros l.
  apply forallb_forall. intros [h p] Hin. cbn [fst].
  unfold LpBot.in_list. apply existsb_exists. exists h.
  split; [|apply String.eqb_refl].
  apply in_map_iff. exists (h, p). auto.
Qed.

(** X15.  Whatever the claimer does, an iteration only appends to
    [claimed_swaps], and only hashlocks of claimed HTLCs that were not
    recorded before; when the hashlock of every listed HTLC is recorded
    already, the iteration sends and writes nothing. *)
Theorem run_once_claimed_swaps (claimer : option LpBot.Chain)
    (htlc_list : option (list LpBot.Lot)) (claimed_swaps : list string) :
  (exists added,
     fst (LpBot.run_once claimer htlc_list claimed_swaps)
     = (claimed_swaps ++ added)%list /\
     forallb (fun h => negb (LpBot.in_list h claimed_swaps)) added = true) /\
  (forallb (fun lot => match LpBot.hashlock lot with
                       | Some h => LpBot.in_list h claimed_swaps
                       | None => true
                       end) (default [] htlc_list) = true ->
   LpBot.run_once claimer htlc_list claimed_swaps = (claimed_swaps, [])).
Proof.
  rewrite run_once_items. split.
  - destruct (run_items_grows claimer
                (LpBot.check_htlc_list htlc_list claimed_swaps) claimed_swaps [])
      as (added & H1 & H2).
    exists added. split; [exact H1|].
    assert (Hf : forallb (fun item => negb (LpBot.in_list (fst item) claimed_swaps))
                   (LpBot.check_htlc_list htlc_list claimed_swaps) = true).
    { destruct htlc_list; [apply check_lots_fresh|reflexivity]. }
    rewrite forallb_forall in *. intros h Hh. specialize (H2 h Hh).
    unfold LpBot.in_list in H2. apply existsb_exists in H2 as (h' & Hin & Heq).
    apply String.eqb_eq in Heq. subst h'.
    apply in_map_iff in Hin as ([h' p] & <- & Hin). exact (Hf _ Hin).
  - intros H. destruct htlc_list as [lots|]; [|reflexivity].
    cbn [LpBot.check_htlc_list default] in *.
    now rewrite check_lots_all_claimed.
Qed.

Lemma run_once_claimed_swaps_witness :
  LpBot.run_once (Some sample_chain) (Some [sample_lot]) [sample_hashlock]
  = ([sample_hashlock], []).
Proof.
  apply (proj2 (run_once_claimed_swaps (Some sample_chain) (Some [sample_lot])
                  [sample_hashlock])).
  vm_compute. reflexivity.
Defined.

(* ===================================================================== *)
(** ** sdk/server.py: masking, lookup and update of a registered swap *)
(* ===================================================================== *)

Lemma length_append (a b : string) :
  String.length (a +:+ b) = (String.length a + String.length b)%nat.
Proof. induction a as [|c a IH]; [reflexivity|]. simpl. f_equal. exact IH. Qed.

Lemma length_take_str (n : nat) (s : string) :
  String.length (Py.take_str n s) = Nat.min n (String.length s).
Proof.
  revert s. induction n as [|n IH]; intros s; [reflexivity|].
  destruct s as [|c r]; [reflexivity|]. simpl. f_equal. apply IH.
Qed.

Lemma length_drop_str (n : nat) (s : string) :
  String.length (Py.drop_str n s) = (String.length s - n)%nat.
Proof.
  revert s. induction n as [|n IH]; intros s; [simpl; lia|].
  destruct s as [|c r]; [reflexivity|]. simpl. apply IH.
Qed.

(** X16.  With a prefix of [p >= 0] and a suffix of [s > 0] characters,
    the masked form of a secret is 3 characters long when the secret has
    at most [p + s] characters and [p + s + 3] characters long
    otherwise: it tells nothing else about the length.  With a suffix of
    0 the slice [secret[-0:]] is the whole secret, and the masked form
    ends with it. *)
Theorem mask_secret_length (secret : string) (p : Z) :
  0 <= p ->
  (forall s, 0 < s ->
     String.length (Server.mask_secret secret p s)
     = if Z.of_nat (String.length secret) <=? p + s then 3%nat
       else Z.to_nat (p + s + 3)) /\
  (p < Z.of_nat (String.length secret) ->
   Server.mask_secret secret p 0
   = Py.take_str (Z.to_nat p) secret +:+ "..." +:+ secret).
Proof.
  intros Hp. unfold Server.mask_secret. split.
  - intros s Hs.
    destruct (Z.leb_spec (Z.of_nat (String.length secret)) (p + s)) as [Hl|Hl];
      [now rewrite orb_true_r|].
    destruct secret as [|c r]; [cbn in Hl; lia|].
    cbn [Py.truthy_str negb orb].
    unfold Py.slice_to, Py.slice_last.
    destruct (Z.geb_spec p 0); [|lia]. destruct (Z.gtb_spec s 0); [|lia].
    rewrite !length_append, length_take_str, length_drop_str.
    cbn [String.length Nat.add] in *. lia.
  - intros Hl.
    destruct (Z.leb_spec (Z.of_nat (String.length secret)) (p + 0)); [lia|].
    destruct secret as [|c r]; [cbn in Hl; lia|].
    cbn [Py.truthy_str negb orb].
    unfold Py.slice_to, Py.slice_last.
    destruct (Z.geb_spec p 0); [|lia]. reflexivity.
Qed.

Lemma mask_secret_length_witness :
  (forall s, 0 < s ->
     String.length (Server.mask_secret sample_secret 8 s)
     = if Z.of_nat (String.length sample_secret) <=? 8 + s then 3%nat
       else Z.to_nat (8 + s + 3)) /\
  (8 < Z.of_nat (String.length sample_secret) ->
   Server.mask_secret sample_secret 8 0
   = Py.take_str (Z.to_nat 8) sample_secret +:+ "..." +:+ sample_secret).
Proof. apply (mask_secret_length sample_secret 8). lia. Defined.

Lemma lower_char_idem (c : ascii) :
  Py.lower_char (Py.lower_char c) = Py.lower_char c.
Proof.
  destruct c as [[] [] [] [] [] [] [] []]; vm_compute; reflexivity.
Qed.

Lemma lower_idem (s : string) : Py.lower (Py.lower s) = Py.lower s.
Proof.
  induction s as [|c r IH]; cbn [Py.lower]; [reflexivity|].
  now rewrite lower_char_idem, IH.
Qed.

Lemma replace_0x_cons (c d : ascii) (r : string) :
  Py.replace_0x (String c (String d r))
  = if Ascii.eqb c "0" && Ascii.eqb d "x" then Py.replace_0x r
    else String c (Py.replace_0x (String d r)).
Proof. reflexivity. Qed.

(** Removing the [0x] of a lower-case string leaves it in lower case. *)
Lemma lower_replace_0x_bounded (n : nat) (s : string) :
  (String.length s <= n)%nat ->
  Py.lower s = s -> Py.lower (Py.replace_0x s) = Py.replace_0x s.
Proof.
  revert s. induction n as [|n IH]; intros s Hn Hs.
  - destruct s; [reflexivity|cbn in Hn; lia].
  - destruct s as [|c [|d r]]; [reflexivity|exact Hs|].
    cbn [Py.lower] in Hs. injection Hs as Hc Hd Hr.
    cbn [String.length] in Hn. rewrite replace_0x_cons.
    destruct (_ && _).
    + apply IH; [lia|exact Hr].
    + cbn [Py.lower]. rewrite Hc. f_equal.
      apply IH; [cbn [String.length]; lia|].
      cbn [Py.lower]. now rewrite Hd, Hr.
Qed.

Lemma lower_replace_0x (s : string) :
  Py.lower (Py.replace_0x (Py.lower s)) = Py.replace_0x (Py.lower s).
Proof.
  apply (lower_replace_0x_bounded (String.length (Py.lower s))); [lia|].
  apply lower_idem.
Qed.

(** X17.  A swap registered through [POST /api/register] under a
    hashlock [h] is found by [GET /api/taker_address] for every query
    that normalises to [h] (lower case, every 0x removed): the answer
    carries the registered address, LOT id and time. *)
Theorem api_taker_address_registered (pending : gmap string Server.SwapInfo)
    (now : Z) (h taker lot_id query : string) :
  Py.truthy_str h = true ->
  Py.truthy_str lot_id = true ->
  Py.startswith taker "x" || Py.startswith taker "y" = true ->
  Py.replace_0x (Py.lower query) = h ->
  Server.api_taker_address
    (fst (Server.api_register_swap pending now
            (Some (register_request h taker lot_id))))
    query
  = Server.TakerFound taker lot_id now.
Proof.
  intros Hh Hl Hp Hq. unfold register_request.
  rewrite api_register_swap_stores by assumption. cbn [fst].
  unfold Server.api_taker_address.
  assert (Hne : Py.truthy_str query = true).
  { destruct query; [|reflexivity]. cbn in Hq. subst h. discriminate. }
  rewrite Hne, Hq. cbn [negb].
  rewrite lookup_insert_eq. cbn [Server.si_taker_kpiv_addr Server.si_lot_id
                                  Server.si_registered_at].
  destruct taker; [discriminate Hp|reflexivity].
Qed.

Lemma api_taker_address_registered_witness :
  Server.api_taker_address
    (fst (Server.api_register_swap ∅ 1700000000
            (Some (register_request sample_hashlock sample_taker "lot-1"))))
    ("0x" +:+ sample_hashlock)
  = Server.TakerFound sample_taker "lot-1" 1700000000.
Proof.
  apply (api_taker_address_registered ∅ 1700000000 sample_hashlock sample_taker
           "lot-1" ("0x" +:+ sample_hashlock)); reflexivity.
Defined.

(** X18.  [POST /api/register] stores the hashlock as it was sent, while
    [GET /api/taker_address] looks up lower-case keys only: a
    registration under a hashlock that has an upper-case letter changes
    no answer of [api_taker_address], whatever the query. *)
Theorem api_taker_address_misses_upper_case (pending : gmap string Server.SwapInfo)
    (now : Z) (h taker lot_id query : string) :
  Py.lower h <> h ->
  Server.api_taker_address
    (fst (Server.api_register_swap pending now
            (Some (register_request h taker lot_id))))
    query
  = Server.api_taker_address pending query.
Proof.
  intros Hu. unfold register_request, Server.api_register_swap.
  cbn [Server.rq_hashlock Server.rq_taker_kpiv_addr Server.rq_lot_id].
  destruct (negb (_ && _ && _)); [reflexivity|].
  destruct (negb (_ || _)); [reflexivity|]. cbn [fst].
  unfold Server.api_taker_address.
  destruct (negb (Py.truthy_str query)); [reflexivity|].
  set (clean := Py.replace_0x (Py.lower query)).
  assert (Hc : Py.lower clean = clean) by apply lower_replace_0x.
  assert (Hc' : Py.lower ("0x" +:+ clean) = "0x" +:+ clean).
  { change (Py.lower ("0x" +:+ clean)) with ("0x" +:+ Py.lower clean).
    now rewrite Hc. }
  rewrite !lookup_insert_ne; [reflexivity|congruence|congruence].
Qed.

Lemma api_taker_address_misses_upper_case_witness :
  Server.api_taker_address
    (fst (Server.api_register_swap ∅ 1700000000
            (Some (register_request "ABCD" sample_taker "lot-1"))))
    "ABCD"
  = Server.api_taker_address ∅ "ABCD".
Proof.
  apply (api_taker_address_misses_upper_case ∅ 1700000000 "ABCD" sample_taker
           "lot-1" "ABCD").
  vm_compute. discriminate.
Defined.


(** X20.  After [POST /api/register] the status of a swap whose quote
    HTLC is open and not past its timelock is LOCKED; after a
    [POST /api/update_swap] that carries a true [kpiv_sent] it is
    CLAIMABLE: the flag is stored as the caller sent it. *)
Theorem swap_status_follows_update (pending : gmap string Server.SwapInfo)
    (now later : Z) (h taker lot_id : string)
    (get_htlc_swap : string -> option Server.HtlcSwap) (htlc : Server.HtlcSwap) :
  Py.truthy_str h = true ->
  Py.truthy_str lot_id = true ->
  Py.startswith taker "x" || Py.startswith taker "y" = true ->
  get_htlc_swap h = Some htlc ->
  Server.hs_refunded htlc = false ->
  Server.hs_withdrawn htlc = false ->
  later <= Server.hs_timelock htlc ->
  let registered :=
    fst (Server.api_register_swap pending now
           (Some (register_request h taker lot_id))) in
  let updated :=
    fst (Server.api_update_swap registered (kpiv_sent_update h true)) in
  Server.st_state (Server.api_swap_status registered get_htlc_swap later h)
  = "LOCKED" /\
  Server.st_state (Server.api_swap_status updated get_htlc_swap later h)
  = "CLAIMABLE".
Proof.
  intros Hh Hl Hp Hg Hr Hw Ht. cbv zeta. unfold register_request.
  rewrite api_register_swap_stores by assumption. cbn [fst].
  assert (Hlt : (Server.hs_timelock htlc <? later) = false)
    by (apply Z.ltb_ge; lia).
  split.
  - erewrite api_swap_status_open; try eassumption.
    + rewrite Hlt. unfold Server.kpiv_sent. now rewrite lookup_insert_eq.
    + unfold Server.polygon_key. now rewrite lookup_insert_eq.
  - unfold Server.api_update_swap, kpiv_sent_update.
    cbn [Server.uq_hashlock]. rewrite Hh. cbn [negb].
    rewrite lookup_insert_eq. cbn [fst].
    erewrite api_swap_status_open; try eassumption.
    + rewrite Hlt. unfold Server.kpiv_sent. now rewrite lookup_insert_eq.
    + unfold Server.polygon_key. now rewrite lookup_insert_eq.
Qed.

Lemma swap_status_follows_update_witness :
  let registered :=
    fst (Server.api_register_swap ∅ 1700000000
           (Some (register_request sample_hashlock sample_taker "lot-1"))) in
  let updated :=
    fst (Server.api_update_swap registered
           (kpiv_sent_update sample_hashlock true)) in
  Server.st_state
    (Server.api_swap_status registered (open_swap 1700014400) 1700000060
       sample_hashlock)
  = "LOCKED" /\
  Server.st_state
    (Server.api_swap_status updated (open_swap 1700014400) 1700000060
       sample_hashlock)
  = "CLAIMABLE".
Proof.
  apply (swap_status_follows_update ∅ 1700000000 1700000060 sample_hashlock
           sample_taker "lot-1" (open_swap 1700014400)
           {| Server.hs_timelock := 1700014400;
              Server.hs_withdrawn := false;
              Server.hs_refunded := false |});
    try reflexivity.
  vm_compute. discriminate.
Defined.

(* ===================================================================== *)
(** ** swap_watcher.py: the computed swap state *)
(* ===================================================================== *)

Lemma derive_states_raw (s : SwapWatcher.SwapState) :
  SwapWatcher.evm_claimed (SwapWatcher.derive_states s) = SwapWatcher.evm_claimed s /\
  SwapWatcher.evm_refunded (SwapWatcher.derive_states s) = SwapWatcher.evm_refunded s /\
  SwapWatcher.evm_time_left (SwapWatcher.derive_states s) = SwapWatcher.evm_time_left s.
Proof.
  unfold SwapWatcher.derive_states.
  rewrite derive_taker_choice.
  destruct (taker_choice (SwapWatcher.derive_lp s)) as [[st act]|];
    rewrite derive_lp_choice;
    destruct (lp_choice s) as [[st' act']|]; repeat split; reflexivity.
Qed.

(** X21.  The states that [compute_swap_state] reports are always among
    browse, locked, claimable, completed, refundable for the taker and
    inventory, taken, claimed, expired for the LP: the states LOCKING,
    REFUNDED, CLAIMING and RELEASED of the module's state list are
    never derived.  The quote HTLC is never reported as refunded, and
    the time left is never negative. *)
Theorem computed_states_range (w : SwapWatcher.Chains) (hashlock : string)
    (lp_address : option string) :
  let s := SwapWatcher.compute_swap_state w hashlock lp_address in
  one_of ["browse"; "locked"; "claimable"; "completed"; "refundable"]
         (SwapWatcher.taker_state s) = true /\
  one_of ["inventory"; "taken"; "claimed"; "expired"]
         (SwapWatcher.lp_state s) = true /\
  SwapWatcher.evm_refunded s = false /\
  0 <= SwapWatcher.evm_time_left s.
Proof.
  cbv zeta. rewrite compute_swap_state_observed.
  pose proof (observed_state_raw w hashlock lp_address) as Hraw.
  cbv zeta in Hraw. destruct Hraw as (Hr & Ht & Hl & H0 & _).
  destruct (derive_states_raw (observed_state w hashlock lp_address))
    as (_ & -> & ->).
  rewrite taker_state_derive_states, lp_state_derive_states, Ht, Hl.
  repeat split; try assumption.
  - repeat match goal with |- context [if ?b then _ else _] => destruct b end;
      reflexivity.
  - repeat match goal with |- context [if ?b then _ else _] => destruct b end;
      reflexivity.
Qed.

(** X22.  The taker is told that the KPIV is claimable only when the
    [Claimed] event of the quote HTLC has been seen, that is after the
    LP has claimed (the LP state is then claimed, or expired for an
    expired LOT); and once the LP has claimed, the taker state is
    claimable or completed, never refundable, whatever the timelock. *)
Theorem taker_claimable_after_lp_claim (w : SwapWatcher.Chains)
    (hashlock : string) (lp_address : option string) :
  let s := SwapWatcher.compute_swap_state w hashlock lp_address in
  (SwapWatcher.taker_state s = "claimable" ->
   SwapWatcher.evm_claimed s = true /\
   (SwapWatcher.lp_state s = "claimed" \/ SwapWatcher.lp_state s = "expired")) /\
  (SwapWatcher.evm_claimed s = true ->
   SwapWatcher.taker_state s = "claimable" \/
   SwapWatcher.taker_state s = "completed").
Proof.
  cbv zeta. rewrite compute_swap_state_observed.
  pose proof (observed_state_raw w hashlock lp_address) as Hraw.
  cbv zeta in Hraw. destruct Hraw as (_ & Ht & Hl & _ & Hc & Hs & _).
  destruct (derive_states_raw (observed_state w hashlock lp_address))
    as (-> & _ & _).
  rewrite taker_state_derive_states, lp_state_derive_states, Ht, Hl.
  set (s := observed_state w hashlock lp_address) in *.
  destruct (String.eqb_spec (SwapWatcher.piv_lot_status s) "claimed") as [E1|E1].
  - split; [discriminate|]. intros _. now right.
  - destruct (SwapWatcher.evm_claimed s) eqn:E4.
    + destruct (Hc eq_refl) as [-> ->]. cbn [andb]. split.
      * intros _. split; [reflexivity|].
        destruct (_ =? "expired")%string; [now right|now left].
      * intros _. now left.
    + split; [|discriminate].
      destruct (SwapWatcher.secret_revealed s) eqn:E2.
      * destruct (Hs eq_refl) as [?|?]; [discriminate|contradiction].
      * cbn [andb].
        repeat match goal with |- context [if ?b then _ else _] => destruct b end;
          discriminate.
Qed.

Lemma taker_claimable_after_lp_claim_witness :
  let s := SwapWatcher.compute_swap_state sample_chains_claimed sample_hashlock
             (Some sample_lp_address) in
  SwapWatcher.evm_claimed s = true /\
  (SwapWatcher.lp_state s = "claimed" \/ SwapWatcher.lp_state s = "expired").
Proof.
  apply (proj1 (taker_claimable_after_lp_claim sample_chains_claimed
                  sample_hashlock (Some sample_lp_address))).
  vm_compute. reflexivity.
Defined.

(* ===================================================================== *)
(** ** swap_watcher.py: the taker registry *)
(* ===================================================================== *)

(** X23.  [POST /api/register_taker] either answers with an error and
    leaves the registry as it was, or stores the address under a key of
    exactly 64 characters; [GET /api/taker_address] then returns that
    address for every spelling of the hashlock (upper or lower case,
    with or without a leading 0x) and answers as before for every other
    hashlock. *)
Theorem register_taker_lookup (reg : gmap string string)
    (hashlock kpiv_address : option string) (query : string) :
  let '(reg', r) := SwapWatcher.register_taker reg hashlock kpiv_address in
  match r with
  | SwapWatcher.Error _ _ => reg' = reg
  | SwapWatcher.Registered k a =>
      String.length k = 64%nat /\
      SwapWatcher.taker_address reg' query
      = if String.eqb (normalized query) k then Some a
        else SwapWatcher.taker_address reg query
  end.
Proof.
  unfold SwapWatcher.register_taker.
  destruct hashlock as [h|]; [|reflexivity].
  destruct kpiv_address as [a|]; [|reflexivity].
  destruct (negb (Py.truthy_str h) || negb (Py.truthy_str a)) eqn:Ht;
    [reflexivity|].
  apply orb_false_iff in Ht as [_ Ha]. apply negb_false_iff in Ha.
  fold (normalized h).
  destruct (Nat.eqb_spec (String.length (normalized h)) 64) as [Hl|Hl];
    [|reflexivity].
  cbn [negb]. split; [exact Hl|].
  unfold SwapWatcher.taker_address. fold (normalized query).
  destruct (String.eqb_spec (normalized query) (normalized h)) as [->|Hne].
  - rewrite lookup_insert_eq. now rewrite Ha.
  - now rewrite lookup_insert_ne by congruence.
Qed.

(* ===================================================================== *)
(** ** lp_watcher.py: what a pass does to the pending swaps *)
(* ===================================================================== *)

Lemma evolves_refl (s : LpWatcher.PendingSwap) : evolves s s.
Proof. unfold evolves. tauto. Qed.

Lemma count_app {A : Type} (f : A -> bool) (l r : list A) :
  count f (l ++ r) = (count f l + count f r)%nat.
Proof. unfold count. now rewrite List.filter_app, length_app. Qed.

Lemma count_cons {A : Type} (f : A -> bool) (x : A) (l : list A) :
  count f (x :: l) = ((if f x then 1 else 0) + count f l)%nat.
Proof. unfold count. cbn [List.filter]. destruct (f x); reflexivity. Qed.

(** The three ways [try_create_kpiv_htlc] can end. *)
Lemma try_create_cases (w : LpWatcher.World) (swap : LpWatcher.PendingSwap) :
  let '(swap', acts) := LpWatcher.try_create_kpiv_htlc w swap in
  (swap' = swap /\ acts = []) \/
  (swap' = swap /\ LpWatcher.kpiv_htlc_created swap = false /\
   exists h a t e, acts = [LpWatcher.HtlcCreateKpiv h a t e]) \/
  (LpWatcher.kpiv_htlc_created swap = false /\
   exists txid h a t e n k,
     swap' = LpWatcher.set_created swap txid /\
     acts = [LpWatcher.HtlcCreateKpiv h a t e; LpWatcher.NotifyTrade n k]).
Proof.
  unfold LpWatcher.try_create_kpiv_htlc.
  destruct (LpWatcher.kpiv_htlc_created swap) eqn:Hc; [left; auto|].
  destruct (LpWatcher.get_taker_kpiv_address w _) as [t|]; [|left; auto].
  destruct (negb (Py.truthy_str t)); [left; auto|].
  unfold LpWatcher.create_kpiv_htlc.
  destruct (LpWatcher.rpc_htlc_create_kpiv w _ _ _ _) as [txid|].
  - right. right. split; [reflexivity|]. cbn [app]. repeat eexists.
  - right. left. repeat split. repeat eexists.
Qed.

Lemma try_create_evolves (w : LpWatcher.World) (swap : LpWatcher.PendingSwap) :
  evolves swap (fst (LpWatcher.try_create_kpiv_htlc w swap)).
Proof.
  pose proof (try_create_cases w swap) as H.
  destruct (LpWatcher.try_create_kpiv_htlc w swap) as [swap' acts].
  destruct H as [[-> _]|[(-> & _)|(Hc & txid & h & a & t & e & n & k & -> & _)]];
    cbn [fst]; try apply evolves_refl.
  unfold evolves. cbn. rewrite Hc. repeat split; try discriminate; tauto.
Qed.

(** The two ways the loop body of [check_for_reveals] can end. *)
Lemma reveal_cases (w : LpWatcher.World) (hashlock : string)
    (swap : LpWatcher.PendingSwap) :
  let '(swap', acts) := LpWatcher.reveal w hashlock swap in
  (swap' = swap /\ acts = []) \/
  (LpWatcher.usdc_claimed swap = false /\
   LpWatcher.kpiv_htlc_created swap = true /\
   exists p tx_hash,
     swap' = LpWatcher.set_revealed swap p (Py.truthy_opt tx_hash) /\
     ((tx_hash = None /\ acts = []) \/
      exists sid pre, acts = [LpWatcher.ClaimUsdc sid pre tx_hash])).
Proof.
  unfold LpWatcher.reveal.
  destruct (LpWatcher.usdc_claimed swap) eqn:Hu; [left; auto|].
  destruct (negb (LpWatcher.kpiv_htlc_created swap)) eqn:Hc; [left; auto|].
  apply negb_false_iff in Hc.
  destruct (LpWatcher.get_htlc_by_hashlock w _) as [htlc|]; [|left; auto].
  destruct (bool_decide _); [|left; auto].
  destruct (LpWatcher.preimage htlc) as [p|]; [|left; auto].
  destruct (Py.truthy_str p); [|left; auto].
  unfold LpWatcher.claim_usdc.
  assert (Hnone :
    LpWatcher.kpiv_htlc_created swap = true /\
    exists p' tx_hash,
      LpWatcher.set_revealed swap p (if Py.truthy_opt None then true else false)
      = LpWatcher.set_revealed swap p' (Py.truthy_opt tx_hash) /\
      ((tx_hash = None /\ @nil LpWatcher.action = []) \/
       exists sid pre,
         @nil LpWatcher.action = [LpWatcher.ClaimUsdc sid pre tx_hash])).
  { split; [assumption|]. exists p, None. split; [reflexivity|]. left. auto. }
  destruct (negb (Py.truthy_str (LpWatcher.private_key w)));
    [right; split; [reflexivity|exact Hnone]|].
  destruct (negb (LpWatcher.account_from_key w (LpWatcher.private_key w)));
    [right; split; [reflexivity|exact Hnone]|].
  destruct (Py.fromhex (LpWatcher.strip_0x (LpWatcher.polygon_swap_id swap)))
    as [sid|]; [|right; split; [reflexivity|exact Hnone]].
  destruct (Py.fromhex (LpWatcher.strip_0x p)) as [pre|];
    [|right; split; [reflexivity|exact Hnone]].
  destruct (LpWatcher.evm_claim w sid pre) as [| |tx];
    [right; split; [reflexivity|exact Hnone]| |].
  - right. repeat split; try assumption. exists p, None.
    split; [reflexivity|]. right. eauto.
  - right. repeat split; try assumption. exists p, (Some tx). split.
    + cbn [Py.truthy_opt]. destruct (Py.truthy_str tx); reflexivity.
    + right. eauto.
Qed.

Lemma reveal_evolves (w : LpWatcher.World) (hashlock : string)
    (swap : LpWatcher.PendingSwap) :
  evolves swap (fst (LpWatcher.reveal w hashlock swap)).
Proof.
  pose proof (reveal_cases w hashlock swap) as H.
  destruct (LpWatcher.reveal w hashlock swap) as [swap' acts].
  destruct H as [[-> _]|(Hu & Hc & p & tx & -> & _)];
    cbn [fst]; [apply evolves_refl|].
  unfold evolves. cbn. rewrite Hu. repeat split; try discriminate; tauto.
Qed.

(** X24.  A pass of [check_pending_htlcs] or of [check_for_reveals]
    keeps every pending swap under its key and in its place; in each
    swap the fields taken from the lock stay as they are, and the flags
    [kpiv_htlc_created] and [usdc_claimed] are never reset (nor the
    outpoint and the preimage recorded with them overwritten). *)
Theorem pending_swaps_evolve (w : LpWatcher.World)
    (pending_swaps : list (string * LpWatcher.PendingSwap)) :
  Forall2 same_key_evolves pending_swaps
          (fst (LpWatcher.check_pending_htlcs w pending_swaps)) /\
  Forall2 same_key_evolves pending_swaps
          (fst (LpWatcher.check_for_reveals w pending_swaps)).
Proof.
  split.
  - induction pending_swaps as [|[k swap] rest IH]; [constructor|].
    cbn [LpWatcher.check_pending_htlcs].
    assert (He : evolves swap
                   (fst (if negb (LpWatcher.kpiv_htlc_created swap)
                         then LpWatcher.try_create_kpiv_htlc w swap
                         else (swap, [])))).
    { destruct (negb _); [apply try_create_evolves|apply evolves_refl]. }
    destruct (if negb (LpWatcher.kpiv_htlc_created swap)
              then LpWatcher.try_create_kpiv_htlc w swap else (swap, []))
      as [swap' acts].
    destruct (LpWatcher.check_pending_htlcs w rest) as [rest' acts'].
    cbn [fst] in *. constructor; [split; [reflexivity|exact He]|exact IH].
  - induction pending_swaps as [|[k swap] rest IH]; [constructor|].
    cbn [LpWatcher.check_for_reveals].
    pose proof (reveal_evolves w k swap) as He.
    destruct (LpWatcher.reveal w k swap) as [swap' acts].
    destruct (LpWatcher.check_for_reveals w rest) as [rest' acts'].
    cbn [fst] in *. constructor; [split; [reflexivity|exact He]|exact IH].
Qed.

(** X25.  In a pass of [check_pending_htlcs] the swaps that still have
    no KPIV HTLC afterwards, together with the HTLCs created in the
    pass, are exactly the swaps that had none before: at most one
    [htlc_create_kpiv] is sent per swap without an HTLC, none for a
    swap that has one, and no claim is sent. *)
Theorem kpiv_htlc_accounting (w : LpWatcher.World)
    (pending_swaps : list (string * LpWatcher.PendingSwap)) :
  let '(after, acts) := LpWatcher.check_pending_htlcs w pending_swaps in
  (count without_htlc after + count is_notify acts
   = count without_htlc pending_swaps)%nat /\
  (count is_notify acts <= count is_create acts
                        <= count without_htlc pending_swaps)%nat /\
  count is_claim acts = 0%nat.
Proof.
  induction pending_swaps as [|[k swap] rest IH]; [cbn; lia|].
  cbn [LpWatcher.check_pending_htlcs].
  destruct (LpWatcher.check_pending_htlcs w rest) as [rest' acts'].
  pose proof (try_create_cases w swap) as H.
  destruct (LpWatcher.kpiv_htlc_created swap) eqn:Hc; cbn [negb].
  - rewrite !count_cons. cbn [app].
    assert (Hw : without_htlc (k, swap) = false)
      by (unfold without_htlc; cbn [snd]; now rewrite Hc).
    rewrite Hw. lia.
  - assert (Hw : without_htlc (k, swap) = true)
      by (unfold without_htlc; cbn [snd]; now rewrite Hc).
    destruct (LpWatcher.try_create_kpiv_htlc w swap) as [swap' acts].
    rewrite !count_app, !count_cons.
    destruct H as [[-> ->]|[(-> & _ & h & a & t & e & ->)
                           |(_ & txid & h & a & t & e & n & k' & -> & ->)]];
      rewrite ?Hw;
      try change (without_htlc (k, LpWatcher.set_created swap txid)) with false;
      cbn; lia.
Qed.

(** X26.  In a pass of [check_for_reveals] the swaps still unclaimed
    afterwards, together with the claims that came back with a
    transaction hash, are exactly the swaps that were unclaimed before:
    a swap whose USDC claim went through is marked, and for a marked
    swap no claim is sent again.  No KPIV HTLC is created in the pass. *)
Theorem usdc_claim_accounting (w : LpWatcher.World)
    (pending_swaps : list (string * LpWatcher.PendingSwap)) :
  let '(after, acts) := LpWatcher.check_for_reveals w pending_swaps in
  (count unclaimed after + count claim_ok acts
   = count unclaimed pending_swaps)%nat /\
  (count claim_ok acts <= count is_claim acts
                       <= count unclaimed pending_swaps)%nat /\
  count is_create acts = 0%nat.
Proof.
  induction pending_swaps as [|[k swap] rest IH]; [cbn; lia|].
  cbn [LpWatcher.check_for_reveals].
  destruct (LpWatcher.check_for_reveals w rest) as [rest' acts'].
  pose proof (reveal_cases w k swap) as H.
  destruct (LpWatcher.reveal w k swap) as [swap' acts].
  rewrite !count_app, !count_cons.
  destruct H as [[-> ->]|(Hu & _ & p & tx & -> & [[-> ->]|(sid & pre & ->)])].
  - cbn. destruct (unclaimed (k, swap)); lia.
  - assert (Hw : unclaimed (k, swap) = true)
      by (unfold unclaimed; cbn [snd]; now rewrite Hu).
    rewrite Hw.
    change (unclaimed (k, LpWatcher.set_revealed swap p (Py.truthy_opt None)))
      with true.
    cbn. lia.
  - assert (Hw : unclaimed (k, swap) = true)
      by (unfold unclaimed; cbn [snd]; now rewrite Hu).
    rewrite Hw.
    change (unclaimed (k, LpWatcher.set_revealed swap p (Py.truthy_opt tx)))
      with (negb (Py.truthy_opt tx)).
    cbn. destruct (Py.truthy_opt tx); cbn; lia.
Qed.

(* ===================================================================== *)
(** ** lp_watcher.py: the HTLC of a hashlock and the auto-refund *)
(* ===================================================================== *)

(** X27.  [get_htlc_by_hashlock] returns nothing exactly when the daemon
    lists no HTLC for the hashlock (or the call fails).  Otherwise it
    returns an HTLC of the list: a claimed one whenever the list has
    one, and the first of the list only when none is claimed. *)
Theorem get_htlc_by_hashlock_prefers_claimed (w : LpWatcher.World)
    (hashlock : string) :
  match LpWatcher.get_htlc_by_hashlock w hashlock with
  | None =>
      LpWatcher.rpc_htlc_list w hashlock = None \/
      LpWatcher.rpc_htlc_list w hashlock = Some []
  | Some htlc =>
      exists first rest,
        LpWatcher.rpc_htlc_list w hashlock = Some (first :: rest) /\
        In htlc (first :: rest) /\
        if existsb claimed_htlc (first :: rest)
        then LpWatcher.status htlc = Some "claimed"
        else htlc = first
  end.
Proof.
  unfold LpWatcher.get_htlc_by_hashlock.
  destruct (LpWatcher.rpc_htlc_list w hashlock) as [[|first rest]|];
    [right; reflexivity| |left; reflexivity].
  fold claimed_htlc.
  destruct (find claimed_htlc (first :: rest)) as [x|] eqn:Hf.
  - exists first, rest. split; [reflexivity|].
    apply find_some in Hf as [Hin Hc]. split; [exact Hin|].
    assert (He : existsb claimed_htlc (first :: rest) = true)
      by (apply existsb_exists; eauto).
    rewrite He. unfold claimed_htlc in Hc. now apply bool_decide_eq_true in Hc.
  - exists first, rest. split; [reflexivity|]. split; [now left|].
    destruct (existsb claimed_htlc (first :: rest)) eqn:He; [|reflexivity].
    apply existsb_exists in He as (y & Hy & Hc).
    now rewrite (find_none _ _ Hf y Hy) in Hc.
Qed.

Lemma expire_cases (w : LpWatcher.World)
    (rpc : string -> LpWatcher.refund_result) (refunded : list string)
    (k : string) (swap : LpWatcher.PendingSwap) :
  let '(refunded', acts) := LpWatcher.expire w rpc refunded k swap in
  (refunded' = refunded /\ acts = []) \/
  (refundable refunded (k, swap) = true /\
   exists o, acts = [LpWatcher.HtlcRefundKpiv o] /\
             (refunded' = refunded \/ refunded' = (refunded ++ [k])%list)).
Proof.
  unfold LpWatcher.expire, refundable. cbn [fst snd].
  destruct (LpWatcher.usdc_claimed swap); [left; auto|].
  destruct (LpWatcher.kpiv_htlc_created swap); [|left; auto].
  destruct (LpWatcher.in_keys k refunded); [left; auto|]. cbn [negb andb].
  destruct (LpWatcher.get_htlc_by_hashlock w _) as [htlc|]; [|left; auto].
  destruct (bool_decide _); [|left; auto].
  destruct (Py.truthy_str _); [|left; auto].
  unfold LpWatcher.refund_kpiv_htlc.
  destruct (Py.truthy_opt _); right; (split; [reflexivity|]); eexists; eauto.
Qed.

Lemma count_le {A : Type} (f g : A -> bool) (l : list A) :
  (forall x, f x = true -> g x = true) -> (count f l <= count g l)%nat.
Proof.
  intros H. induction l as [|x l IH]; [cbn; lia|].
  rewrite !count_cons. specialize (H x).
  destruct (f x); [rewrite H by reflexivity; lia|destruct (g x); lia].
Qed.

Lemma refundable_app (refunded extra : list string)
    (ks : string * LpWatcher.PendingSwap) :
  refundable (refunded ++ extra) ks = true -> refundable refunded ks = true.
Proof.
  unfold refundable, LpWatcher.in_keys. rewrite existsb_app.
  destruct (negb _ && _); [|discriminate]. cbn [andb].
  destruct (existsb _ refunded); [discriminate|reflexivity].
Qed.

(** X28.  A pass of [check_for_expired_htlcs] only appends to the keys
    that carry [kpiv_refunded], one for each refund that went through,
    and sends at most one [htlc_refund_kpiv] for each swap that has its
    KPIV HTLC, whose USDC is not claimed and that is not refunded yet:
    none for a swap whose USDC the LP has claimed, and none again for a
    refunded swap. *)
Theorem auto_refund_accounting (w : LpWatcher.World)
    (rpc : string -> LpWatcher.refund_result)
    (pending_swaps : list (string * LpWatcher.PendingSwap))
    (refunded : list string) :
  let '(refunded', acts) :=
    LpWatcher.check_for_expired_htlcs w rpc pending_swaps refunded in
  exists added,
    refunded' = (refunded ++ added)%list /\
    (length added <= length acts <= count (refundable refunded) pending_swaps)%nat /\
    incl added (map fst pending_swaps).
Proof.
  revert refunded.
  induction pending_swaps as [|[k swap] rest IH]; intros refunded.
  - exists []. cbn. rewrite app_nil_r. repeat split; try lia. intros x [].
  - cbn [LpWatcher.check_for_expired_htlcs].
    pose proof (expire_cases w rpc refunded k swap) as H.
    destruct (LpWatcher.expire w rpc refunded k swap) as [r1 a1].
    specialize (IH r1).
    destruct (LpWatcher.check_for_expired_htlcs w rpc rest r1) as [r2 a2].
    destruct IH as (added & -> & Hlen & Hin).
    rewrite count_cons, length_app. cbn [map fst].
    destruct H as [[-> ->]|(Hr & o & -> & [->| ->])].
    + exists added. split; [reflexivity|]. split.
      * cbn [length]. destruct (refundable refunded (k, swap)); lia.
      * now apply incl_tl.
    + exists added. split; [reflexivity|]. rewrite Hr. split.
      * cbn [length]. lia.
      * now apply incl_tl.
    + exists (k :: added). split; [now rewrite <- app_assoc|].
      rewrite Hr. split.
      * cbn [length].
        pose proof (count_le (refundable (refunded ++ [k])) (refundable refunded)
                      rest (refundable_app refunded [k])).
        lia.
      * intros x [<-|Hx]; [now left|right; now apply Hin].
Qed.

(* ===================================================================== *)
(** ** sdk/dex_types.py and sdk/lot_manager.py: LOTs *)
(* ===================================================================== *)

Lemma side_of_value_value (s : DexTypes.LotSide) :
  DexTypes.side_of_value (DexTypes.side_value s) = DexTypes.Ok s.
Proof. destruct s; reflexivity. Qed.

Lemma status_of_value_value (s : DexTypes.LotStatus) :
  DexTypes.status_of_value (DexTypes.status_value s) = DexTypes.Ok s.
Proof. destruct s; reflexivity. Qed.

(** X29.  Writing a LOT with [to_dict] and reading it back with
    [from_dict] gives the same LOT, with one exception: a LOT whose
    [remaining] is 0.0 comes back with [remaining] set to its full
    [size], because the constructor takes a remaining of zero for a
    missing one. *)
Theorem lot_round_trip (str_float : float -> string) (now : Z)
    (lot : DexTypes.LOT) :
  Py.truthy_str (DexTypes.lot_id lot) = true ->
  DexTypes.from_dict str_float now (DexTypes.to_dict lot)
  = DexTypes.Ok
      (if (DexTypes.remaining lot =? 0)%float
       then DexTypes.with_remaining lot (DexTypes.size lot)
       else lot).
Proof.
  intros Hid. destruct lot as [p sd pr sz pc pa ka ex cr pk sg st rm lid].
  cbn [DexTypes.lot_id DexTypes.remaining DexTypes.size] in *.
  unfold DexTypes.from_dict, DexTypes.to_dict.
  cbn [DexTypes.d_pair DexTypes.d_side DexTypes.d_price DexTypes.d_size
       DexTypes.d_payment_chain DexTypes.d_payment_addr DexTypes.d_lp_kpiv_addr
       DexTypes.d_status DexTypes.d_expiry_ts DexTypes.d_created_ts
       DexTypes.d_lp_pubkey DexTypes.d_signature DexTypes.d_remaining
       DexTypes.d_lot_id DexTypes.item DexTypes.bind default from_option id
       DexTypes.pair DexTypes.side DexTypes.price DexTypes.size
       DexTypes.payment_chain DexTypes.payment_addr DexTypes.lp_kpiv_addr
       DexTypes.expiry_ts DexTypes.created_ts DexTypes.lp_pubkey
       DexTypes.signature DexTypes.status DexTypes.remaining DexTypes.lot_id].
  rewrite side_of_value_value. cbn [DexTypes.bind DexTypes.item].
  rewrite status_of_value_value. cbn [DexTypes.bind]. f_equal.
  unfold DexTypes.post_init. cbn [DexTypes.remaining DexTypes.size].
  destruct (rm =? 0)%float;
    cbn [DexTypes.with_remaining DexTypes.lot_id]; now rewrite Hid.
Qed.

Lemma lot_round_trip_witness :
  DexTypes.from_dict (fun _ => "") 1700000500 (DexTypes.to_dict sample_filled_lot)
  = DexTypes.Ok
      (if (DexTypes.remaining sample_filled_lot =? 0)%float
       then DexTypes.with_remaining sample_filled_lot
              (DexTypes.size sample_filled_lot)
       else sample_filled_lot).
Proof. apply (lot_round_trip (fun _ => "") 1700000500 sample_filled_lot). reflexivity. Defined.

Lemma cleanup_from_spec (time_at : nat -> Z) (i : nat) (lots : LotManager.Lots) :
  let '(lots', n) := LotManager.cleanup_from time_at i lots in
  Forall2 cleaned lots lots' /\
  Z.of_nat (count open_lot lots') + n = Z.of_nat (count open_lot lots) /\
  0 <= n.
Proof.
  revert i. induction lots as [|[k lot] rest IH]; intros i.
  - cbn. repeat split; [constructor|lia].
  - cbn [LotManager.cleanup_from]. specialize (IH (S i)).
    destruct (LotManager.cleanup_from time_at (S i) rest) as [rest' n].
    destruct IH as (Hf & Hc & Hn).
    destruct (LotManager.is_open lot) eqn:Ho; cbn [andb].
    + unfold DexTypes.is_expired.
      destruct (Z.eqb_spec (DexTypes.expiry_ts lot) 0) as [He|He].
      * rewrite !count_cons. unfold open_lot at 1 3. cbn [snd]. rewrite Ho.
        repeat split; try lia. constructor; [|exact Hf].
        split; [reflexivity|now left].
      * destruct (time_at i >? DexTypes.expiry_ts lot).
        -- rewrite !count_cons. unfold open_lot at 1 3. cbn [snd]. rewrite Ho.
           change (LotManager.is_open (DexTypes.with_status lot DexTypes.EXPIRED))
             with false.
           repeat split; try lia. constructor; [|exact Hf].
           split; [reflexivity|]. right. auto.
        -- rewrite !count_cons. unfold open_lot at 1 3. cbn [snd]. rewrite Ho.
           repeat split; try lia. constructor; [|exact Hf].
           split; [reflexivity|now left].
    + rewrite !count_cons. unfold open_lot at 1 3. cbn [snd]. rewrite Ho.
      repeat split; try lia. constructor; [|exact Hf].
      split; [reflexivity|now left].
Qed.

(** A second pass with the same clock readings changes nothing. *)
Lemma cleanup_from_again (time_at : nat -> Z) (i : nat) (lots : LotManager.Lots) :
  LotManager.cleanup_from time_at i
    (fst (LotManager.cleanup_from time_at i lots))
  = (fst (LotManager.cleanup_from time_at i lots), 0).
Proof.
  revert i. induction lots as [|[k lot] rest IH]; intros i; [reflexivity|].
  cbn [LotManager.cleanup_from]. specialize (IH (S i)).
  destruct (LotManager.cleanup_from time_at (S i) rest) as [rest' n].
  cbn [fst] in IH.
  destruct (LotManager.is_open lot && DexTypes.is_expired lot (time_at i)) eqn:E;
    cbn [fst LotManager.cleanup_from]; rewrite IH.
  - change (LotManager.is_open (DexTypes.with_status lot DexTypes.EXPIRED))
      with false. reflexivity.
  - rewrite E. reflexivity.
Qed.

(** X30.  [cleanup_expired] keeps every LOT under its id and in its
    place and changes nothing but the status of LOTs that were OPEN
    with an expiry, which it sets to EXPIRED: a LOT that is cancelled,
    filled or taken, or that has [expiry_ts] 0, is never touched.  The
    number it returns is the number of LOTs that left the OPEN status,
    the storage file is written only when that number is positive, and
    a second pass with the same clock readings marks nothing. *)
Theorem cleanup_expired_marks_open_lots (time_at : nat -> Z)
    (lots : LotManager.Lots) :
  let '(lots', n, saved) := LotManager.cleanup_expired time_at lots in
  Forall2 cleaned lots lots' /\
  Z.of_nat (count open_lot lots') + n = Z.of_nat (count open_lot lots) /\
  (saved = None <-> n = 0) /\
  LotManager.cleanup_expired time_at lots' = (lots', 0, None).
Proof.
  unfold LotManager.cleanup_expired.
  pose proof (cleanup_from_spec time_at 0 lots) as H.
  pose proof (cleanup_from_again time_at 0 lots) as Ha.
  destruct (LotManager.cleanup_from time_at 0 lots) as [lots' n].
  destruct H as (Hf & Hc & Hn). cbn [fst] in Ha.
  split; [exact Hf|]. split; [exact Hc|]. split.
  - destruct (Z.gtb_spec n 0); split; intros; try discriminate; try lia.
    reflexivity.
  - rewrite Ha. reflexivity.
Qed.
